(** * serial: the POSIX back end of the serial-port library (src/impl/unix.cc)

    A shallow embedding of [Serial::SerialImpl] and of the timespec helpers
    it is built on, for an LP64 platform with IEEE-754 doubles (Linux or
    OS X on a 64-bit machine): [int] has 32 bits, [long], [time_t] and
    [size_t] have 64, and values stored into a signed field are kept modulo
    2^64 in two's complement. *)

From Stdlib Require Import ZArith Lia Bool List String.
From Equations Require Import Equations.
From stdpp Require Import base list.
Import ListNotations.

#[local] Open Scope Z_scope.
#[local] Set Equations Transparent.

(** ** C integers and doubles *)

Module CInt.

(** A value stored into a 64-bit signed object ([long], [time_t],
    [ssize_t]). *)
Definition to_long (z : Z) : Z := (z + 2 ^ 63) mod 2 ^ 64 - 2 ^ 63.

(** A value stored into a 32-bit [int]. *)
Definition to_int (z : Z) : Z := (z + 2 ^ 31) mod 2 ^ 32 - 2 ^ 31.

(** A value stored into a [size_t]. *)
Definition to_size_t (z : Z) : Z := z mod 2 ^ 64.

Definition in_long (z : Z) : Prop := - 2 ^ 63 <= z < 2 ^ 63.

(** Rounding of a magnitude to 53 significant bits, to nearest and ties
    to even: what the conversion of an integer to [double], and the sum
    of two integral doubles, yield. *)
Definition round53_abs (m : Z) : Z :=
  if m <? 2 ^ 53 then m
  else
    let e := Z.log2 m - 52 in
    let q := m / 2 ^ e in
    let r := m mod 2 ^ e in
    let half := 2 ^ (e - 1) in
    if r <? half then q * 2 ^ e
    else if half <? r then (q + 1) * 2 ^ e
    else if Z.even q then q * 2 ^ e
    else (q + 1) * 2 ^ e.

Definition round53 (z : Z) : Z := Z.sgn z * round53_abs (Z.abs z).

(** [(double) n] for a long [n]; the double is kept as the integer it
    denotes. *)
Definition double_of_long (n : Z) : Z := round53 n.

(** [x + y] and [x - y] on doubles that denote integers. *)
Definition fadd (x y : Z) : Z := round53 (x + y).
Definition fsub (x y : Z) : Z := round53 (x - y).

(** [(long) x] for an integral double [x]. *)
Definition long_of_double (x : Z) : Z := to_long x.

(** The literal [1e9]. *)
Definition d1e9 : Z := 1000000000.

End CInt.
Import CInt.

(** ** struct timespec and its helpers *)

Record timespec : Type := mk_timespec { tv_sec : Z; tv_nsec : Z }.

(** The total number of nanoseconds a timespec stands for. *)
Definition total_ns (ts : timespec) : Z := tv_sec ts * 1000000000 + tv_nsec ts.

(** [ts->tv_nsec += 1e9; ts->tv_sec -= 1;]: the sum is computed in double. *)
Definition borrow_step (ts : timespec) : timespec :=
  {| tv_sec := to_long (tv_sec ts - 1);
     tv_nsec := long_of_double (fadd (double_of_long (tv_nsec ts)) d1e9) |}.

(** [ts->tv_nsec -= 1e9; ts->tv_sec += 1;] *)
Definition carry_step (ts : timespec) : timespec :=
  {| tv_sec := to_long (tv_sec ts + 1);
     tv_nsec := long_of_double (fsub (double_of_long (tv_nsec ts)) d1e9) |}.

(** *** Facts on the integer and double model that the loops of
    [normalize] need to terminate *)

Lemma round53_abs_exact m : 0 <= m <= 2 ^ 53 -> round53_abs m = m.
Proof.
  intros H. unfold round53_abs.
  destruct (Z.ltb_spec m (2 ^ 53)) as [|Hge]; [reflexivity|].
  assert (m = 2 ^ 53) as -> by lia. vm_compute. reflexivity.
Qed.

Lemma round53_abs_nonneg m : 0 <= m -> 0 <= round53_abs m.
Proof.
  intros H. unfold round53_abs. cbv zeta.
  pose proof (Z.pow_nonneg 2 (Z.log2 m - 52) ltac:(lia)) as Hp.
  assert (Hq : 0 <= m / 2 ^ (Z.log2 m - 52)).
  { destruct (Z.eq_dec (2 ^ (Z.log2 m - 52)) 0) as [->|];
      [rewrite Z.div_0_r; lia|apply Z.div_pos; lia]. }
  repeat match goal with |- context [if ?c then _ else _] => destruct c end; nia.
Qed.

Lemma round53_abs_near m :
  0 <= m <= 2 ^ 64 -> m - 4096 <= round53_abs m <= m + 4096.
Proof.
  intros H. unfold round53_abs.
  destruct (Z.ltb_spec m (2 ^ 53)) as [|Hge]; [lia|].
  assert (Hl : 53 <= Z.log2 m <= 64).
  { split.
    - change 53 with (Z.log2 (2 ^ 53)). apply Z.log2_le_mono. lia.
    - change 64 with (Z.log2 (2 ^ 64)). apply Z.log2_le_mono. lia. }
  set (e := Z.log2 m - 52).
  assert (He : 1 <= e <= 12) by (unfold e; lia).
  assert (Hp : 0 < 2 ^ e <= 2 ^ 12).
  { split; [apply Z.pow_pos_nonneg; lia|apply Z.pow_le_mono_r; lia]. }
  change (2 ^ 12) with 4096 in Hp.
  pose proof (Z.div_mod m (2 ^ e) ltac:(lia)) as Hdm.
  pose proof (Z.mod_pos_bound m (2 ^ e) ltac:(lia)) as Hr.
  assert (0 <= m / 2 ^ e) by (apply Z.div_pos; lia).
  cbv zeta.
  generalize dependent (m / 2 ^ e). generalize dependent (m mod 2 ^ e).
  generalize dependent (2 ^ e). generalize (2 ^ (e - 1)). clear.
  intros h p Hp r Hr q Hdm Hq.
  repeat match goal with |- context [if ?c then _ else _] => destruct c end; nia.
Qed.

Lemma round53_sign z : (0 <= z -> 0 <= round53 z) /\ (z <= 0 -> round53 z <= 0).
Proof.
  unfold round53. pose proof (round53_abs_nonneg (Z.abs z) ltac:(lia)).
  destruct z; simpl Z.sgn; lia.
Qed.

Lemma round53_exact z : - 2 ^ 53 <= z <= 2 ^ 53 -> round53 z = z.
Proof.
  intros H. unfold round53. rewrite round53_abs_exact by lia.
  destruct z; simpl; lia.
Qed.

Lemma round53_near z :
  - 2 ^ 64 <= z <= 2 ^ 64 -> z - 4096 <= round53 z <= z + 4096.
Proof.
  intros H. unfold round53.
  pose proof (round53_abs_near (Z.abs z) ltac:(lia)) as Hn.
  destruct z; simpl Z.sgn; simpl Z.abs in *; lia.
Qed.

Lemma to_long_range z : - 2 ^ 63 <= to_long z < 2 ^ 63.
Proof. unfold to_long. pose proof (Z.mod_pos_bound (z + 2 ^ 63) (2 ^ 64)). lia. Qed.

Lemma to_long_id z : - 2 ^ 63 <= z < 2 ^ 63 -> to_long z = z.
Proof. intros H. unfold to_long. rewrite Z.mod_small; lia. Qed.

(** Every pass through either loop moves [tv_nsec] by at least
    [loop_stride] towards [0 .. 1e9). *)
Definition loop_stride : Z := 1000000000 - 8192.

Lemma borrow_step_grows ts :
  tv_nsec ts < 0 -> tv_nsec ts + loop_stride <= tv_nsec (borrow_step ts).
Proof.
  intros Hn. unfold borrow_step, long_of_double, fadd, double_of_long, d1e9, loop_stride.
  simpl.
  destruct (Z_le_gt_dec (tv_nsec ts) (- 2 ^ 63 - (1000000000 - 8192))) as [Hlo|Hlo].
  - pose proof (to_long_range (round53 (round53 (tv_nsec ts) + 1000000000))). lia.
  - pose proof (round53_near (tv_nsec ts) ltac:(lia)) as H1.
    pose proof (proj2 (round53_sign (tv_nsec ts)) ltac:(lia)) as H2.
    pose proof (round53_near (round53 (tv_nsec ts) + 1000000000) ltac:(lia)) as H4.
    rewrite to_long_id; lia.
Qed.

Lemma carry_step_shrinks ts :
  d1e9 <= double_of_long (tv_nsec ts) ->
  0 < tv_nsec ts /\ tv_nsec (carry_step ts) <= tv_nsec ts - loop_stride.
Proof.
  unfold carry_step, long_of_double, fsub, double_of_long, d1e9, loop_stride.
  simpl. intros Hn.
  assert (0 < tv_nsec ts).
  { destruct (Z_lt_le_dec 0 (tv_nsec ts)); [assumption|].
    pose proof (proj2 (round53_sign (tv_nsec ts)) ltac:(lia)). lia. }
  split; [assumption|].
  destruct (Z_lt_le_dec (tv_nsec ts) (2 ^ 63 + (1000000000 - 8192))) as [Hhi|Hhi].
  - pose proof (round53_near (tv_nsec ts) ltac:(lia)) as H1.
    pose proof (round53_near (round53 (tv_nsec ts) - 1000000000) ltac:(lia)) as H4.
    pose proof (proj1 (round53_sign (round53 (tv_nsec ts) - 1000000000)) ltac:(lia)) as H5.
    rewrite to_long_id; lia.
  - pose proof (to_long_range (round53 (round53 (tv_nsec ts) - 1000000000))). lia.
Qed.

(** The number of passes still to come bounds both loops. *)
Definition passes (distance : Z) : nat := Z.to_nat (distance / loop_stride + 1).

Lemma passes_lt a b : 0 < b -> a <= b - loop_stride -> (passes a < passes b)%nat.
Proof.
  unfold passes, loop_stride. intros Hb Ha.
  assert (0 <= b / (1000000000 - 8192)) by (apply Z.div_pos; lia).
  assert (a / (1000000000 - 8192) + 1 <= b / (1000000000 - 8192)); [|lia].
  replace b with ((b - (1000000000 - 8192)) + 1 * (1000000000 - 8192)) at 1 by lia.
  rewrite Z.div_add by lia.
  pose proof (Z.div_le_mono a (b - (1000000000 - 8192)) (1000000000 - 8192) ltac:(lia) Ha).
  lia.
Qed.

(** [while (ts->tv_nsec < 0) { ts->tv_nsec += 1e9; ts->tv_sec -= 1; }] *)
Equations? normalize_borrow (ts : timespec) : timespec
  by wf (passes (- tv_nsec ts)) lt :=
  normalize_borrow ts with Z_lt_dec (tv_nsec ts) 0 => {
    | left _ := normalize_borrow (borrow_step ts);
    | right _ := ts }.
Proof.
  pose proof (borrow_step_grows ts ltac:(assumption)) as H.
  apply passes_lt; lia.
Qed.

(** [while (ts->tv_nsec >= 1e9) { ts->tv_nsec -= 1e9; ts->tv_sec += 1; }]:
    the comparison is made in double. *)
Equations? normalize_carry (ts : timespec) : timespec
  by wf (passes (tv_nsec ts)) lt :=
  normalize_carry ts with Z_le_dec d1e9 (double_of_long (tv_nsec ts)) => {
    | left _ := normalize_carry (carry_step ts);
    | right _ := ts }.
Proof.
  pose proof (carry_step_shrinks ts ltac:(assumption)) as [H0 H].
  apply passes_lt; lia.
Qed.

Definition normalize (ts : timespec) : timespec :=
  normalize_carry (normalize_borrow ts).

(** [operator+], [operator-] and [operator*]: the fields are combined
    one by one and the result is normalized. *)
Definition operator_plus (a b : timespec) : timespec :=
  normalize {| tv_sec := to_long (tv_sec a + tv_sec b);
               tv_nsec := to_long (tv_nsec a + tv_nsec b) |}.

Definition operator_minus (a b : timespec) : timespec :=
  normalize {| tv_sec := to_long (tv_sec a - tv_sec b);
               tv_nsec := to_long (tv_nsec a - tv_nsec b) |}.

(** [mul] is a [size_t]: both products are taken in [unsigned long] and
    stored back into the signed fields. *)
Definition operator_times (ts : timespec) (mul : Z) : timespec :=
  normalize {| tv_sec := to_long (to_size_t (to_size_t (tv_sec ts) * mul));
               tv_nsec := to_long (to_size_t (to_size_t (tv_nsec ts) * mul)) |}.

(** [min]: the shortest or most negative of two durations. *)
Definition min (a b : timespec) : timespec :=
  if (tv_sec a <? tv_sec b) || ((tv_sec a =? tv_sec b) && (tv_nsec a <? tv_nsec b))
  then a else b.

(** [timespec_from_millis (const size_t millis)] *)
Definition timespec_from_millis (millis : Z) : timespec :=
  normalize {| tv_sec := 0; tv_nsec := to_long (to_size_t (millis * 1000000)) |}.

Example normalize_borrows_once :
  normalize (mk_timespec 5 (-1)) = mk_timespec 4 999999999.
Proof. reflexivity. Qed.

Example normalize_carries_twice :
  normalize (mk_timespec 5 2500000000) = mk_timespec 7 500000000.
Proof. vm_compute. reflexivity. Qed.

Example from_millis_1500 : timespec_from_millis 1500 = mk_timespec 1 500000000.
Proof. vm_compute. reflexivity. Qed.

Example times_carries :
  operator_times (mk_timespec 0 50000000) 100 = mk_timespec 5 0.
Proof. vm_compute. reflexivity. Qed.

(** The range on which a [long] and its conversion to [double] agree. *)
Definition fits_double (n : Z) : Prop := - 2 ^ 53 <= n <= 2 ^ 53.

(** The seconds fit their field before and after the carries. *)
Definition no_overflow (ts : timespec) : Prop :=
  in_long (tv_sec ts) /\ in_long (tv_sec ts + tv_nsec ts / 1000000000).

(** ** The data model *)

(** Modelled from the spec: [struct serial::Timeout] is declared in
    serial/serial.h, which is not among the sources.  The timeout profile
    holds the inter-byte limit and, for each direction, a constant and a
    per-byte multiplier, all non-negative numbers of milliseconds; the
    field names are the ones unix.cc reads. *)
Record Timeout : Type := mk_Timeout {
  inter_byte_timeout : Z;
  read_timeout_constant : Z;
  read_timeout_multiplier : Z;
  write_timeout_constant : Z;
  write_timeout_multiplier : Z
}.

(** The default-constructed profile the constructor names [zero_timeout]. *)
Definition zero_timeout : Timeout := mk_Timeout 0 0 0 0 0.

(** Modelled from the spec: the enumerations of serial/serial.h.  An object
    of a C++ enumeration type may hold a value that is none of its
    enumerators, which [reconfigurePort] tests for; the last constructor of
    each type stands for such a value. *)
Inductive bytesize_t : Type :=
  fivebits | sixbits | sevenbits | eightbits | bytesize_out_of_enum.

Inductive parity_t : Type :=
  parity_none | parity_odd | parity_even | parity_mark | parity_space
| parity_out_of_enum.

Inductive stopbits_t : Type :=
  stopbits_one | stopbits_one_point_five | stopbits_two | stopbits_out_of_enum.

Inductive flowcontrol_t : Type :=
  flowcontrol_none | flowcontrol_software | flowcontrol_hardware
| flowcontrol_out_of_enum.

(** [struct termios]: four words of flags, the control characters and the
    line speeds. *)
Record termios : Type := mk_termios {
  c_iflag : Z;
  c_oflag : Z;
  c_cflag : Z;
  c_lflag : Z;
  c_cc : list Z;
  c_ispeed : Z;
  c_ospeed : Z
}.

(** The fields of Linux's [struct serial_struct] that unix.cc touches. *)
Record serial_struct : Type := mk_serial_struct {
  ser_flags : Z;
  ser_custom_divisor : Z;
  ser_baud_base : Z
}.

(** What the build offers for a baud rate without a [B...] constant: the
    three arms of the preprocessor conditional in [reconfigurePort]. *)
Inductive custom_baud_support : Type :=
  custom_baud_IOSSIOSPEED | custom_baud_TIOCSSERIAL | custom_baud_unsupported.

(** The macros of the system headers.  A macro unix.cc tests with [#ifdef]
    is optional; [B n] is the value of the macro [Bn] where the platform
    defines it; [CRTSCTS] stands for [CNEW_RTSCTS] where only that one
    exists. *)
Class Platform : Type := {
  EINTR : Z; ENFILE : Z; EMFILE : Z;
  CLOCAL : Z; CREAD : Z;
  ICANON : Z; ECHO : Z; ECHOE : Z; ECHOK : Z; ECHONL : Z; ISIG : Z; IEXTEN : Z;
  OPOST : Z;
  INLCR : Z; IGNCR : Z; ICRNL : Z; IGNBRK : Z;
  IUCLC : option Z; PARMRK : option Z;
  B : Z -> option Z;
  custom_baud : custom_baud_support;
  BSD_SOURCE : bool;
  ASYNC_SPD_MASK : Z; ASYNC_SPD_CUST : Z;
  CSIZE : Z; CS5 : Z; CS6 : Z; CS7 : Z; CS8 : Z;
  CSTOPB : Z;
  INPCK : Z; ISTRIP : Z;
  PARENB : Z; PARODD : Z;
  IXON : Z; IXOFF : Z; IXANY : option Z;
  CRTSCTS : Z;
  VMIN : nat; VTIME : nat
}.

(** The system calls and library functions unix.cc relies on, over a state
    [W] of the world outside the process.  A call takes the world and
    returns its C result with the world after it; [errno] is read off the
    world.  A call that fills an object of the caller ([tcgetattr], the
    two reading ioctls) returns the object as it is after the call.  The
    bytes moved by [read] and [write] are not modelled, only their
    number. *)
Class Posix (W : Type) : Type := {
  errno : W -> Z;
  clock_gettime : W -> timespec * W;
  sys_open : string -> W -> Z * W;
  sys_close : Z -> W -> Z * W;
  tcgetattr : Z -> W -> (Z * termios) * W;
  tcsetattr : Z -> termios -> W -> Z * W;
  cfsetspeed : termios -> Z -> termios;
  cfsetispeed : termios -> Z -> termios;
  cfsetospeed : termios -> Z -> termios;
  ioctl_IOSSIOSPEED : Z -> Z -> W -> Z * W;
  ioctl_TIOCGSERIAL : Z -> W -> (Z * serial_struct) * W;
  ioctl_TIOCSSERIAL : Z -> serial_struct -> W -> Z * W;
  ioctl_TIOCINQ : Z -> W -> (Z * Z) * W;
  sys_read : Z -> Z -> W -> Z * W;
  sys_write : Z -> Z -> W -> Z * W;
  pselect_read : Z -> timespec -> W -> (Z * bool) * W;
  pselect_write : Z -> timespec -> W -> (Z * bool) * W
}.

(** The fields of [Serial::SerialImpl], without the two mutexes. *)
Record SerialImpl : Type := mk_SerialImpl {
  port_ : string;
  fd_ : Z;
  is_open_ : bool;
  xonxoff_ : bool;
  rtscts_ : bool;
  timeout_ : Timeout;
  inter_byte_timeout_ : timespec;
  read_timeout_constant_ : timespec;
  read_timeout_multiplier_ : timespec;
  write_timeout_constant_ : timespec;
  write_timeout_multiplier_ : timespec;
  baudrate_ : Z;
  parity_ : parity_t;
  bytesize_ : bytesize_t;
  stopbits_ : stopbits_t;
  flowcontrol_ : flowcontrol_t
}.

(** What a member function throws. *)
Inductive exn : Type :=
| invalid_argument (what : string)
| SerialException (what : string)
| PortNotOpenedException (what : string)
| IOException_errno (errnum : Z)
| IOException_what (what : string).

(** How a call ends: it returns, it throws, the bound on the number of
    loop passes and recursive calls ran out before it did either, or it
    reached an operation that C++ leaves undefined, after which the program
    has no behaviour to speak of. *)
Inductive outcome (A : Type) : Type :=
| Returns (a : A)
| Throws (e : exn)
| OutOfFuel
| Undefined.
Arguments Returns {A} a.
Arguments Throws {A} e.
Arguments OutOfFuel {A}.
Arguments Undefined {A}.

(** Assignment to one field of the handle. *)
Definition set_port_ (v : string) (h : SerialImpl) : SerialImpl :=
  mk_SerialImpl v (fd_ h) (is_open_ h) (xonxoff_ h) (rtscts_ h) (timeout_ h)
    (inter_byte_timeout_ h) (read_timeout_constant_ h) (read_timeout_multiplier_ h)
    (write_timeout_constant_ h) (write_timeout_multiplier_ h)
    (baudrate_ h) (parity_ h) (bytesize_ h) (stopbits_ h) (flowcontrol_ h).

Definition set_fd_ (v : Z) (h : SerialImpl) : SerialImpl :=
  mk_SerialImpl (port_ h) v (is_open_ h) (xonxoff_ h) (rtscts_ h) (timeout_ h)
    (inter_byte_timeout_ h) (read_timeout_constant_ h) (read_timeout_multiplier_ h)
    (write_timeout_constant_ h) (write_timeout_multiplier_ h)
    (baudrate_ h) (parity_ h) (bytesize_ h) (stopbits_ h) (flowcontrol_ h).

Definition set_is_open_ (v : bool) (h : SerialImpl) : SerialImpl :=
  mk_SerialImpl (port_ h) (fd_ h) v (xonxoff_ h) (rtscts_ h) (timeout_ h)
    (inter_byte_timeout_ h) (read_timeout_constant_ h) (read_timeout_multiplier_ h)
    (write_timeout_constant_ h) (write_timeout_multiplier_ h)
    (baudrate_ h) (parity_ h) (bytesize_ h) (stopbits_ h) (flowcontrol_ h).

Definition set_xonxoff_ (v : bool) (h : SerialImpl) : SerialImpl :=
  mk_SerialImpl (port_ h) (fd_ h) (is_open_ h) v (rtscts_ h) (timeout_ h)
    (inter_byte_timeout_ h) (read_timeout_constant_ h) (read_timeout_multiplier_ h)
    (write_timeout_constant_ h) (write_timeout_multiplier_ h)
    (baudrate_ h) (parity_ h) (bytesize_ h) (stopbits_ h) (flowcontrol_ h).

Definition set_rtscts_ (v : bool) (h : SerialImpl) : SerialImpl :=
  mk_SerialImpl (port_ h) (fd_ h) (is_open_ h) (xonxoff_ h) v (timeout_ h)
    (inter_byte_timeout_ h) (read_timeout_constant_ h) (read_timeout_multiplier_ h)
    (write_timeout_constant_ h) (write_timeout_multiplier_ h)
    (baudrate_ h) (parity_ h) (bytesize_ h) (stopbits_ h) (flowcontrol_ h).

Definition set_timeout_ (v : Timeout) (h : SerialImpl) : SerialImpl :=
  mk_SerialImpl (port_ h) (fd_ h) (is_open_ h) (xonxoff_ h) (rtscts_ h) v
    (inter_byte_timeout_ h) (read_timeout_constant_ h) (read_timeout_multiplier_ h)
    (write_timeout_constant_ h) (write_timeout_multiplier_ h)
    (baudrate_ h) (parity_ h) (bytesize_ h) (stopbits_ h) (flowcontrol_ h).

Definition set_inter_byte_timeout_ (v : timespec) (h : SerialImpl) : SerialImpl :=
  mk_SerialImpl (port_ h) (fd_ h) (is_open_ h) (xonxoff_ h) (rtscts_ h) (timeout_ h)
    v (read_timeout_constant_ h) (read_timeout_multiplier_ h)
    (write_timeout_constant_ h) (write_timeout_multiplier_ h)
    (baudrate_ h) (parity_ h) (bytesize_ h) (stopbits_ h) (flowcontrol_ h).

Definition set_read_timeout_constant_ (v : timespec) (h : SerialImpl) : SerialImpl :=
  mk_SerialImpl (port_ h) (fd_ h) (is_open_ h) (xonxoff_ h) (rtscts_ h) (timeout_ h)
    (inter_byte_timeout_ h) v (read_timeout_multiplier_ h)
    (write_timeout_constant_ h) (write_timeout_multiplier_ h)
    (baudrate_ h) (parity_ h) (bytesize_ h) (stopbits_ h) (flowcontrol_ h).

Definition set_read_timeout_multiplier_ (v : timespec) (h : SerialImpl) : SerialImpl :=
  mk_SerialImpl (port_ h) (fd_ h) (is_open_ h) (xonxoff_ h) (rtscts_ h) (timeout_ h)
    (inter_byte_timeout_ h) (read_timeout_constant_ h) v
    (write_timeout_constant_ h) (write_timeout_multiplier_ h)
    (baudrate_ h) (parity_ h) (bytesize_ h) (stopbits_ h) (flowcontrol_ h).

Definition set_write_timeout_constant_ (v : timespec) (h : SerialImpl) : SerialImpl :=
  mk_SerialImpl (port_ h) (fd_ h) (is_open_ h) (xonxoff_ h) (rtscts_ h) (timeout_ h)
    (inter_byte_timeout_ h) (read_timeout_constant_ h) (read_timeout_multiplier_ h)
    v (write_timeout_multiplier_ h)
    (baudrate_ h) (parity_ h) (bytesize_ h) (stopbits_ h) (flowcontrol_ h).

Definition set_write_timeout_multiplier_ (v : timespec) (h : SerialImpl) : SerialImpl :=
  mk_SerialImpl (port_ h) (fd_ h) (is_open_ h) (xonxoff_ h) (rtscts_ h) (timeout_ h)
    (inter_byte_timeout_ h) (read_timeout_constant_ h) (read_timeout_multiplier_ h)
    (write_timeout_constant_ h) v
    (baudrate_ h) (parity_ h) (bytesize_ h) (stopbits_ h) (flowcontrol_ h).

Definition set_baudrate_ (v : Z) (h : SerialImpl) : SerialImpl :=
  mk_SerialImpl (port_ h) (fd_ h) (is_open_ h) (xonxoff_ h) (rtscts_ h) (timeout_ h)
    (inter_byte_timeout_ h) (read_timeout_constant_ h) (read_timeout_multiplier_ h)
    (write_timeout_constant_ h) (write_timeout_multiplier_ h)
    v (parity_ h) (bytesize_ h) (stopbits_ h) (flowcontrol_ h).

Definition set_parity_ (v : parity_t) (h : SerialImpl) : SerialImpl :=
  mk_SerialImpl (port_ h) (fd_ h) (is_open_ h) (xonxoff_ h) (rtscts_ h) (timeout_ h)
    (inter_byte_timeout_ h) (read_timeout_constant_ h) (read_timeout_multiplier_ h)
    (write_timeout_constant_ h) (write_timeout_multiplier_ h)
    (baudrate_ h) v (bytesize_ h) (stopbits_ h) (flowcontrol_ h).

Definition set_bytesize_ (v : bytesize_t) (h : SerialImpl) : SerialImpl :=
  mk_SerialImpl (port_ h) (fd_ h) (is_open_ h) (xonxoff_ h) (rtscts_ h) (timeout_ h)
    (inter_byte_timeout_ h) (read_timeout_constant_ h) (read_timeout_multiplier_ h)
    (write_timeout_constant_ h) (write_timeout_multiplier_ h)
    (baudrate_ h) (parity_ h) v (stopbits_ h) (flowcontrol_ h).

Definition set_stopbits_ (v : stopbits_t) (h : SerialImpl) : SerialImpl :=
  mk_SerialImpl (port_ h) (fd_ h) (is_open_ h) (xonxoff_ h) (rtscts_ h) (timeout_ h)
    (inter_byte_timeout_ h) (read_timeout_constant_ h) (read_timeout_multiplier_ h)
    (write_timeout_constant_ h) (write_timeout_multiplier_ h)
    (baudrate_ h) (parity_ h) (bytesize_ h) v (flowcontrol_ h).

Definition set_flowcontrol_ (v : flowcontrol_t) (h : SerialImpl) : SerialImpl :=
  mk_SerialImpl (port_ h) (fd_ h) (is_open_ h) (xonxoff_ h) (rtscts_ h) (timeout_ h)
    (inter_byte_timeout_ h) (read_timeout_constant_ h) (read_timeout_multiplier_ h)
    (write_timeout_constant_ h) (write_timeout_multiplier_ h)
    (baudrate_ h) (parity_ h) (bytesize_ h) (stopbits_ h) v.

(** Assignment to the members of a [termios]. *)
Definition set_c_iflag (v : Z) (o : termios) : termios :=
  mk_termios v (c_oflag o) (c_cflag o) (c_lflag o) (c_cc o) (c_ispeed o) (c_ospeed o).
Definition set_c_oflag (v : Z) (o : termios) : termios :=
  mk_termios (c_iflag o) v (c_cflag o) (c_lflag o) (c_cc o) (c_ispeed o) (c_ospeed o).
Definition set_c_cflag (v : Z) (o : termios) : termios :=
  mk_termios (c_iflag o) (c_oflag o) v (c_lflag o) (c_cc o) (c_ispeed o) (c_ospeed o).
Definition set_c_lflag (v : Z) (o : termios) : termios :=
  mk_termios (c_iflag o) (c_oflag o) (c_cflag o) v (c_cc o) (c_ispeed o) (c_ospeed o).
Definition set_c_cc (v : list Z) (o : termios) : termios :=
  mk_termios (c_iflag o) (c_oflag o) (c_cflag o) (c_lflag o) v (c_ispeed o) (c_ospeed o).

(** [tcflag_t] has 32 bits.  [flags |= m] and [flags &= ~m], with or
    without the source's casts of the mask, leave the same 32 bits. *)
Definition to_tcflag (z : Z) : Z := z mod 2 ^ 32.
Definition flag_or (flags m : Z) : Z := to_tcflag (Z.lor flags m).
Definition flag_andnot (flags m : Z) : Z := to_tcflag (Z.land flags (Z.lnot m)).

(** The value of an optional macro inside a mask: no bits where the macro
    does not exist. *)
Definition opt_bits (m : option Z) : Z := match m with Some b => b | None => 0 end.

(** [std::string::empty] *)
Definition empty (s : string) : bool :=
  match s with EmptyString => true | String _ _ => false end.

(** The labels of [switch (baudrate_)], in the order of the source; each
    arm exists only where the platform defines its [B...] macro. *)
Definition baud_cases : list Z :=
  [0; 50; 75; 110; 134; 150; 200; 300; 600; 1200; 1800; 2400; 4800; 7200;
   9600; 14400; 19200; 28800; 57600; 76800; 38400; 115200; 128000; 153600;
   230400; 256000; 460800; 921600; 1000000; 1152000; 1500000; 2000000;
   2500000; 3000000; 3500000; 4000000].

(** A call of a member function that may assign a field of the handle. *)
Inductive operation : Type :=
| Call_open (fuel : nat)
| Call_close
| Call_reconfigurePort
| Call_setPort (port : string)
| Call_setTimeout (timeout : Timeout)
| Call_setBaudrate (baudrate : Z)
| Call_setBytesize (bytesize : bytesize_t)
| Call_setParity (parity : parity_t)
| Call_setStopbits (stopbits : stopbits_t)
| Call_setFlowcontrol (flowcontrol : flowcontrol_t)
| Call_read (fuel : nat) (size : Z)
| Call_write (fuel : nat) (length : Z).

(** ** The member functions *)

Section Members.

Context {P : Platform} {W : Type} {os : Posix W}.

(** A member function runs on the handle and the world, and leaves both
    changed whether it returns or throws. *)
Definition M (A : Type) : Type := SerialImpl -> W -> outcome A * SerialImpl * W.

Definition ret {A} (a : A) : M A := fun h w => (Returns a, h, w).

Definition bind {A B} (m : M A) (k : A -> M B) : M B :=
  fun h w =>
    match m h w with
    | (Returns a, h', w') => k a h' w'
    | (Throws e, h', w') => (Throws e, h', w')
    | (OutOfFuel, h', w') => (OutOfFuel, h', w')
    | (Undefined, h', w') => (Undefined, h', w')
    end.

Definition throw {A} (e : exn) : M A := fun h w => (Throws e, h, w).
Definition out_of_fuel {A} : M A := fun h w => (OutOfFuel, h, w).
Definition undefined {A} : M A := fun h w => (Undefined, h, w).

(** Reading a field, assigning one, a system call, reading [errno]. *)
Definition member {A} (f : SerialImpl -> A) : M A := fun h w => (Returns (f h), h, w).
Definition assign (f : SerialImpl -> SerialImpl) : M unit :=
  fun h w => (Returns tt, f h, w).
Definition call {A} (op : W -> A * W) : M A :=
  fun h w => let (a, w') := op w in (Returns a, h, w').
Definition get_errno : M Z := fun h w => (Returns (errno w), h, w).

Notation "x <- m ;; k" := (bind m (fun x => k))
  (at level 20, m at level 99, k at level 200, only parsing).
Notation "' pat <- m ;; k" := (bind m (fun x => match x with pat => k end))
  (at level 20, pat pattern, m at level 99, k at level 200, only parsing).
Notation "m ;; k" := (bind m (fun _ => k))
  (at level 100, k at level 200, only parsing, right associativity).

(** [timespec_now]: the clock of the platform. *)
Definition timespec_now : M timespec := call clock_gettime.

(** *** reconfigurePort *)

(** "set up raw mode / no echo / binary" *)
Definition raw_mode (options : termios) : termios :=
  let options := set_c_cflag (flag_or (c_cflag options) (Z.lor CLOCAL CREAD)) options in
  let options :=
    set_c_lflag
      (flag_andnot (c_lflag options)
         (Z.lor ICANON (Z.lor ECHO (Z.lor ECHOE (Z.lor ECHOK
            (Z.lor ECHONL (Z.lor ISIG IEXTEN)))))))
      options in
  let options := set_c_oflag (flag_andnot (c_oflag options) OPOST) options in
  let options :=
    set_c_iflag
      (flag_andnot (c_iflag options) (Z.lor INLCR (Z.lor IGNCR (Z.lor ICRNL IGNBRK))))
      options in
  let options :=
    match IUCLC with
    | Some m => set_c_iflag (flag_andnot (c_iflag options) m) options
    | None => options
    end in
  match PARMRK with
  | Some m => set_c_iflag (flag_andnot (c_iflag options) m) options
  | None => options
  end.

(** The arm of [switch (baudrate_)] that is taken, if one is. *)
Definition standard_baud (baudrate : Z) : option Z :=
  if existsb (Z.eqb baudrate) baud_cases then B baudrate else None.

(** [a / b] on two [int]s has a value: the divisor is not 0, and the
    quotient is not that of the least [int] by -1, which no [int] holds. *)
Definition int_quot_defined (a b : Z) : bool :=
  negb (b =? 0) && negb ((a =? - 2 ^ 31) && (b =? -1)).

(** The [default:] arm, as the build selects it.  In the arm of Linux the
    rate is cast to [int] and divides the base rate of the driver: a rate
    that is a multiple of 2^32 makes the divisor 0. *)
Definition set_custom_baud (fd baudrate : Z) : M unit :=
  match custom_baud with
  | custom_baud_IOSSIOSPEED =>
      let new_baud := to_size_t baudrate in
      r <- call (ioctl_IOSSIOSPEED fd new_baud) ;;
      if r <? 0 then e <- get_errno ;; throw (IOException_errno e) else ret tt
  | custom_baud_TIOCSSERIAL =>
      '(_, ser) <- call (ioctl_TIOCGSERIAL fd) ;;
      if negb (int_quot_defined (ser_baud_base ser) (to_int baudrate)) then undefined
      else
      let divisor := to_int (Z.quot (ser_baud_base ser) (to_int baudrate)) in
      let flags := to_int (Z.land (ser_flags ser) (Z.lnot ASYNC_SPD_MASK)) in
      let flags := to_int (Z.lor flags ASYNC_SPD_CUST) in
      let ser := mk_serial_struct flags divisor (ser_baud_base ser) in
      r <- call (ioctl_TIOCSSERIAL fd ser) ;;
      if r <? 0 then e <- get_errno ;; throw (IOException_errno e) else ret tt
  | custom_baud_unsupported =>
      throw (invalid_argument "OS does not currently support custom bauds")
  end.

Definition set_speed (options : termios) (baud : Z) : termios :=
  if BSD_SOURCE then cfsetspeed options baud
  else cfsetospeed (cfsetispeed options baud) baud.

(** "setup char len", "setup stopbits", "setup parity": [None] where the
    source throws. *)
Definition char_len (bytesize : bytesize_t) (options : termios) : option termios :=
  let options := set_c_cflag (flag_andnot (c_cflag options) CSIZE) options in
  match bytesize with
  | eightbits => Some (set_c_cflag (flag_or (c_cflag options) CS8) options)
  | sevenbits => Some (set_c_cflag (flag_or (c_cflag options) CS7) options)
  | sixbits => Some (set_c_cflag (flag_or (c_cflag options) CS6) options)
  | fivebits => Some (set_c_cflag (flag_or (c_cflag options) CS5) options)
  | bytesize_out_of_enum => None
  end.

Definition stop_bits (stopbits : stopbits_t) (options : termios) : option termios :=
  match stopbits with
  | stopbits_one => Some (set_c_cflag (flag_andnot (c_cflag options) CSTOPB) options)
  | stopbits_one_point_five => Some (set_c_cflag (flag_or (c_cflag options) CSTOPB) options)
  | stopbits_two => Some (set_c_cflag (flag_or (c_cflag options) CSTOPB) options)
  | stopbits_out_of_enum => None
  end.

Definition parity_bits (parity : parity_t) (options : termios) : option termios :=
  let options := set_c_iflag (flag_andnot (c_iflag options) (Z.lor INPCK ISTRIP)) options in
  match parity with
  | parity_none =>
      Some (set_c_cflag (flag_andnot (c_cflag options) (Z.lor PARENB PARODD)) options)
  | parity_even =>
      let options := set_c_cflag (flag_andnot (c_cflag options) PARODD) options in
      Some (set_c_cflag (flag_or (c_cflag options) PARENB) options)
  | parity_odd =>
      Some (set_c_cflag (flag_or (c_cflag options) (Z.lor PARENB PARODD)) options)
  | parity_mark | parity_space | parity_out_of_enum => None
  end.

(** "setup flow control": three independent tests of [flowcontrol_]. *)
Definition resolve_flowcontrol : M unit :=
  flowcontrol <- member flowcontrol_ ;;
  (match flowcontrol with
   | flowcontrol_none => assign (set_xonxoff_ false) ;; assign (set_rtscts_ false)
   | _ => ret tt
   end) ;;
  (match flowcontrol with
   | flowcontrol_software => assign (set_xonxoff_ true) ;; assign (set_rtscts_ false)
   | _ => ret tt
   end) ;;
  (match flowcontrol with
   | flowcontrol_hardware => assign (set_xonxoff_ false) ;; assign (set_rtscts_ true)
   | _ => ret tt
   end).

(** "xonxoff" and "rtscts" *)
Definition flow_bits (xonxoff rtscts : bool) (options : termios) : termios :=
  let options :=
    if xonxoff
    then set_c_iflag (flag_or (c_iflag options) (Z.lor IXON IXOFF)) options
    else set_c_iflag
           (flag_andnot (c_iflag options) (Z.lor IXON (Z.lor IXOFF (opt_bits IXANY))))
           options in
  if rtscts
  then set_c_cflag (flag_or (c_cflag options) CRTSCTS) options
  else set_c_cflag (flag_andnot (c_cflag options) CRTSCTS) options.

(** [c_cc[VMIN] = 0; c_cc[VTIME] = 0]: both indices lie inside the
    array, whose length the platform fixes. *)
Definition polling_read (options : termios) : termios :=
  set_c_cc (<[VTIME := 0]> (<[VMIN := 0]> (c_cc options))) options.

Definition or_throw {A} (o : option A) (e : exn) : M A :=
  match o with Some a => ret a | None => throw e end.

Definition reconfigurePort : M unit :=
  fd <- member fd_ ;;
  if fd =? -1 then
    throw (IOException_what "Invalid file descriptor, is the serial port open?")
  else
  '(r, options) <- call (tcgetattr fd) ;;
  if r =? -1 then throw (IOException_what "::tcgetattr") else
  let options := raw_mode options in
  baudrate <- member baudrate_ ;;
  options <- (match standard_baud baudrate with
              | Some baud => ret (set_speed options baud)
              | None => set_custom_baud fd baudrate ;; ret options
              end) ;;
  bytesize <- member bytesize_ ;;
  options <- or_throw (char_len bytesize options) (invalid_argument "invalid char len") ;;
  stopbits <- member stopbits_ ;;
  options <- or_throw (stop_bits stopbits options) (invalid_argument "invalid stop bit") ;;
  parity <- member parity_ ;;
  options <- or_throw (parity_bits parity options) (invalid_argument "invalid parity") ;;
  resolve_flowcontrol ;;
  xonxoff <- member xonxoff_ ;;
  rtscts <- member rtscts_ ;;
  let options := polling_read (flow_bits xonxoff rtscts options) in
  call (tcsetattr fd options) ;;
  ret tt.

(** *** open, close, isOpen *)

(** [open] calls itself when [::open] was interrupted; [fuel] bounds the
    depth of that recursion. *)
Fixpoint open (fuel : nat) : M unit :=
  match fuel with
  | O => out_of_fuel
  | S fuel' =>
      port <- member port_ ;;
      if empty port then throw (invalid_argument "Empty port is invalid.") else
      is_open <- member is_open_ ;;
      if is_open then throw (SerialException "Serial port already open.") else
      fd <- call (sys_open port) ;;
      assign (set_fd_ fd) ;;
      (if fd =? -1 then
         e <- get_errno ;;
         if e =? EINTR then open fuel'
         else if (e =? ENFILE) || (e =? EMFILE)
         then throw (IOException_what "Too many file handles open.")
         else throw (IOException_errno e)
       else
         reconfigurePort ;;
         assign (set_is_open_ true))
  end.

Definition close : M unit :=
  is_open <- member is_open_ ;;
  if is_open then
    fd <- member fd_ ;;
    (if negb (fd =? -1) then
       call (sys_close fd) ;;
       assign (set_fd_ (-1))
     else ret tt) ;;
    assign (set_is_open_ false)
  else ret tt.

Definition isOpen : M bool := member is_open_.

(** *** available, read, write *)

Definition available : M Z :=
  is_open <- member is_open_ ;;
  if negb is_open then ret 0 else
  fd <- member fd_ ;;
  '(result, count) <- call (ioctl_TIOCINQ fd) ;;
  if result =? 0 then ret (to_size_t count)
  else e <- get_errno ;; throw (IOException_errno e).

Definition no_data_read : exn :=
  SerialException
    "device reports readiness to read but returned no data (device disconnected?)".

(** [timeout_endtime] of [read]: the overall expiry point. *)
Definition read_endtime (h : SerialImpl) (now : timespec) (size : Z) : timespec :=
  operator_plus (operator_plus now (read_timeout_constant_ h))
                (operator_times (read_timeout_multiplier_ h) size).

(** The [timeout] handed to [pselect] by [read]. *)
Definition read_wait (h : SerialImpl) (timeout_endtime now : timespec) : timespec :=
  let timeout_remaining := operator_minus timeout_endtime now in
  min timeout_remaining (inter_byte_timeout_ h).

(** [while (bytes_read < size) { ... }] of [read]; [fuel] bounds the
    number of passes. *)
Fixpoint read_loop (fuel : nat) (timeout_endtime : timespec) (size bytes_read : Z)
  : M Z :=
  if negb (bytes_read <? size) then ret bytes_read else
  match fuel with
  | O => out_of_fuel
  | S fuel' =>
      now <- timespec_now ;;
      h <- member id ;;
      let timeout := read_wait h timeout_endtime now in
      fd <- member fd_ ;;
      '(r, fd_isset) <- call (pselect_read fd timeout) ;;
      if r <? 0 then
        e <- get_errno ;;
        if e =? EINTR then read_loop fuel' timeout_endtime size bytes_read
        else throw (IOException_errno e)
      else if r =? 0 then ret bytes_read
      else if fd_isset then
        bytes_read_now <- call (sys_read fd (size - bytes_read)) ;;
        if bytes_read_now <? 1 then throw no_data_read else
        let bytes_read := to_size_t (bytes_read + to_size_t bytes_read_now) in
        if bytes_read =? size then ret bytes_read
        else if bytes_read <? size
        then read_loop fuel' timeout_endtime size bytes_read
        else throw (SerialException
               "read over read, too many bytes where read, this shouldn't happen, might be a logical error!")
      else throw (IOException_what
             "pselect reports ready to read, but our fd isn't in the list, this shouldn't happen!")
  end.

Definition read (fuel : nat) (size : Z) : M Z :=
  is_open <- member is_open_ ;;
  if negb is_open then throw (PortNotOpenedException "Serial::read") else
  now <- timespec_now ;;
  h <- member id ;;
  let timeout_endtime := read_endtime h now size in
  avail <- available ;;
  bytes_read <-
    (if 0 <? avail then
       fd <- member fd_ ;;
       bytes_read_now <- call (sys_read fd size) ;;
       if bytes_read_now <? 1 then throw no_data_read
       else ret (to_size_t (0 + to_size_t bytes_read_now))
     else ret 0) ;;
  read_loop fuel timeout_endtime size bytes_read.

Definition no_data_written : exn :=
  SerialException
    "device reports readiness to write but returned no data (device disconnected?)".

Definition write_endtime (h : SerialImpl) (now : timespec) (length : Z) : timespec :=
  operator_plus (operator_plus now (write_timeout_constant_ h))
                (operator_times (write_timeout_multiplier_ h) length).

(** [while (bytes_written < length) { ... }] of [write]. *)
Fixpoint write_loop (fuel : nat) (timeout_endtime : timespec) (length bytes_written : Z)
  : M Z :=
  if negb (bytes_written <? length) then ret bytes_written else
  match fuel with
  | O => out_of_fuel
  | S fuel' =>
      now <- timespec_now ;;
      let timeout_remaining := operator_minus timeout_endtime now in
      fd <- member fd_ ;;
      '(r, fd_isset) <- call (pselect_write fd timeout_remaining) ;;
      if r <? 0 then
        e <- get_errno ;;
        if e =? EINTR then write_loop fuel' timeout_endtime length bytes_written
        else throw (IOException_errno e)
      else if r =? 0 then ret bytes_written
      else if fd_isset then
        bytes_written_now <- call (sys_write fd (length - bytes_written)) ;;
        if bytes_written_now <? 1 then throw no_data_written else
        let bytes_written := to_size_t (bytes_written + to_size_t bytes_written_now) in
        if bytes_written =? length then ret bytes_written
        else if bytes_written <? length
        then write_loop fuel' timeout_endtime length bytes_written
        else throw (SerialException
               "write over wrote, too many bytes where written, this shouldn't happen, might be a logical error!")
      else throw (IOException_what
             "select reports ready to write, but our fd isn't in the list, this shouldn't happen!")
  end.

Definition write (fuel : nat) (length : Z) : M Z :=
  is_open <- member is_open_ ;;
  if negb is_open then throw (PortNotOpenedException "Serial::write") else
  now <- timespec_now ;;
  h <- member id ;;
  let timeout_endtime := write_endtime h now length in
  write_loop fuel timeout_endtime length 0.

(** *** The accessors *)

Definition setPort (port : string) : M unit := assign (set_port_ port).
Definition getPort : M string := member port_.

Definition setTimeout (timeout : Timeout) : M unit :=
  assign (set_timeout_ timeout) ;;
  assign (set_inter_byte_timeout_ (timespec_from_millis (inter_byte_timeout timeout))) ;;
  assign (set_read_timeout_constant_
            (timespec_from_millis (read_timeout_constant timeout))) ;;
  assign (set_read_timeout_multiplier_
            (timespec_from_millis (read_timeout_constant timeout))) ;;
  assign (set_write_timeout_constant_
            (timespec_from_millis (write_timeout_constant timeout))) ;;
  assign (set_write_timeout_multiplier_
            (timespec_from_millis (write_timeout_multiplier timeout))).

Definition getTimeout : M Timeout := member timeout_.

Definition reconfigure_if_open : M unit :=
  is_open <- member is_open_ ;;
  if is_open then reconfigurePort else ret tt.

Definition setBaudrate (baudrate : Z) : M unit :=
  assign (set_baudrate_ baudrate) ;; reconfigure_if_open.
Definition getBaudrate : M Z := member baudrate_.

Definition setBytesize (bytesize : bytesize_t) : M unit :=
  assign (set_bytesize_ bytesize) ;; reconfigure_if_open.
Definition getBytesize : M bytesize_t := member bytesize_.

Definition setParity (parity : parity_t) : M unit :=
  assign (set_parity_ parity) ;; reconfigure_if_open.
Definition getParity : M parity_t := member parity_.

Definition setStopbits (stopbits : stopbits_t) : M unit :=
  assign (set_stopbits_ stopbits) ;; reconfigure_if_open.
Definition getStopbits : M stopbits_t := member stopbits_.

Definition setFlowcontrol (flowcontrol : flowcontrol_t) : M unit :=
  assign (set_flowcontrol_ flowcontrol) ;; reconfigure_if_open.
Definition getFlowcontrol : M flowcontrol_t := member flowcontrol_.

(** *** Construction and destruction *)

(** The member initializers of the constructor.  The five cached
    timespecs have no initializer; [setTimeout] assigns them before
    anything reads them. *)
Definition initial (port : string) (baudrate : Z) (bytesize : bytesize_t)
    (parity : parity_t) (stopbits : stopbits_t) (flowcontrol : flowcontrol_t)
  : SerialImpl :=
  let unset := mk_timespec 0 0 in
  mk_SerialImpl port (-1) false false false zero_timeout
    unset unset unset unset unset
    baudrate parity bytesize stopbits flowcontrol.

(** The body of the constructor. *)
Definition SerialImpl_ctor (fuel : nat) : M unit :=
  setTimeout zero_timeout ;;
  port <- member port_ ;;
  if negb (empty port) then open fuel else ret tt.

Definition construct (fuel : nat) (port : string) (baudrate : Z)
    (bytesize : bytesize_t) (parity : parity_t) (stopbits : stopbits_t)
    (flowcontrol : flowcontrol_t) (w : W) : outcome unit * SerialImpl * W :=
  SerialImpl_ctor fuel (initial port baudrate bytesize parity stopbits flowcontrol) w.

(** The destructor, the mutexes apart. *)
Definition SerialImpl_dtor : M unit := close.

(** *** The states a handle can be in *)

Definition perform (op : operation) : M unit :=
  match op with
  | Call_open fuel => open fuel
  | Call_close => close
  | Call_reconfigurePort => reconfigurePort
  | Call_setPort port => setPort port
  | Call_setTimeout timeout => setTimeout timeout
  | Call_setBaudrate baudrate => setBaudrate baudrate
  | Call_setBytesize bytesize => setBytesize bytesize
  | Call_setParity parity => setParity parity
  | Call_setStopbits stopbits => setStopbits stopbits
  | Call_setFlowcontrol flowcontrol => setFlowcontrol flowcontrol
  | Call_read fuel size => read fuel size ;; ret tt
  | Call_write fuel length => write fuel length ;; ret tt
  end.

(** A handle is reachable when a constructor call returned it, or when a
    member function was called on a reachable handle, in whatever world and
    whether that call returned or threw. *)
Inductive reachable : SerialImpl -> Prop :=
| reachable_constructed fuel port baudrate bytesize parity stopbits flowcontrol w h w' :
    construct fuel port baudrate bytesize parity stopbits flowcontrol w
    = (Returns tt, h, w') ->
    reachable h
| reachable_performed op h w o h' w' :
    reachable h ->
    perform op h w = (o, h', w') ->
    reachable h'.

End Members.

(** ** A platform and a device to run the model on *)

(** The macros as Linux's headers define them (asm-generic/termbits.h,
    asm-generic/errno-base.h, linux/tty_flags.h). *)
Definition linux_B (baudrate : Z) : option Z :=
  match baudrate with
  | 0 => Some 0 | 50 => Some 1 | 75 => Some 2 | 110 => Some 3 | 134 => Some 4
  | 150 => Some 5 | 200 => Some 6 | 300 => Some 7 | 600 => Some 8
  | 1200 => Some 9 | 1800 => Some 10 | 2400 => Some 11 | 4800 => Some 12
  | 9600 => Some 13 | 19200 => Some 14 | 38400 => Some 15
  | 57600 => Some 4097 | 115200 => Some 4098 | 230400 => Some 4099
  | 460800 => Some 4100 | 921600 => Some 4103 | 1000000 => Some 4104
  | 1152000 => Some 4105 | 1500000 => Some 4106 | 2000000 => Some 4107
  | 2500000 => Some 4108 | 3000000 => Some 4109 | 3500000 => Some 4110
  | 4000000 => Some 4111
  | _ => None
  end.

Definition linux : Platform := {|
  EINTR := 4; ENFILE := 23; EMFILE := 24;
  CLOCAL := 2048; CREAD := 128;
  ICANON := 2; ECHO := 8; ECHOE := 16; ECHOK := 32; ECHONL := 64; ISIG := 1;
  IEXTEN := 32768;
  OPOST := 1;
  INLCR := 64; IGNCR := 128; ICRNL := 256; IGNBRK := 1;
  IUCLC := Some 512; PARMRK := Some 8;
  B := linux_B;
  custom_baud := custom_baud_TIOCSSERIAL;
  BSD_SOURCE := false;
  ASYNC_SPD_MASK := 4144; ASYNC_SPD_CUST := 48;
  CSIZE := 48; CS5 := 0; CS6 := 16; CS7 := 32; CS8 := 48;
  CSTOPB := 64;
  INPCK := 16; ISTRIP := 32;
  PARENB := 256; PARODD := 512;
  IXON := 1024; IXOFF := 4096; IXANY := Some 2048;
  CRTSCTS := 2147483648;
  VMIN := 6; VTIME := 5
|}.

(** A simulated serial line: one device file, a clock that every system
    call advances, bytes that reach the input queue at given instants, and
    a record of the calls made. *)
Module Sim.

Inductive syscall : Type :=
| Clock_gettime
| Open (path : string)
| Close (fd : Z)
| Tcgetattr (fd : Z)
| Tcsetattr (fd : Z) (options : termios)
| Ioctl (fd : Z)
| Read (fd count : Z)
| Write (fd count : Z)
| Pselect_read (fd : Z) (timeout : timespec)
| Pselect_write (fd : Z) (timeout : timespec).

Record tty : Type := mk_tty {
  device : string;           (* the path of the device file *)
  clock : Z;                 (* nanoseconds since the epoch *)
  cost : Z;                  (* nanoseconds every call takes *)
  last_errno : Z;
  queued : Z;                (* bytes in the input queue *)
  arrivals : list (Z * Z);   (* instant and size of the bytes to come *)
  attrs : termios;
  trace : list syscall       (* the calls made, latest first *)
}.

Definition ENOENT : Z := 2.
Definition EINVAL : Z := 22.
Definition ENOTTY : Z := 25.

(** The bytes due by [now] join the queue. *)
Fixpoint deliver (now : Z) (coming : list (Z * Z)) (inq : Z) : Z * list (Z * Z) :=
  match coming with
  | (t, n) :: rest => if t <=? now then deliver now rest (inq + n) else (inq, coming)
  | [] => (inq, [])
  end.

(** The clock moves to [now]. *)
Definition at_time (now : Z) (w : tty) : tty :=
  let (inq, coming) := deliver now (arrivals w) (queued w) in
  mk_tty (device w) now (cost w) (last_errno w) inq coming (attrs w) (trace w).

(** Entry into a system call. *)
Definition enter (c : syscall) (w : tty) : tty :=
  let w := at_time (clock w + cost w) w in
  mk_tty (device w) (clock w) (cost w) (last_errno w) (queued w) (arrivals w)
    (attrs w) (c :: trace w).

Definition fail (e : Z) (w : tty) : tty :=
  mk_tty (device w) (clock w) (cost w) e (queued w) (arrivals w) (attrs w) (trace w).

Definition take (n : Z) (w : tty) : tty :=
  mk_tty (device w) (clock w) (cost w) (last_errno w) (queued w - n) (arrivals w)
    (attrs w) (trace w).

Definition store (o : termios) (w : tty) : tty :=
  mk_tty (device w) (clock w) (cost w) (last_errno w) (queued w) (arrivals w)
    o (trace w).

Definition valid_timeout (t : timespec) : bool :=
  (0 <=? tv_sec t) && (0 <=? tv_nsec t) && (tv_nsec t <? 1000000000).

(** [pselect] on the input side: an invalid timeout is refused, queued
    bytes make the descriptor ready at once, and otherwise the call
    sleeps until the next bytes arrive or the timeout has passed. *)
Definition pselect_in (fd : Z) (timeout : timespec) (w : tty) : (Z * bool) * tty :=
  let w := enter (Pselect_read fd timeout) w in
  if negb (valid_timeout timeout) then ((-1, false), fail EINVAL w)
  else if 0 <? queued w then ((1, true), w)
  else
    let limit := clock w + total_ns timeout in
    match arrivals w with
    | (t, _) :: _ =>
        if t <=? limit then ((1, true), at_time t w)
        else ((0, false), at_time limit w)
    | [] => ((0, false), at_time limit w)
    end.

(** The output side is always ready. *)
Definition pselect_out (fd : Z) (timeout : timespec) (w : tty) : (Z * bool) * tty :=
  let w := enter (Pselect_write fd timeout) w in
  if negb (valid_timeout timeout) then ((-1, false), fail EINVAL w)
  else ((1, true), w).

Definition posix : Posix tty := {|
  errno := last_errno;
  clock_gettime w :=
    let w := enter Clock_gettime w in
    (mk_timespec (clock w / 1000000000) (clock w mod 1000000000), w);
  sys_open path w :=
    let w := enter (Open path) w in
    if String.eqb path (device w) then (3, w) else (-1, fail ENOENT w);
  sys_close fd w := (0, enter (Close fd) w);
  tcgetattr fd w := let w := enter (Tcgetattr fd) w in ((0, attrs w), w);
  tcsetattr fd o w := (0, store o (enter (Tcsetattr fd o) w));
  cfsetspeed o baud :=
    mk_termios (c_iflag o) (c_oflag o) (c_cflag o) (c_lflag o) (c_cc o) baud baud;
  cfsetispeed o baud :=
    mk_termios (c_iflag o) (c_oflag o) (c_cflag o) (c_lflag o) (c_cc o) baud (c_ospeed o);
  cfsetospeed o baud :=
    mk_termios (c_iflag o) (c_oflag o) (c_cflag o) (c_lflag o) (c_cc o) (c_ispeed o) baud;
  ioctl_IOSSIOSPEED fd baud w := (-1, fail ENOTTY (enter (Ioctl fd) w));
  ioctl_TIOCGSERIAL fd w := ((0, mk_serial_struct 0 0 24000000), enter (Ioctl fd) w);
  ioctl_TIOCSSERIAL fd ser w := (0, enter (Ioctl fd) w);
  ioctl_TIOCINQ fd w := let w := enter (Ioctl fd) w in ((0, queued w), w);
  sys_read fd count w :=
    let w := enter (Read fd count) w in
    let n := Z.min count (queued w) in
    (n, take n w);
  sys_write fd count w := (count, enter (Write fd count) w);
  pselect_read := pselect_in;
  pselect_write := pselect_out
|}.

(** A cooked line at 9600 baud, as a terminal driver sets one up. *)
Definition cooked : termios :=
  mk_termios 1280 5 3261 35387 (repeat 0 32) 13 13.

(** The device [/dev/ttyS0] at instant [start], with the given cost of a
    call and the given bytes to come. *)
Definition boot (start cost : Z) (coming : list (Z * Z)) : tty :=
  mk_tty "/dev/ttyS0" start cost 0 0 coming cooked [].

End Sim.

(** Runs of the model on the simulated line. *)
Module Scenario.

(** A run starts 1000 s after the epoch, and a call takes a microsecond. *)
Definition start : Z := 1000000000000.
Definition call_cost : Z := 1000.

(** What a constructor call with the device's name yields on a line that
    will deliver the bytes [coming]. *)
Definition constructed (coming : list (Z * Z)) : outcome unit * SerialImpl * Sim.tty :=
  construct (P := linux) (os := Sim.posix) 1 "/dev/ttyS0" 9600 eightbits parity_none
    stopbits_one flowcontrol_hardware (Sim.boot start call_cost coming).

(** The next call on the handle and the world a run has reached. *)
Definition and_then {A B} (run : outcome A * SerialImpl * Sim.tty)
    (m : SerialImpl -> Sim.tty -> outcome B * SerialImpl * Sim.tty)
  : outcome B * SerialImpl * Sim.tty :=
  m (snd (fst run)) (snd run).

Definition handle {A} (run : outcome A * SerialImpl * Sim.tty) : SerialImpl :=
  snd (fst run).
Definition world {A} (run : outcome A * SerialImpl * Sim.tty) : Sim.tty := snd run.
Definition result {A} (run : outcome A * SerialImpl * Sim.tty) : outcome A :=
  fst (fst run).

Definition sim_read (fuel : nat) (size : Z) :=
  read (P := linux) (os := Sim.posix) fuel size.
Definition sim_write (fuel : nat) (length : Z) :=
  write (P := linux) (os := Sim.posix) fuel length.

Definition sim_setTimeout (timeout : Timeout) :=
  setTimeout (W := Sim.tty) timeout.

(** A line on which nothing arrives, opened by the constructor. *)
Definition idle := constructed [].

(** The same with a constant of 50 ms for reads and an inter-byte limit of
    10 s. *)
Definition idle_50ms := and_then idle (sim_setTimeout (mk_Timeout 10000 50 0 0 0)).


(** A byte arrives 6.5 microseconds after the start, between the fifth and
    the sixth call; same profile. *)
Definition early_byte :=
  and_then (constructed [(start + 6500, 1)])
    (sim_setTimeout (mk_Timeout 0 1000 0 0 0)).

(** A byte arrives half a second after the start; the profile allows a
    second per byte and an idle gap of 10 s. *)
Definition one_byte :=
  and_then (constructed [(start + 500000000, 1)])
    (sim_setTimeout (mk_Timeout 10000 1000 0 0 0)).

(** The idle line after a switch to software flow control. *)
Definition software :=
  and_then idle (setFlowcontrol (P := linux) (os := Sim.posix) flowcontrol_software).

End Scenario.

(** * Properties *)

(** ** Duration arithmetic *)

Lemma borrow_step_exact ts :
  fits_double (tv_nsec ts) -> tv_nsec ts < 0 -> in_long (tv_sec ts - 1) ->
  borrow_step ts = mk_timespec (tv_sec ts - 1) (tv_nsec ts + 1000000000).
Proof.
  unfold fits_double, in_long, borrow_step, long_of_double, fadd, double_of_long, d1e9.
  intros Hd Hn Hs. rewrite (round53_exact (tv_nsec ts)) by lia.
  rewrite round53_exact by lia. rewrite !to_long_id by lia. reflexivity.
Qed.

Lemma carry_step_exact ts :
  fits_double (tv_nsec ts) -> 1000000000 <= tv_nsec ts -> in_long (tv_sec ts + 1) ->
  carry_step ts = mk_timespec (tv_sec ts + 1) (tv_nsec ts - 1000000000).
Proof.
  unfold fits_double, in_long, carry_step, long_of_double, fsub, double_of_long, d1e9.
  intros Hd Hn Hs. rewrite (round53_exact (tv_nsec ts)) by lia.
  rewrite round53_exact by lia. rewrite !to_long_id by lia. reflexivity.
Qed.

Lemma normalize_borrow_neg ts :
  tv_nsec ts < 0 -> normalize_borrow ts = normalize_borrow (borrow_step ts).
Proof.
  intros H. rewrite normalize_borrow_equation_1 at 1.
  destruct (Z_lt_dec (tv_nsec ts) 0); [reflexivity|lia].
Qed.

Lemma normalize_borrow_nonneg ts : 0 <= tv_nsec ts -> normalize_borrow ts = ts.
Proof.
  intros H. rewrite normalize_borrow_equation_1.
  destruct (Z_lt_dec (tv_nsec ts) 0); [lia|reflexivity].
Qed.

Lemma normalize_carry_ge ts :
  d1e9 <= double_of_long (tv_nsec ts) ->
  normalize_carry ts = normalize_carry (carry_step ts).
Proof.
  intros H. rewrite normalize_carry_equation_1 at 1.
  destruct (Z_le_dec d1e9 (double_of_long (tv_nsec ts))); [reflexivity|lia].
Qed.

Lemma normalize_carry_lt ts :
  double_of_long (tv_nsec ts) < d1e9 -> normalize_carry ts = ts.
Proof.
  intros H. rewrite normalize_carry_equation_1.
  destruct (Z_le_dec d1e9 (double_of_long (tv_nsec ts))); [lia|reflexivity].
Qed.

(** After at most [k] borrows the first loop has added the whole seconds
    that a negative [tv_nsec] owes. *)
Lemma normalize_borrow_closed (k : nat) : forall s ns,
  - Z.of_nat k * 1000000000 <= ns -> ns <= 2 ^ 53 -> - 2 ^ 53 <= ns ->
  in_long s -> in_long (s + ns / 1000000000) ->
  normalize_borrow (mk_timespec s ns) =
  if ns <? 0 then mk_timespec (s + ns / 1000000000) (ns mod 1000000000)
  else mk_timespec s ns.
Proof.
  induction k as [|k IH]; intros s ns Hk Hhi Hlo Hs Hr.
  - rewrite normalize_borrow_nonneg by (simpl; lia).
    destruct (Z.ltb_spec ns 0); [lia|reflexivity].
  - destruct (Z.ltb_spec ns 0) as [Hneg|Hpos].
    + assert (Hq : ns / 1000000000 <= -1).
      { apply Z.lt_succ_r. apply Z.div_lt_upper_bound; lia. }
      unfold in_long in *.
      rewrite normalize_borrow_neg by (simpl; lia).
      rewrite borrow_step_exact by (unfold fits_double, in_long; simpl; lia).
      simpl tv_sec; simpl tv_nsec.
      assert (Hd : (ns + 1000000000) / 1000000000 = ns / 1000000000 + 1).
      { replace (ns + 1000000000) with (ns + 1 * 1000000000) by lia.
        rewrite Z.div_add by lia. reflexivity. }
      assert (Hm : (ns + 1000000000) mod 1000000000 = ns mod 1000000000).
      { replace (ns + 1000000000) with (ns + 1 * 1000000000) by lia.
        rewrite Z.mod_add by lia. reflexivity. }
      rewrite IH by (unfold in_long; lia).
      destruct (Z.ltb_spec (ns + 1000000000) 0) as [H1|H1].
      * rewrite Hd, Hm. f_equal. lia.
      * assert (ns / 1000000000 = -1).
        { assert (0 <= (ns + 1000000000) / 1000000000) by (apply Z.div_pos; lia). lia. }
        f_equal; [lia|].
        rewrite <- Hm. rewrite Z.mod_small; lia.
    + apply normalize_borrow_nonneg. simpl. lia.
Qed.

(** The second loop on nanoseconds that the conversion to [double] keeps
    as they are, down to the last pass. *)
Section Carries.

Variable exact : Z -> Prop.
Hypothesis exact_fixed : forall ns, exact ns -> 0 <= ns < 2 ^ 63 /\ round53 ns = ns.
Hypothesis exact_step : forall ns, exact ns -> 1000000000 <= ns -> exact (ns - 1000000000).

Lemma normalize_carry_closed (k : nat) : forall s ns,
  exact ns -> ns < (Z.of_nat k + 1) * 1000000000 ->
  in_long s -> in_long (s + ns / 1000000000) ->
  normalize_carry (mk_timespec s ns) =
  mk_timespec (s + ns / 1000000000) (ns mod 1000000000).
Proof.
  induction k as [|k IH]; intros s ns He Hk Hs Hr;
    destruct (exact_fixed ns He) as [Hns Hfix];
    destruct (Z_lt_le_dec ns 1000000000) as [Hsmall|Hbig]; try lia.
  1, 2: rewrite normalize_carry_lt
          by (unfold double_of_long, d1e9; simpl; rewrite Hfix; lia);
        rewrite Z.div_small, Z.mod_small by lia; f_equal; lia.
  assert (Hd : ns / 1000000000 = (ns - 1000000000) / 1000000000 + 1).
  { replace ns with ((ns - 1000000000) + 1 * 1000000000) at 1 by lia.
    rewrite Z.div_add by lia. reflexivity. }
  assert (Hm : ns mod 1000000000 = (ns - 1000000000) mod 1000000000).
  { replace ns with ((ns - 1000000000) + 1 * 1000000000) at 1 by lia.
    rewrite Z.mod_add by lia. reflexivity. }
  assert (0 <= (ns - 1000000000) / 1000000000) by (apply Z.div_pos; lia).
  pose proof (exact_step ns He Hbig) as He'.
  destruct (exact_fixed _ He') as [Hns' Hfix'].
  unfold in_long in *.
  rewrite normalize_carry_ge
    by (unfold double_of_long, d1e9; simpl; rewrite Hfix; lia).
  assert (Hstep : carry_step (mk_timespec s ns)
                  = mk_timespec (s + 1) (ns - 1000000000)).
  { unfold carry_step, long_of_double, fsub, double_of_long, d1e9. simpl.
    rewrite Hfix, Hfix', !to_long_id by lia. reflexivity. }
  rewrite Hstep, IH by (try assumption; unfold in_long; lia).
  rewrite Hd, Hm. f_equal. lia.
Qed.

Lemma normalize_carry_all s ns :
  exact ns -> in_long s -> in_long (s + ns / 1000000000) ->
  normalize_carry (mk_timespec s ns) =
  mk_timespec (s + ns / 1000000000) (ns mod 1000000000).
Proof.
  intros He Hs Hr. destruct (exact_fixed ns He) as [Hns _].
  apply (normalize_carry_closed (Z.to_nat ns)); try assumption; lia.
Qed.

End Carries.

(** Below 2^53 every count of nanoseconds is exact. *)
Lemma normalize_carry_exact s ns :
  0 <= ns <= 2 ^ 53 -> in_long s -> in_long (s + ns / 1000000000) ->
  normalize_carry (mk_timespec s ns) =
  mk_timespec (s + ns / 1000000000) (ns mod 1000000000).
Proof.
  intros Hns. apply (normalize_carry_all (fun ns => 0 <= ns <= 2 ^ 53)).
  - intros z Hz. split; [lia|apply round53_exact; lia].
  - intros z Hz Hbig. lia.
  - exact Hns.
Qed.

(** Below 2^60 the multiples of 128 are exact, and 1e9 is one of them. *)
Lemma round53_multiple_of_128 z :
  0 <= z < 2 ^ 60 -> z mod 128 = 0 -> round53 z = z.
Proof.
  intros Hz Hm.
  destruct (Z_lt_le_dec z (2 ^ 53)) as [Hsmall|Hbig]; [apply round53_exact; lia|].
  unfold round53. rewrite Z.abs_eq by lia.
  replace (Z.sgn z) with 1 by (destruct z; simpl; lia). rewrite Z.mul_1_l.
  unfold round53_abs. destruct (Z.ltb_spec z (2 ^ 53)); [lia|].
  assert (Hl : 53 <= Z.log2 z <= 59).
  { split.
    - change 53 with (Z.log2 (2 ^ 53)). apply Z.log2_le_mono. lia.
    - apply Z.lt_succ_r. apply Z.log2_lt_pow2; lia. }
  set (e := Z.log2 z - 52). assert (He : 1 <= e <= 7) by (unfold e; lia).
  assert (Hdiv : z mod 2 ^ e = 0).
  { apply Z.mod_divide; [apply Z.pow_nonzero; lia|].
    apply Z.divide_trans with 128.
    - exists (2 ^ (7 - e)). rewrite <- Z.pow_add_r by lia.
      replace (7 - e + e) with 7 by lia. reflexivity.
    - apply Z.mod_divide; [lia|exact Hm]. }
  cbv zeta. rewrite Hdiv.
  assert (0 < 2 ^ (e - 1)) by (apply Z.pow_pos_nonneg; lia).
  destruct (Z.ltb_spec 0 (2 ^ (e - 1))); [|lia].
  pose proof (Z.div_mod z (2 ^ e) ltac:(apply Z.pow_nonzero; lia)). lia.
Qed.

Lemma normalize_carry_exact_128 s ns :
  0 <= ns < 2 ^ 60 -> ns mod 128 = 0 ->
  in_long s -> in_long (s + ns / 1000000000) ->
  normalize_carry (mk_timespec s ns) =
  mk_timespec (s + ns / 1000000000) (ns mod 1000000000).
Proof.
  intros Hns Hm.
  apply (normalize_carry_all (fun ns => 0 <= ns < 2 ^ 60 /\ ns mod 128 = 0)).
  - intros z [Hz Hz']. split; [lia|apply round53_multiple_of_128; assumption].
  - intros z [Hz Hz'] Hbig. split; [lia|].
    replace (z - 1000000000) with (z + (-7812500) * 128) by lia.
    rewrite Z.mod_add by lia. exact Hz'.
  - split; assumption.
Qed.

(** On the range where the double arithmetic is exact and the seconds do
    not overflow, [normalize] is division by 1e9 with remainder. *)
Lemma normalize_closed ts :
  fits_double (tv_nsec ts) -> no_overflow ts ->
  normalize ts =
  mk_timespec (tv_sec ts + tv_nsec ts / 1000000000) (tv_nsec ts mod 1000000000).
Proof.
  destruct ts as [s ns]. unfold fits_double, no_overflow. simpl. intros Hd [Hs Hr].
  unfold normalize.
  pose proof (Z.mod_pos_bound ns 1000000000 ltac:(lia)) as Hm.
  destruct (Z_lt_le_dec ns 0) as [Hneg|Hpos].
  - rewrite (normalize_borrow_closed (Z.to_nat (- ns))) by (try assumption; nia).
    destruct (Z.ltb_spec ns 0); [|lia].
    assert (Hq : ns mod 1000000000 / 1000000000 = 0) by (apply Z.div_small; lia).
    rewrite normalize_carry_exact; try lia; try assumption.
    + rewrite Hq, Z.mod_mod, Z.add_0_r by lia. reflexivity.
    + rewrite Hq, Z.add_0_r. assumption.
  - rewrite normalize_borrow_nonneg by (simpl; lia).
    apply normalize_carry_exact; try assumption; lia.
Qed.

Lemma normalize_sound ts :
  fits_double (tv_nsec ts) -> no_overflow ts ->
  0 <= tv_nsec (normalize ts) < 1000000000 /\ total_ns (normalize ts) = total_ns ts.
Proof.
  intros Hd Ho. rewrite normalize_closed by assumption. unfold total_ns. simpl.
  pose proof (Z.mod_pos_bound (tv_nsec ts) 1000000000 ltac:(lia)).
  pose proof (Z.div_mod (tv_nsec ts) 1000000000 ltac:(lia)). lia.
Qed.

Lemma to_long_of_size_t z : to_long (to_size_t z) = to_long z.
Proof. unfold to_long, to_size_t. rewrite Zplus_mod_idemp_l. reflexivity. Qed.

Lemma to_long_times a b : to_long (to_size_t (to_size_t a * b)) = to_long (a * b).
Proof.
  rewrite to_long_of_size_t. unfold to_long, to_size_t.
  rewrite <- Zplus_mod_idemp_l, Zmult_mod_idemp_l, Zplus_mod_idemp_l. reflexivity.
Qed.

(** Where the helpers are exact.  For every timespec whose [tv_nsec] lies
    within 2^53 of zero, where a [long] converts to [double] exactly, and
    whose seconds do not overflow, [normalize] yields nanoseconds in
    [0, 1e9) and the same total time; the sum, the difference and the
    scaling of timespecs normalize their field-wise result, so under the
    same conditions on that result they agree with exact arithmetic on the
    totals. *)
Theorem normalize_exact_within_double_range :
  (forall ts, fits_double (tv_nsec ts) -> no_overflow ts ->
     0 <= tv_nsec (normalize ts) < 1000000000 /\
     total_ns (normalize ts) = total_ns ts) /\
  (forall a b,
     let raw := mk_timespec (tv_sec a + tv_sec b) (tv_nsec a + tv_nsec b) in
     fits_double (tv_nsec raw) -> no_overflow raw ->
     operator_plus a b = normalize raw /\
     0 <= tv_nsec (operator_plus a b) < 1000000000 /\
     total_ns (operator_plus a b) = total_ns a + total_ns b) /\
  (forall a b,
     let raw := mk_timespec (tv_sec a - tv_sec b) (tv_nsec a - tv_nsec b) in
     fits_double (tv_nsec raw) -> no_overflow raw ->
     operator_minus a b = normalize raw /\
     0 <= tv_nsec (operator_minus a b) < 1000000000 /\
     total_ns (operator_minus a b) = total_ns a - total_ns b) /\
  (forall ts mul,
     let raw := mk_timespec (tv_sec ts * mul) (tv_nsec ts * mul) in
     fits_double (tv_nsec raw) -> no_overflow raw ->
     operator_times ts mul = normalize raw /\
     0 <= tv_nsec (operator_times ts mul) < 1000000000 /\
     total_ns (operator_times ts mul) = total_ns ts * mul).
Proof.
  split; [exact normalize_sound|].
  assert (Hstore : forall s ns, fits_double ns -> no_overflow (mk_timespec s ns) ->
            mk_timespec (to_long s) (to_long ns) = mk_timespec s ns).
  { intros s ns Hd [Hs _]. unfold fits_double, in_long in *. simpl in Hs.
    rewrite !to_long_id by lia. reflexivity. }
  split; [|split]; intros a b raw Hd Ho; subst raw.
  - unfold operator_plus. rewrite Hstore by assumption.
    destruct (normalize_sound _ Hd Ho) as [Hr Ht]. rewrite Ht.
    repeat split; try apply Hr. unfold total_ns. simpl. lia.
  - unfold operator_minus. rewrite Hstore by assumption.
    destruct (normalize_sound _ Hd Ho) as [Hr Ht]. rewrite Ht.
    repeat split; try apply Hr. unfold total_ns. simpl. lia.
  - unfold operator_times. rewrite !to_long_times, Hstore by assumption.
    destruct (normalize_sound _ Hd Ho) as [Hr Ht]. rewrite Ht.
    repeat split; try apply Hr. unfold total_ns. simpl. lia.
Qed.

Ltac in_range :=
  unfold fits_double, no_overflow, in_long; cbn [tv_sec tv_nsec];
  repeat split;
  first [lia | vm_compute; first [reflexivity | intros Hc; discriminate Hc]].

Example normalize_exact_within_double_range_at_work :
  (0 <= tv_nsec (normalize (mk_timespec 5 (-1))) < 1000000000 /\
   total_ns (normalize (mk_timespec 5 (-1))) = total_ns (mk_timespec 5 (-1))) /\
  total_ns (operator_plus (mk_timespec 1 900000000) (mk_timespec 2 200000000))
  = total_ns (mk_timespec 1 900000000) + total_ns (mk_timespec 2 200000000) /\
  total_ns (operator_minus (mk_timespec 1 100000000) (mk_timespec 2 200000000))
  = total_ns (mk_timespec 1 100000000) - total_ns (mk_timespec 2 200000000) /\
  total_ns (operator_times (mk_timespec 0 50000000) 100)
  = total_ns (mk_timespec 0 50000000) * 100.
Proof.
  destruct normalize_exact_within_double_range as (Hn & Hp & Hm & Ht).
  split; [apply (Hn (mk_timespec 5 (-1))); in_range|].
  split; [apply (Hp (mk_timespec 1 900000000) (mk_timespec 2 200000000)); in_range|].
  split; [apply (Hm (mk_timespec 1 100000000) (mk_timespec 2 200000000)); in_range|].
  apply (Ht (mk_timespec 0 50000000) 100); in_range.
Defined.

(** C7.  [normalize] does not keep the total time of every pair: it
    compares [tv_nsec] with the double [1e9] and adds and subtracts that
    double, so [tv_nsec] passes through [double].  Of 2^53 + 1 nanoseconds
    the conversion drops one; and the scaling of 999 ms by 600000001, whose
    nanoseconds (some 5.994e17) fit a [long], comes out 64 ns too long. *)
Theorem normalize_loses_nanoseconds :
  (let ts := mk_timespec 0 9007199254740993 in
   normalize ts = mk_timespec 9007199 254740992 /\
   total_ns (normalize ts) <> total_ns ts) /\
  (let ts := timespec_from_millis 999 in
   ts = mk_timespec 0 999000000 /\
   operator_times ts 600000001 = mk_timespec 599400000 999000064 /\
   total_ns (operator_times ts 600000001) <> total_ns ts * 600000001).
Proof.
  assert (H1 : normalize (mk_timespec 0 9007199254740993)
               = mk_timespec 9007199 254740992).
  { unfold normalize.
    rewrite normalize_borrow_nonneg by (simpl; lia).
    rewrite normalize_carry_ge by (vm_compute; discriminate).
    replace (carry_step (mk_timespec 0 9007199254740993))
      with (mk_timespec 1 9007198254740992) by (vm_compute; reflexivity).
    rewrite normalize_carry_exact by in_range.
    reflexivity. }
  assert (H2 : timespec_from_millis 999 = mk_timespec 0 999000000)
    by (vm_compute; reflexivity).
  assert (H3 : operator_times (mk_timespec 0 999000000) 600000001
               = mk_timespec 599400000 999000064).
  { unfold operator_times, normalize.
    replace (to_long (to_size_t (to_size_t (tv_sec (mk_timespec 0 999000000)) * 600000001)))
      with 0 by (vm_compute; reflexivity).
    replace (to_long (to_size_t (to_size_t (tv_nsec (mk_timespec 0 999000000)) * 600000001)))
      with 599400000999000000 by (vm_compute; reflexivity).
    rewrite normalize_borrow_nonneg by (simpl; lia).
    rewrite normalize_carry_ge by (vm_compute; discriminate).
    replace (carry_step (mk_timespec 0 599400000999000000))
      with (mk_timespec 1 599399999999000064) by (vm_compute; reflexivity).
    rewrite normalize_carry_exact_128 by in_range.
    reflexivity. }
  cbv zeta. rewrite H2, H1, H3.
  repeat split; vm_compute; discriminate.
Qed.

(** ** The handle *)

Section Handle.

Context {P : Platform} {W : Type} {os : Posix W}.

(** A computation that keeps a property of the handle, however it ends. *)
Definition keeps (I : SerialImpl -> Prop) {A} (m : M (W := W) A) : Prop :=
  forall h w, I h -> I (snd (fst (m h w))).

Lemma keeps_ret I A (a : A) : keeps I (ret a).
Proof. intros h w H. exact H. Qed.

Lemma keeps_throw I A e : keeps I (throw (A := A) e).
Proof. intros h w H. exact H. Qed.

Lemma keeps_out_of_fuel I A : keeps I (out_of_fuel (A := A)).
Proof. intros h w H. exact H. Qed.

Lemma keeps_undefined I A : keeps I (undefined (A := A)).
Proof. intros h w H. exact H. Qed.

Lemma keeps_member I A (f : SerialImpl -> A) : keeps I (member f).
Proof. intros h w H. exact H. Qed.

Lemma keeps_call I A (op : W -> A * W) : keeps I (call op).
Proof. intros h w H. unfold call. destruct (op w). exact H. Qed.

Lemma keeps_get_errno I : keeps I get_errno.
Proof. intros h w H. exact H. Qed.

Lemma keeps_assign (I : SerialImpl -> Prop) f :
  (forall h, I h -> I (f h)) -> keeps I (assign f).
Proof. intros Hf h w H. apply Hf, H. Qed.

Lemma keeps_bind I A B0 (m : M A) (k : A -> M B0) :
  keeps I m -> (forall a, keeps I (k a)) -> keeps I (bind m k).
Proof.
  intros Hm Hk h w H. unfold bind. specialize (Hm h w H).
  destruct (m h w) as [[[a|e| |] h'] w']; simpl in *; try exact Hm.
  apply Hk, Hm.
Qed.

Create HintDb keeps.
#[local] Hint Resolve keeps_ret keeps_throw keeps_out_of_fuel keeps_undefined
  keeps_member keeps_call keeps_get_errno : keeps.

Ltac keeps_step :=
  first
    [ solve [auto with keeps]
    | apply keeps_bind; [|intros ?]
    | match goal with
      | |- keeps _ (if ?b then _ else _) => destruct b
      | |- keeps _ (match ?x with _ => _ end) => destruct x
      end ].

(** *** What every member function but [open] and [close] keeps *)

Section Kept.

(** A property that only looks at the descriptor, the open flag and the
    two flow-control booleans, and that the resolution of the flow-control
    mode keeps. *)
Variable I : SerialImpl -> Prop.
Hypothesis I_fields : forall h h',
  fd_ h' = fd_ h -> is_open_ h' = is_open_ h ->
  xonxoff_ h' = xonxoff_ h -> rtscts_ h' = rtscts_ h -> I h -> I h'.
Hypothesis I_resolve : keeps I resolve_flowcontrol.

Ltac other_field :=
  apply keeps_assign; intros ? ?; eapply I_fields; [| | | |eassumption]; reflexivity.

Ltac kept := repeat first [assumption | other_field | keeps_step].

Lemma set_custom_baud_kept fd baudrate : keeps I (set_custom_baud fd baudrate).
Proof. unfold set_custom_baud. kept. Qed.

Lemma reconfigurePort_kept : keeps I reconfigurePort.
Proof.
  pose proof set_custom_baud_kept. unfold reconfigurePort, or_throw. kept.
Qed.

Lemma reconfigure_if_open_kept : keeps I reconfigure_if_open.
Proof. pose proof reconfigurePort_kept. unfold reconfigure_if_open. kept. Qed.

Lemma setTimeout_kept timeout : keeps I (setTimeout timeout).
Proof. unfold setTimeout. kept. Qed.

Lemma available_kept : keeps I available.
Proof. unfold available. kept. Qed.

Lemma read_loop_kept fuel : forall endtime size n,
  keeps I (read_loop fuel endtime size n).
Proof.
  induction fuel as [|fuel IH]; intros; simpl.
  - destruct (negb (n <? size)); auto with keeps.
  - unfold timespec_now. repeat first [apply IH | keeps_step].
Qed.

Lemma write_loop_kept fuel : forall endtime size n,
  keeps I (write_loop fuel endtime size n).
Proof.
  induction fuel as [|fuel IH]; intros; simpl.
  - destruct (negb (n <? size)); auto with keeps.
  - unfold timespec_now. repeat first [apply IH | keeps_step].
Qed.

Lemma perform_kept op :
  match op with
  | Call_open _ | Call_close => True
  | _ => keeps I (perform op)
  end.
Proof.
  pose proof reconfigurePort_kept. pose proof reconfigure_if_open_kept.
  pose proof setTimeout_kept. pose proof available_kept.
  pose proof read_loop_kept. pose proof write_loop_kept.
  destruct op; simpl; auto;
    unfold setPort, setBaudrate, setBytesize, setParity, setStopbits,
      setFlowcontrol, read, write, timespec_now; kept.
Qed.

End Kept.

(** *** Software and hardware flow control exclude each other *)

Definition flow_exclusive (h : SerialImpl) : Prop :=
  xonxoff_ h && rtscts_ h = false.

Lemma flow_exclusive_flags h h' :
  xonxoff_ h' = xonxoff_ h -> rtscts_ h' = rtscts_ h ->
  flow_exclusive h -> flow_exclusive h'.
Proof. unfold flow_exclusive. intros -> ->. exact id. Qed.

Lemma flow_exclusive_fields h h' :
  fd_ h' = fd_ h -> is_open_ h' = is_open_ h ->
  xonxoff_ h' = xonxoff_ h -> rtscts_ h' = rtscts_ h ->
  flow_exclusive h -> flow_exclusive h'.
Proof. intros _ _. apply flow_exclusive_flags. Qed.

Lemma resolve_flowcontrol_exclusive : keeps flow_exclusive resolve_flowcontrol.
Proof.
  intros h w H. unfold flow_exclusive in *.
  unfold resolve_flowcontrol, bind, member, assign, ret.
  destruct (flowcontrol_ h); simpl; try reflexivity; exact H.
Qed.

Ltac flow_field :=
  apply keeps_assign; intros ? ?;
  eapply flow_exclusive_flags; [| |eassumption]; reflexivity.

Lemma open_exclusive fuel : keeps flow_exclusive (open fuel).
Proof.
  pose proof (reconfigurePort_kept _ flow_exclusive_fields resolve_flowcontrol_exclusive).
  induction fuel as [|fuel IH]; simpl; [auto with keeps|].
  repeat first [assumption | flow_field | keeps_step].
Qed.

Lemma close_exclusive : keeps flow_exclusive close.
Proof. unfold close. repeat first [flow_field | keeps_step]. Qed.

Lemma constructed_exclusive fuel port baudrate bytesize parity stopbits flowcontrol w :
  flow_exclusive
    (snd (fst (construct fuel port baudrate bytesize parity stopbits flowcontrol w))).
Proof.
  unfold construct.
  assert (Hk : keeps flow_exclusive (SerialImpl_ctor fuel)).
  { pose proof open_exclusive.
    pose proof (setTimeout_kept _ flow_exclusive_fields).
    unfold SerialImpl_ctor. repeat keeps_step. }
  apply Hk. reflexivity.
Qed.

Lemma perform_exclusive op : keeps flow_exclusive (perform op).
Proof.
  pose proof (perform_kept _ flow_exclusive_fields resolve_flowcontrol_exclusive op)
    as Hop.
  destruct op; try exact Hop; [apply open_exclusive|apply close_exclusive].
Qed.

(** C9.  In every reachable state of a handle, after construction and
    after any sequence of calls of its member functions ([open], the
    setters, [reconfigurePort] and the rest), whether they returned or
    threw, [xonxoff_] and [rtscts_] are not both true. *)
Theorem flow_control_exclusive h :
  reachable h -> xonxoff_ h && rtscts_ h = false.
Proof.
  induction 1 as [fuel port baudrate bytesize parity stopbits flowcontrol w h w' Hc
                 |op h w o h' w' Hr IH Hp].
  - pose proof (constructed_exclusive fuel port baudrate bytesize parity stopbits
                  flowcontrol w) as H.
    rewrite Hc in H. exact H.
  - pose proof (perform_exclusive op h w IH) as H. rewrite Hp in H. exact H.
Qed.

(** *** An open handle holds a descriptor *)

Definition open_has_fd (h : SerialImpl) : Prop :=
  is_open_ h = true -> fd_ h <> -1.

(** The descriptor and the open flag have given values. *)
Definition holds (fd : Z) (is_open : bool) (h : SerialImpl) : Prop :=
  fd_ h = fd /\ is_open_ h = is_open.

Lemma holds_fields fd is_open h h' :
  fd_ h' = fd_ h -> is_open_ h' = is_open_ h ->
  xonxoff_ h' = xonxoff_ h -> rtscts_ h' = rtscts_ h ->
  holds fd is_open h -> holds fd is_open h'.
Proof. unfold holds. intros -> -> _ _. exact id. Qed.

Lemma resolve_flowcontrol_holds fd is_open :
  keeps (holds fd is_open) resolve_flowcontrol.
Proof.
  unfold resolve_flowcontrol.
  repeat first [apply keeps_assign; intros ? ?; assumption | keeps_step].
Qed.

(** A computation that keeps the descriptor and the open flag as they
    are keeps an open handle in possession of a descriptor. *)
Lemma holds_open_has_fd A (m : M A) :
  (forall fd is_open, keeps (holds fd is_open) m) -> keeps open_has_fd m.
Proof.
  intros Hm h w H. destruct (Hm (fd_ h) (is_open_ h) h w) as [Hfd Ho].
  - split; reflexivity.
  - unfold open_has_fd. rewrite Hfd, Ho. exact H.
Qed.

Lemma open_keeps_fd fuel : keeps open_has_fd (open fuel).
Proof.
  induction fuel as [|fuel IH]; intros h w H; [exact H|].
  simpl. unfold bind, member, assign, call, throw, get_errno.
  destruct (empty (port_ h)); [exact H|].
  destruct (is_open_ h) eqn:Ho; [exact H|].
  destruct (sys_open (port_ h) w) as [fd w1].
  destruct (Z.eqb_spec fd (-1)) as [Hfd|Hfd].
  - assert (Hc : open_has_fd (set_fd_ fd h)).
    { unfold open_has_fd. simpl. rewrite Ho. discriminate. }
    destruct (errno w1 =? EINTR); [apply IH, Hc|].
    destruct ((errno w1 =? ENFILE) || (errno w1 =? EMFILE)); exact Hc.
  - pose proof (reconfigurePort_kept _ (holds_fields fd false)
                  (resolve_flowcontrol_holds fd false) (set_fd_ fd h) w1) as Hr.
    destruct (reconfigurePort (set_fd_ fd h) w1) as [[[[]|e| |] h2] w2];
      simpl in *; destruct Hr as [Hr1 Hr2]; try (split; [reflexivity|exact Ho]);
      unfold open_has_fd; simpl; congruence.
Qed.

Lemma close_keeps_fd : keeps open_has_fd close.
Proof.
  intros h w H. unfold close, bind, member, assign, call, ret.
  destruct (is_open_ h) eqn:Ho; [|exact H].
  destruct (negb (fd_ h =? -1)); [destruct (sys_close (fd_ h) w)|];
    unfold open_has_fd; simpl; discriminate.
Qed.

Lemma perform_keeps_fd op : keeps open_has_fd (perform op).
Proof.
  pose proof (fun fd is_open =>
                perform_kept _ (holds_fields fd is_open)
                  (resolve_flowcontrol_holds fd is_open) op) as Hop.
  destruct op; try apply open_keeps_fd; try apply close_keeps_fd;
    apply holds_open_has_fd; exact Hop.
Qed.

Lemma constructed_has_fd fuel port baudrate bytesize parity stopbits flowcontrol w :
  open_has_fd
    (snd (fst (construct fuel port baudrate bytesize parity stopbits flowcontrol w))).
Proof.
  unfold construct.
  assert (Hk : keeps open_has_fd (SerialImpl_ctor fuel)).
  { pose proof open_keeps_fd.
    pose proof (holds_open_has_fd _ _
                  (fun fd is_open => setTimeout_kept _ (holds_fields fd is_open)
                                       zero_timeout)).
    unfold SerialImpl_ctor. repeat keeps_step. }
  apply Hk. intros Ho. discriminate Ho.
Qed.

Lemma reachable_open_has_fd h : reachable h -> open_has_fd h.
Proof.
  induction 1 as [fuel port baudrate bytesize parity stopbits flowcontrol w h w' Hc
                 |op h w o h' w' Hr IH Hp].
  - pose proof (constructed_has_fd fuel port baudrate bytesize parity stopbits
                  flowcontrol w) as H.
    rewrite Hc in H. exact H.
  - pose proof (perform_keeps_fd op h w IH) as H. rewrite Hp in H. exact H.
Qed.

(** *** close and isOpen *)

(** C8.  [close] never throws and leaves [isOpen] false; a second [close]
    right after it changes neither the handle nor the world and does not
    throw either; on a closed handle [close] does nothing at all; and on a
    reachable open handle it closes the descriptor, sets [fd_] to -1 and
    clears the open flag. *)
Theorem close_idempotent :
  (forall h w, exists h' w',
     close h w = (Returns tt, h', w') /\
     isOpen h' w' = (Returns false, h', w') /\
     close h' w' = (Returns tt, h', w')) /\
  (forall h w, is_open_ h = false -> close h w = (Returns tt, h, w)) /\
  (forall h w, reachable h -> is_open_ h = true ->
     close h w
     = (Returns tt, set_is_open_ false (set_fd_ (-1) h), snd (sys_close (fd_ h) w))).
Proof.
  assert (Hclosed : forall h w, is_open_ h = false -> close h w = (Returns tt, h, w)).
  { intros h w Ho. unfold close, bind, member, ret. rewrite Ho. reflexivity. }
  split; [|split; [exact Hclosed|]].
  - intros h w. unfold close at 1. unfold bind, member, assign, call, ret, isOpen.
    destruct (is_open_ h) eqn:Ho.
    + destruct (negb (fd_ h =? -1)); [destruct (sys_close (fd_ h) w) as [r w1]|];
        eexists; eexists; (split; [reflexivity|]);
        (split; [reflexivity|apply Hclosed; reflexivity]).
    + exists h, w. split; [reflexivity|]. split; [|apply Hclosed, Ho].
      unfold member. rewrite Ho. reflexivity.
  - intros h w Hr Ho. pose proof (reachable_open_has_fd h Hr Ho) as Hfd.
    unfold close, bind, member, assign, call, ret. rewrite Ho.
    destruct (Z.eqb_spec (fd_ h) (-1)) as [|_]; [contradiction|].
    simpl. destruct (sys_close (fd_ h) w). reflexivity.
Qed.

(** *** setTimeout and getTimeout *)

(** C10.  [getTimeout] after [setTimeout] returns the profile that was
    passed, whatever the cached timespecs are; neither call throws or
    touches the world. *)
Theorem setTimeout_getTimeout (timeout : Timeout) (h : SerialImpl) (w : W) :
  exists h',
    setTimeout timeout h w = (Returns tt, h', w) /\
    getTimeout h' w = (Returns timeout, h', w).
Proof. eexists. split; reflexivity. Qed.

(** *** The constructor *)

Lemma from_millis_zero : timespec_from_millis 0 = mk_timespec 0 0.
Proof. vm_compute. reflexivity. Qed.

(** C6 (as amended).  The constructor stores the profile fields, with no
    descriptor and the open flag clear, and then calls [open] unless the
    port name is empty: with an empty name it returns a closed handle
    without a system call, with any other name it ends as [open] does on
    that closed handle. *)
Theorem constructor_opens_named_port fuel baudrate bytesize parity stopbits flowcontrol
    (w : W) :
  (exists h,
     construct fuel "" baudrate bytesize parity stopbits flowcontrol w
     = (Returns tt, h, w) /\
     fd_ h = -1 /\ is_open_ h = false /\ port_ h = ""%string /\
     baudrate_ h = baudrate /\ bytesize_ h = bytesize /\ parity_ h = parity /\
     stopbits_ h = stopbits /\ flowcontrol_ h = flowcontrol /\
     timeout_ h = zero_timeout) /\
  (forall port, port <> ""%string ->
     exists h,
       fd_ h = -1 /\ is_open_ h = false /\ port_ h = port /\
       baudrate_ h = baudrate /\ bytesize_ h = bytesize /\ parity_ h = parity /\
       stopbits_ h = stopbits /\ flowcontrol_ h = flowcontrol /\
       timeout_ h = zero_timeout /\
       construct fuel port baudrate bytesize parity stopbits flowcontrol w
       = open fuel h w).
Proof.
  assert (Hstore : forall port,
            setTimeout zero_timeout
              (initial port baudrate bytesize parity stopbits flowcontrol) w
            = (Returns tt,
               initial port baudrate bytesize parity stopbits flowcontrol, w)).
  { intros port. unfold setTimeout. cbv [bind assign]. simpl.
    rewrite from_millis_zero. reflexivity. }
  split.
  - exists (initial "" baudrate bytesize parity stopbits flowcontrol).
    split; [|repeat split].
    unfold construct, SerialImpl_ctor. unfold bind at 1. rewrite Hstore. reflexivity.
  - intros port Hport. destruct port as [|c port]; [contradiction|].
    exists (initial (String c port) baudrate bytesize parity stopbits flowcontrol).
    do 9 (split; [reflexivity|]).
    unfold construct, SerialImpl_ctor. unfold bind at 1. rewrite Hstore. reflexivity.
Qed.

(** *** The setters *)

Lemma reconfigurePort_applies h w h' w' :
  reconfigurePort h w = (Returns tt, h', w') ->
  exists options w1, w' = snd (tcsetattr (fd_ h) options w1).
Proof.
  unfold reconfigurePort, bind, member, call, or_throw, ret, throw.
  destruct (fd_ h =? -1); [discriminate|].
  destruct (tcgetattr (fd_ h) w) as [[r options] w1].
  destruct (r =? -1); [discriminate|].
  destruct (standard_baud (baudrate_ h)).
  2: destruct (set_custom_baud (fd_ h) (baudrate_ h) h w1) as [[[[]|e| |] h1] w2];
     try discriminate.
  all: repeat match goal with
         | |- context [match ?o with Some _ => _ | None => _ end] =>
             destruct o; try discriminate
         end.
  all: match goal with
       | |- context [resolve_flowcontrol ?x ?y] =>
           destruct (resolve_flowcontrol x y) as [[[[]|e| |] h3] w3] eqn:Hres;
           try discriminate
       end.
  all: match goal with
       | |- context [tcsetattr ?fd ?o ?x] =>
           destruct (tcsetattr fd o x) as [r2 w4] eqn:Hset
       end.
  all: intros Heq; inversion Heq; subst; eexists; eexists; rewrite Hset; reflexivity.
Qed.











(** The handle after [setTimeout]. *)
Definition with_timeout (timeout : Timeout) (h : SerialImpl) : SerialImpl :=
  set_write_timeout_multiplier_ (timespec_from_millis (write_timeout_multiplier timeout))
    (set_write_timeout_constant_ (timespec_from_millis (write_timeout_constant timeout))
       (set_read_timeout_multiplier_ (timespec_from_millis (read_timeout_constant timeout))
          (set_read_timeout_constant_
             (timespec_from_millis (read_timeout_constant timeout))
             (set_inter_byte_timeout_
                (timespec_from_millis (inter_byte_timeout timeout))
                (set_timeout_ timeout h))))).




End Handle.

(** ** The transfer loops *)

Section Transfer.

Context {P : Platform} {W : Type} {os : Posix W}.

(** One pass of the loop of [read], in terms of the system calls it makes:
    the clock is read, [pselect] is called with [read_wait], and its answer
    decides. *)
Lemma read_loop_pass fuel endtime size n (h : SerialImpl) (w : W) now w1 r fd_isset w2 :
  n < size ->
  clock_gettime w = (now, w1) ->
  pselect_read (fd_ h) (read_wait h endtime now) w1 = ((r, fd_isset), w2) ->
  read_loop (S fuel) endtime size n h w =
  if r <? 0 then
    if errno w2 =? EINTR then read_loop fuel endtime size n h w2
    else (Throws (IOException_errno (errno w2)), h, w2)
  else if r =? 0 then (Returns n, h, w2)
  else if fd_isset then
    let (k, w3) := sys_read (fd_ h) (size - n) w2 in
    if k <? 1 then (Throws no_data_read, h, w3)
    else
      let n' := to_size_t (n + to_size_t k) in
      if n' =? size then (Returns n', h, w3)
      else if n' <? size then read_loop fuel endtime size n' h w3
      else (Throws (SerialException
              "read over read, too many bytes where read, this shouldn't happen, might be a logical error!"),
            h, w3)
  else (Throws (IOException_what
          "pselect reports ready to read, but our fd isn't in the list, this shouldn't happen!"),
        h, w2).
Proof.
  intros Hn Hnow Hsel. simpl.
  destruct (Z.ltb_spec n size) as [_|]; [|lia].
  cbv beta iota zeta delta [negb bind timespec_now call member get_errno throw ret id].
  rewrite Hnow. cbv beta iota. rewrite Hsel. cbv beta iota.
  destruct (r <? 0).
  - destruct (errno w2 =? EINTR); reflexivity.
  - destruct (r =? 0); [reflexivity|].
    destruct fd_isset; [|reflexivity].
    destruct (sys_read (fd_ h) (size - n) w2) as [k w3].
    destruct (k <? 1); [reflexivity|].
    destruct (to_size_t (n + to_size_t k) =? size); [reflexivity|].
    destruct (to_size_t (n + to_size_t k) <? size); reflexivity.
Qed.

(** One pass of the loop of [write]. *)
Lemma write_loop_pass fuel endtime length n (h : SerialImpl) (w : W) now w1 r fd_isset w2 :
  n < length ->
  clock_gettime w = (now, w1) ->
  pselect_write (fd_ h) (operator_minus endtime now) w1 = ((r, fd_isset), w2) ->
  write_loop (S fuel) endtime length n h w =
  if r <? 0 then
    if errno w2 =? EINTR then write_loop fuel endtime length n h w2
    else (Throws (IOException_errno (errno w2)), h, w2)
  else if r =? 0 then (Returns n, h, w2)
  else if fd_isset then
    let (k, w3) := sys_write (fd_ h) (length - n) w2 in
    if k <? 1 then (Throws no_data_written, h, w3)
    else
      let n' := to_size_t (n + to_size_t k) in
      if n' =? length then (Returns n', h, w3)
      else if n' <? length then write_loop fuel endtime length n' h w3
      else (Throws (SerialException
              "write over wrote, too many bytes where written, this shouldn't happen, might be a logical error!"),
            h, w3)
  else (Throws (IOException_what
          "select reports ready to write, but our fd isn't in the list, this shouldn't happen!"),
        h, w2).
Proof.
  intros Hn Hnow Hsel. simpl.
  destruct (Z.ltb_spec n length) as [_|]; [|lia].
  cbv beta iota zeta delta [negb bind timespec_now call member get_errno throw ret id].
  rewrite Hnow. cbv beta iota. rewrite Hsel. cbv beta iota.
  destruct (r <? 0).
  - destruct (errno w2 =? EINTR); reflexivity.
  - destruct (r =? 0); [reflexivity|].
    destruct fd_isset; [|reflexivity].
    destruct (sys_write (fd_ h) (length - n) w2) as [k w3].
    destruct (k <? 1); [reflexivity|].
    destruct (to_size_t (n + to_size_t k) =? length); [reflexivity|].
    destruct (to_size_t (n + to_size_t k) <? length); reflexivity.
Qed.

(** Once the count has reached the size the loops return it, whatever the
    fuel. *)
Lemma read_loop_done fuel endtime size n (h : SerialImpl) (w : W) :
  size <= n -> read_loop fuel endtime size n h w = (Returns n, h, w).
Proof.
  intros Hn. destruct fuel; simpl;
    (destruct (Z.ltb_spec n size); [lia|reflexivity]).
Qed.

Lemma write_loop_done fuel endtime length n (h : SerialImpl) (w : W) :
  length <= n -> write_loop fuel endtime length n h w = (Returns n, h, w).
Proof.
  intros Hn. destruct fuel; simpl;
    (destruct (Z.ltb_spec n length); [lia|reflexivity]).
Qed.

(** [a] is at most [b], seconds first. *)
Definition timespec_le (a b : timespec) : Prop :=
  tv_sec a < tv_sec b \/ (tv_sec a = tv_sec b /\ tv_nsec a <= tv_nsec b).

Lemma min_le_r a b : timespec_le (min a b) b.
Proof.
  unfold min, timespec_le.
  destruct (Z.ltb_spec (tv_sec a) (tv_sec b)) as [Hlt|Hge]; simpl; [left; exact Hlt|].
  destruct (Z.eqb_spec (tv_sec a) (tv_sec b)) as [Heq|Hne]; simpl.
  - destruct (Z.ltb_spec (tv_nsec a) (tv_nsec b)); [right; lia|right; lia].
  - right; lia.
Qed.


(** A run of the loop of [read] that ends in a wait that expires: from
    the count [n] in the world [w], through passes in which [pselect] is
    interrupted or bytes short of [size] are read, to a pass in which
    [pselect] answers 0, at the count [m] in the world [w']. *)
Inductive read_expires (endtime : timespec) (size : Z) (h : SerialImpl)
  : Z -> W -> Z -> W -> Prop :=
| read_expires_now n w now w1 fd_isset w2 :
    n < size ->
    clock_gettime w = (now, w1) ->
    pselect_read (fd_ h) (read_wait h endtime now) w1 = ((0, fd_isset), w2) ->
    read_expires endtime size h n w n w2
| read_expires_interrupted n w now w1 r fd_isset w2 m w' :
    n < size ->
    clock_gettime w = (now, w1) ->
    pselect_read (fd_ h) (read_wait h endtime now) w1 = ((r, fd_isset), w2) ->
    r < 0 -> errno w2 = EINTR ->
    read_expires endtime size h n w2 m w' ->
    read_expires endtime size h n w m w'
| read_expires_partial n w now w1 r w2 k w3 m w' :
    n < size ->
    clock_gettime w = (now, w1) ->
    pselect_read (fd_ h) (read_wait h endtime now) w1 = ((r, true), w2) ->
    0 < r ->
    sys_read (fd_ h) (size - n) w2 = (k, w3) ->
    1 <= k -> to_size_t (n + to_size_t k) < size ->
    read_expires endtime size h (to_size_t (n + to_size_t k)) w3 m w' ->
    read_expires endtime size h n w m w'.

(** The same for the loop of [write]. *)
Inductive write_expires (endtime : timespec) (length : Z) (h : SerialImpl)
  : Z -> W -> Z -> W -> Prop :=
| write_expires_now n w now w1 fd_isset w2 :
    n < length ->
    clock_gettime w = (now, w1) ->
    pselect_write (fd_ h) (operator_minus endtime now) w1 = ((0, fd_isset), w2) ->
    write_expires endtime length h n w n w2
| write_expires_interrupted n w now w1 r fd_isset w2 m w' :
    n < length ->
    clock_gettime w = (now, w1) ->
    pselect_write (fd_ h) (operator_minus endtime now) w1 = ((r, fd_isset), w2) ->
    r < 0 -> errno w2 = EINTR ->
    write_expires endtime length h n w2 m w' ->
    write_expires endtime length h n w m w'
| write_expires_partial n w now w1 r w2 k w3 m w' :
    n < length ->
    clock_gettime w = (now, w1) ->
    pselect_write (fd_ h) (operator_minus endtime now) w1 = ((r, true), w2) ->
    0 < r ->
    sys_write (fd_ h) (length - n) w2 = (k, w3) ->
    1 <= k -> to_size_t (n + to_size_t k) < length ->
    write_expires endtime length h (to_size_t (n + to_size_t k)) w3 m w' ->
    write_expires endtime length h n w m w'.

(** With fuel for its passes, such a run returns the count it has
    reached. *)
Lemma read_expires_returns endtime size h n w m w' :
  read_expires endtime size h n w m w' ->
  exists fuel0, forall fuel, (fuel0 <= fuel)%nat ->
    read_loop fuel endtime size n h w = (Returns m, h, w').
Proof.
  induction 1 as [n w now w1 fd_isset w2 Hn Hnow Hsel
                 |n w now w1 r fd_isset w2 m w' Hn Hnow Hsel Hr He _ [fuel0 IH]
                 |n w now w1 r w2 k w3 m w' Hn Hnow Hsel Hr Hrd Hk Hlt _ [fuel0 IH]];
    [exists 1%nat|exists (S fuel0)|exists (S fuel0)];
    intros [|fuel] Hfuel; try lia;
    rewrite (read_loop_pass fuel endtime size n h w _ _ _ _ _ Hn Hnow Hsel).
  - reflexivity.
  - destruct (Z.ltb_spec r 0); [|lia]. rewrite He, Z.eqb_refl. apply IH. lia.
  - destruct (Z.ltb_spec r 0); [lia|]. destruct (Z.eqb_spec r 0); [lia|].
    rewrite Hrd. destruct (Z.ltb_spec k 1); [lia|]. cbv zeta.
    destruct (Z.eqb_spec (to_size_t (n + to_size_t k)) size); [lia|].
    destruct (Z.ltb_spec (to_size_t (n + to_size_t k)) size); [|lia].
    apply IH. lia.
Qed.

Lemma write_expires_returns endtime length h n w m w' :
  write_expires endtime length h n w m w' ->
  exists fuel0, forall fuel, (fuel0 <= fuel)%nat ->
    write_loop fuel endtime length n h w = (Returns m, h, w').
Proof.
  induction 1 as [n w now w1 fd_isset w2 Hn Hnow Hsel
                 |n w now w1 r fd_isset w2 m w' Hn Hnow Hsel Hr He _ [fuel0 IH]
                 |n w now w1 r w2 k w3 m w' Hn Hnow Hsel Hr Hrd Hk Hlt _ [fuel0 IH]];
    [exists 1%nat|exists (S fuel0)|exists (S fuel0)];
    intros [|fuel] Hfuel; try lia;
    rewrite (write_loop_pass fuel endtime length n h w _ _ _ _ _ Hn Hnow Hsel).
  - reflexivity.
  - destruct (Z.ltb_spec r 0); [|lia]. rewrite He, Z.eqb_refl. apply IH. lia.
  - destruct (Z.ltb_spec r 0); [lia|]. destruct (Z.eqb_spec r 0); [lia|].
    rewrite Hrd. destruct (Z.ltb_spec k 1); [lia|]. cbv zeta.
    destruct (Z.eqb_spec (to_size_t (n + to_size_t k)) length); [lia|].
    destruct (Z.ltb_spec (to_size_t (n + to_size_t k)) length); [|lia].
    apply IH. lia.
Qed.

(** C2.  In either loop, when [pselect] reports no descriptor ready the
    call returns the count reached so far, be it zero or partial, and does
    not throw: in the pass in which that happens, in a call whose first
    wait expires, and in a run of any number of passes that ends in such a
    wait, given the fuel for them; and a count that has reached the size is
    returned as well. *)
Theorem timeout_returns_count :
  (forall fuel endtime size n (h : SerialImpl) (w : W) now w1 fd_isset w2,
     n < size ->
     clock_gettime w = (now, w1) ->
     pselect_read (fd_ h) (read_wait h endtime now) w1 = ((0, fd_isset), w2) ->
     read_loop (S fuel) endtime size n h w = (Returns n, h, w2)) /\
  (forall fuel endtime length n (h : SerialImpl) (w : W) now w1 fd_isset w2,
     n < length ->
     clock_gettime w = (now, w1) ->
     pselect_write (fd_ h) (operator_minus endtime now) w1 = ((0, fd_isset), w2) ->
     write_loop (S fuel) endtime length n h w = (Returns n, h, w2)) /\
  (forall fuel size (h : SerialImpl) (w : W) now w1 w2 now' w3 fd_isset w4,
     is_open_ h = true -> 0 < size ->
     clock_gettime w = (now, w1) ->
     ioctl_TIOCINQ (fd_ h) w1 = ((0, 0), w2) ->
     clock_gettime w2 = (now', w3) ->
     pselect_read (fd_ h) (read_wait h (read_endtime h now size) now') w3
     = ((0, fd_isset), w4) ->
     read (S fuel) size h w = (Returns 0, h, w4)) /\
  (forall fuel length (h : SerialImpl) (w : W) now w1 now' w2 fd_isset w3,
     is_open_ h = true -> 0 < length ->
     clock_gettime w = (now, w1) ->
     clock_gettime w1 = (now', w2) ->
     pselect_write (fd_ h) (operator_minus (write_endtime h now length) now') w2
     = ((0, fd_isset), w3) ->
     write (S fuel) length h w = (Returns 0, h, w3)) /\
  (forall endtime size (h : SerialImpl) n (w : W) m w',
     read_expires endtime size h n w m w' ->
     exists fuel0, forall fuel, (fuel0 <= fuel)%nat ->
       read_loop fuel endtime size n h w = (Returns m, h, w')) /\
  (forall endtime length (h : SerialImpl) n (w : W) m w',
     write_expires endtime length h n w m w' ->
     exists fuel0, forall fuel, (fuel0 <= fuel)%nat ->
       write_loop fuel endtime length n h w = (Returns m, h, w')) /\
  (forall fuel endtime size n (h : SerialImpl) (w : W),
     size <= n ->
     read_loop fuel endtime size n h w = (Returns n, h, w) /\
     write_loop fuel endtime size n h w = (Returns n, h, w)).
Proof.
  split; [|split; [|split; [|split; [|split; [|split]]]]];
    [| | | |exact read_expires_returns|exact write_expires_returns|].
  - intros. erewrite read_loop_pass by eassumption. reflexivity.
  - intros. erewrite write_loop_pass by eassumption. reflexivity.
  - intros fuel size h w now w1 w2 now' w3 fd_isset w4 Ho Hs Hnow Hinq Hnow' Hsel.
    unfold read.
    cbv beta iota zeta delta [bind timespec_now call member available get_errno throw ret id].
    rewrite Ho. cbv beta iota delta [negb]. rewrite Hnow. cbv beta iota.
    rewrite Ho. cbv beta iota delta [negb]. rewrite Hinq. cbv beta iota.
    change (0 =? 0) with true. cbv beta iota.
    assert (Hz : (0 <? to_size_t 0) = false) by reflexivity. rewrite Hz.
    erewrite read_loop_pass by eassumption. reflexivity.
  - intros fuel length h w now w1 now' w2 fd_isset w3 Ho Hs Hnow Hnow' Hsel.
    unfold write.
    cbv beta iota zeta delta [bind timespec_now call member throw ret id].
    rewrite Ho. cbv beta iota delta [negb]. rewrite Hnow. cbv beta iota.
    erewrite write_loop_pass by eassumption. reflexivity.
  - intros. split; [apply read_loop_done|apply write_loop_done]; assumption.
Qed.


(** C1.  [setTimeout] caches [read_timeout_constant] a second time where
    the multiplier belongs, so the deadline of [read] is
    [now + constant + constant * size]: with a constant of 50 ms and a
    multiplier of 0, a read of 100 bytes started at 1000 s expires at
    1005.05 s, not at 1000.05 s. *)
Theorem read_endtime_scales_the_constant :
  (forall timeout (h : SerialImpl) (w : W),
     exists h',
       setTimeout timeout h w = (Returns tt, h', w) /\
       read_timeout_multiplier_ h'
       = timespec_from_millis (read_timeout_constant timeout) /\
       forall now size,
         read_endtime h' now size
         = operator_plus
             (operator_plus now (timespec_from_millis (read_timeout_constant timeout)))
             (operator_times (timespec_from_millis (read_timeout_constant timeout))
                size)) /\
  (forall (h : SerialImpl) (w : W),
     let timeout := mk_Timeout 0 50 0 0 0 in
     let now := mk_timespec 1000 0 in
     let h' := snd (fst (setTimeout timeout h w)) in
     read_endtime h' now 100 = mk_timespec 1005 50000000 /\
     operator_plus
       (operator_plus now (timespec_from_millis (read_timeout_constant timeout)))
       (operator_times (timespec_from_millis (read_timeout_multiplier timeout)) 100)
     = mk_timespec 1000 50000000).
Proof.
  split.
  - intros timeout h w. eexists. split; [reflexivity|]. split; reflexivity.
  - intros h w. split; vm_compute; reflexivity.
Qed.

End Transfer.

(** ** The model at work on the simulated line *)

Import Scenario.

#[local] Existing Instance linux.
#[local] Existing Instance Sim.posix.

(** Evaluates one side of a goal and the unknowns it determines. *)
Ltac by_running :=
  lazymatch goal with
  | |- ?lhs = ?rhs =>
      let v := eval vm_compute in lhs in
      unify rhs v; vm_compute; reflexivity
  | |- _ => vm_compute; easy
  end.

(** A read of the idle line whose first wait expires, and a run of the
    loop that reads the one byte of a line and then sees its wait expire. *)
Lemma timeout_returns_count_witness :
  (exists w',
     sim_read 1 100 (handle idle_50ms) (world idle_50ms)
     = (Returns 0, handle idle_50ms, w')) /\
  (exists fuel0 w',
     forall fuel, (fuel0 <= fuel)%nat ->
       read_loop fuel (mk_timespec 2000 0) 100 0 (handle one_byte) (world one_byte)
       = (Returns 1, handle one_byte, w')).
Proof.
  destruct (timeout_returns_count (P := linux) (os := Sim.posix))
    as (_ & _ & Hcall & _ & Hrun & _).
  split.
  - eexists. eapply Hcall; by_running.
  - assert (exists w', read_expires (mk_timespec 2000 0) 100 (handle one_byte)
                         0 (world one_byte) 1 w') as [w' Hw'].
    { eexists. eapply read_expires_partial; [by_running ..|].
      eapply read_expires_now; by_running. }
    destruct (Hrun _ _ _ _ _ _ _ Hw') as [fuel0 Hfuel].
    exists fuel0, w'. exact Hfuel.
Defined.

(** The handle of the idle line is one the constructor returns. *)
Lemma idle_reachable : reachable (P := linux) (os := Sim.posix) (handle idle).
Proof.
  eapply (reachable_constructed 1 "/dev/ttyS0" 9600 eightbits parity_none
            stopbits_one flowcontrol_hardware (Sim.boot start call_cost [])).
  by_running.
Defined.

(** Constructed with hardware flow control, then switched to software. *)
Lemma flow_control_exclusive_witness :
  reachable (P := linux) (os := Sim.posix) (handle software) /\
  xonxoff_ (handle software) && rtscts_ (handle software) = false.
Proof.
  assert (Hr : reachable (P := linux) (os := Sim.posix) (handle software)).
  { eapply (reachable_performed (Call_setFlowcontrol flowcontrol_software)
              (handle idle) (world idle)); [exact idle_reachable|by_running]. }
  split; [exact Hr|exact (flow_control_exclusive _ Hr)].
Defined.

(** [close] on the open handle of the idle line. *)
Lemma close_idempotent_witness :
  close (os := Sim.posix) (handle idle) (world idle)
  = (Returns tt, set_is_open_ false (set_fd_ (-1) (handle idle)),
     snd (sys_close (fd_ (handle idle)) (world idle))).
Proof.
  apply (proj2 (proj2 (close_idempotent (P := linux) (os := Sim.posix))));
    [exact idle_reachable|by_running].
Defined.

(** The constructor call of the idle line is a call of [open]. *)
Lemma constructor_opens_named_port_witness :
  exists h,
    fd_ h = -1 /\ is_open_ h = false /\ port_ h = "/dev/ttyS0"%string /\
    baudrate_ h = 9600 /\ bytesize_ h = eightbits /\ parity_ h = parity_none /\
    stopbits_ h = stopbits_one /\ flowcontrol_ h = flowcontrol_hardware /\
    timeout_ h = zero_timeout /\
    idle = open (P := linux) (os := Sim.posix) 1 h (Sim.boot start call_cost []).
Proof.
  apply (proj2 (constructor_opens_named_port (P := linux) (os := Sim.posix) 1 9600
                  eightbits parity_none stopbits_one flowcontrol_hardware
                  (Sim.boot start call_cost []))).
  discriminate.
Defined.



(** The zero and the negative wait on the simulated line.  With an
    inter-byte limit of 0 the wait of a read
    is zero, and with the all-zero profile the wait of a write is already
    negative on the first pass; neither call returns the count without
    calling [pselect].  The read calls it with the zero wait, finds the
    byte that has just arrived and returns 1; the write calls it with the
    negative wait, which the line refuses as Linux does, and throws. *)
Lemma expired_wait_still_calls_pselect :
  (let run := and_then early_byte (sim_read 5 1) in
   result run = Returns 1 /\
   firstn 3 (Sim.trace (world run))
   = [Sim.Read 3 1; Sim.Pselect_read 3 (mk_timespec 0 0); Sim.Clock_gettime]) /\
  (let run := and_then idle (sim_write 5 4) in
   result run = Throws (IOException_errno Sim.EINVAL) /\
   firstn 2 (Sim.trace (world run))
   = [Sim.Pselect_write 3 (mk_timespec (-1) 999999000); Sim.Clock_gettime]).
Proof. vm_compute. repeat split. Qed.


(** C6, counterexample.  Constructed with the name of the device, the
    handle comes back open, with the descriptor that [::open] returned. *)
Lemma constructor_opens_the_port :
  idle
  = construct (P := linux) (os := Sim.posix) 1 "/dev/ttyS0" 9600 eightbits parity_none
      stopbits_one flowcontrol_hardware (Sim.boot start call_cost []) /\
  result idle = Returns tt /\
  is_open_ (handle idle) = true /\
  fd_ (handle idle) = 3 /\
  last (Sim.trace (world idle)) = Some (Sim.Open "/dev/ttyS0").
Proof. split; [reflexivity|]. vm_compute. repeat split. Qed.

(** The deadline of C1 at work: with a constant of 50 ms and a multiplier
    of 0, a read of 100 bytes from the idle line waits for 5.05 s less the
    two microseconds spent since the clock was read, and returns 0 some
    5.05 s after it was called. *)
Example read_of_100_bytes_waits_5_seconds :
  let run := and_then idle_50ms (sim_read 5 100) in
  result run = Returns 0 /\
  hd Sim.Clock_gettime (Sim.trace (world run))
  = Sim.Pselect_read 3 (mk_timespec 5 49998000) /\
  Sim.clock (world run) - Sim.clock (world idle_50ms) = 5050002000.
Proof. vm_compute. repeat split. Qed.

(** * Further properties of the code *)

(** ** The timespec helpers *)

Lemma to_size_t_id z : 0 <= z < 2 ^ 64 -> to_size_t z = z.
Proof. intros H. unfold to_size_t. apply Z.mod_small. exact H. Qed.

(** Two timespecs in normal form that stand for the same time are the
    same. *)
Lemma normal_form_unique a b :
  0 <= tv_nsec a < 1000000000 -> 0 <= tv_nsec b < 1000000000 ->
  total_ns a = total_ns b -> a = b.
Proof.
  destruct a as [sa na], b as [sb nb]. unfold total_ns. simpl.
  intros Ha Hb Ht. assert (sa = sb) by nia. subst. f_equal. lia.
Qed.

Lemma from_millis_closed millis :
  0 <= millis < 2 ^ 32 ->
  timespec_from_millis millis
  = mk_timespec (millis / 1000) (millis mod 1000 * 1000000).
Proof.
  intros Hm.
  assert (Hq : 0 <= millis / 1000 < 2 ^ 32).
  { split; [apply Z.div_pos; lia|]. apply Z.div_lt_upper_bound; lia. }
  assert (Hdiv : millis * 1000000 / 1000000000 = millis / 1000).
  { change 1000000000 with (1000 * 1000000). apply Z.div_mul_cancel_r; lia. }
  assert (Hmod : (millis * 1000000) mod 1000000000 = millis mod 1000 * 1000000).
  { change 1000000000 with (1000 * 1000000). apply Z.mul_mod_distr_r; lia. }
  unfold timespec_from_millis.
  rewrite to_size_t_id, to_long_id by lia.
  rewrite normalize_closed.
  - cbn [tv_sec tv_nsec]. rewrite Hdiv, Hmod. reflexivity.
  - unfold fits_double. cbn [tv_nsec]. lia.
  - unfold no_overflow, in_long. cbn [tv_sec tv_nsec]. rewrite Hdiv. lia.
Qed.

(** X1.  A number of milliseconds that fits 32 bits is converted
    exactly: to its whole seconds and, in nanoseconds, the milliseconds
    left. *)
Theorem timespec_from_millis_exact millis :
  0 <= millis < 2 ^ 32 ->
  timespec_from_millis millis
  = mk_timespec (millis / 1000) (millis mod 1000 * 1000000) /\
  total_ns (timespec_from_millis millis) = millis * 1000000.
Proof.
  intros Hm. pose proof (from_millis_closed millis Hm) as H.
  split; [exact H|]. rewrite H. unfold total_ns. cbn [tv_sec tv_nsec].
  pose proof (Z.div_mod millis 1000 ltac:(lia)). lia.
Qed.

Lemma timespec_from_millis_exact_witness :
  timespec_from_millis 4294967295 = mk_timespec 4294967 295000000 /\
  total_ns (timespec_from_millis 4294967295) = 4294967295000000.
Proof. apply (timespec_from_millis_exact 4294967295). lia. Defined.

Lemma min_le_l a b : timespec_le (min a b) a.
Proof.
  unfold min, timespec_le.
  destruct (Z.ltb_spec (tv_sec a) (tv_sec b)) as [Hlt|Hge]; simpl; [right; lia|].
  destruct (Z.eqb_spec (tv_sec a) (tv_sec b)) as [Heq|Hne]; simpl.
  - destruct (Z.ltb_spec (tv_nsec a) (tv_nsec b)); right; lia.
  - left. lia.
Qed.

(** X2.  [min] returns one of its arguments, the one that comes first
    when seconds are compared before nanoseconds: it is at most either
    argument, and at least anything that is at most both. *)
Theorem min_is_greatest_lower_bound a b :
  (min a b = a \/ min a b = b) /\
  timespec_le (min a b) a /\
  timespec_le (min a b) b /\
  (forall c, timespec_le c a -> timespec_le c b -> timespec_le c (min a b)).
Proof.
  split; [|split; [apply min_le_l|split; [apply min_le_r|]]].
  - unfold min. destruct (_ || _); [left|right]; reflexivity.
  - intros c Ha Hb. unfold min. destruct (_ || _); assumption.
Qed.

Lemma min_is_greatest_lower_bound_witness :
  timespec_le (mk_timespec 0 5) (min (mk_timespec 1 0) (mk_timespec 0 7)).
Proof.
  apply (min_is_greatest_lower_bound (mk_timespec 1 0) (mk_timespec 0 7));
    [left|right]; cbn; lia.
Defined.

Lemma normalize_borrow_nonnegative ts :
  in_long (tv_nsec ts) ->
  0 <= tv_nsec (normalize_borrow ts) < 2 ^ 63.
Proof.
  funelim (normalize_borrow ts); intros Hin.
  - match goal with IH : _ -> 0 <= tv_nsec (normalize_borrow _) < _ |- _ => apply IH end.
    unfold borrow_step, long_of_double. cbn [tv_nsec]. apply to_long_range.
  - unfold in_long in Hin. lia.
Qed.

Lemma round53_below_1e9 ns : 0 <= ns < 2 ^ 63 -> round53 ns < 1000000000 -> ns < 1000000000.
Proof.
  intros Hns Hr. destruct (Z_lt_le_dec ns 1000000000) as [|Hbig]; [assumption|].
  destruct (Z_le_gt_dec ns (2 ^ 53)).
  - rewrite round53_exact in Hr by lia. lia.
  - pose proof (round53_near ns ltac:(lia)). lia.
Qed.

Lemma normalize_carry_in_range ts :
  0 <= tv_nsec ts < 2 ^ 63 ->
  0 <= tv_nsec (normalize_carry ts) < 1000000000.
Proof.
  funelim (normalize_carry ts); intros Hin.
  - match goal with IH : _ -> 0 <= tv_nsec (normalize_carry _) < _ |- _ => apply IH end.
    unfold carry_step, long_of_double, fsub, double_of_long, d1e9 in *.
    cbn [tv_nsec].
    pose proof (round53_near (tv_nsec ts) ltac:(lia)).
    pose proof (round53_near (round53 (tv_nsec ts) - 1000000000) ltac:(lia)).
    pose proof (proj1 (round53_sign (round53 (tv_nsec ts) - 1000000000)) ltac:(lia)).
    rewrite to_long_id; lia.
  - split; [lia|]. apply round53_below_1e9; [assumption|].
    unfold double_of_long, d1e9 in *. lia.
Qed.

(** X3.  Whatever a [long] holds as nanoseconds, also where the double
    arithmetic of [normalize] is inexact, the result has its nanoseconds
    in [0, 1e9); and so have the results of the three operators and of
    [timespec_from_millis]. *)
Theorem normalize_lands_in_range :
  (forall ts, in_long (tv_nsec ts) -> 0 <= tv_nsec (normalize ts) < 1000000000) /\
  (forall a b, 0 <= tv_nsec (operator_plus a b) < 1000000000) /\
  (forall a b, 0 <= tv_nsec (operator_minus a b) < 1000000000) /\
  (forall ts mul, 0 <= tv_nsec (operator_times ts mul) < 1000000000) /\
  (forall millis, 0 <= tv_nsec (timespec_from_millis millis) < 1000000000).
Proof.
  assert (H : forall ts, in_long (tv_nsec ts) ->
                0 <= tv_nsec (normalize ts) < 1000000000).
  { intros ts Hin. unfold normalize. apply normalize_carry_in_range.
    apply normalize_borrow_nonnegative, Hin. }
  split; [exact H|].
  repeat split; intros; apply H; cbn [tv_nsec]; apply to_long_range.
Qed.

Lemma normalize_lands_in_range_witness :
  0 <= tv_nsec (normalize (mk_timespec 0 (- 9223372036854775808))) < 1000000000.
Proof.
  apply (proj1 normalize_lands_in_range (mk_timespec 0 (- 9223372036854775808))).
  in_range.
Defined.

(** A time as the helpers leave it: nanoseconds in [0, 1e9), and seconds
    far from the ends of a [long]. *)
Definition normal (ts : timespec) : Prop :=
  0 <= tv_nsec ts < 1000000000 /\ - 2 ^ 62 < tv_sec ts < 2 ^ 62.

Lemma operator_minus_normal a b :
  normal a -> normal b ->
  0 <= tv_nsec (operator_minus a b) < 1000000000 /\
  tv_sec a - tv_sec b - 1 <= tv_sec (operator_minus a b) <= tv_sec a - tv_sec b /\
  total_ns (operator_minus a b) = total_ns a - total_ns b.
Proof.
  intros [Ha Hsa] [Hb Hsb]. unfold operator_minus.
  rewrite !to_long_id by lia.
  assert (Hq : -1 <= (tv_nsec a - tv_nsec b) / 1000000000 <= 0).
  { split; [apply Z.div_le_lower_bound; lia|].
    apply Z.lt_succ_r, Z.div_lt_upper_bound; lia. }
  assert (Hd : fits_double (tv_nsec a - tv_nsec b)) by (unfold fits_double; lia).
  assert (Ho : no_overflow (mk_timespec (tv_sec a - tv_sec b) (tv_nsec a - tv_nsec b)))
    by (unfold no_overflow, in_long; cbn [tv_sec tv_nsec]; lia).
  destruct (normalize_sound (mk_timespec (tv_sec a - tv_sec b) (tv_nsec a - tv_nsec b))
              Hd Ho) as [Hr Ht].
  split; [exact Hr|]. split.
  - rewrite normalize_closed by assumption. cbn [tv_sec tv_nsec]. lia.
  - rewrite Ht. unfold total_ns. cbn [tv_sec tv_nsec]. lia.
Qed.

Lemma operator_plus_normal a b :
  0 <= tv_nsec a < 1000000000 -> 0 <= tv_nsec b < 1000000000 ->
  - 2 ^ 63 <= tv_sec a + tv_sec b < 2 ^ 63 - 1 ->
  0 <= tv_nsec (operator_plus a b) < 1000000000 /\
  total_ns (operator_plus a b) = total_ns a + total_ns b.
Proof.
  intros Ha Hb Hs. unfold operator_plus.
  rewrite !to_long_id by lia.
  assert (Hq : 0 <= (tv_nsec a + tv_nsec b) / 1000000000 <= 1).
  { split; [apply Z.div_pos; lia|].
    apply Z.lt_succ_r, Z.div_lt_upper_bound; lia. }
  assert (Hd : fits_double (tv_nsec a + tv_nsec b)) by (unfold fits_double; lia).
  assert (Ho : no_overflow (mk_timespec (tv_sec a + tv_sec b) (tv_nsec a + tv_nsec b)))
    by (unfold no_overflow, in_long; cbn [tv_sec tv_nsec]; lia).
  destruct (normalize_sound (mk_timespec (tv_sec a + tv_sec b) (tv_nsec a + tv_nsec b))
              Hd Ho) as [Hr Ht].
  split; [exact Hr|].
  rewrite Ht. unfold total_ns. cbn [tv_sec tv_nsec]. lia.
Qed.

(** X4.  On times as the helpers leave them, subtraction and addition
    undo each other: the time left until a deadline, added to the present
    time, is the deadline again, and a deadline less the wait that set it
    is the time it was set at. *)
Theorem minus_and_plus_cancel a b :
  normal a -> normal b ->
  operator_plus (operator_minus a b) b = a /\
  operator_minus (operator_plus a b) b = a.
Proof.
  intros Ha Hb. pose proof Ha as [Hna Hsa]. pose proof Hb as [Hnb Hsb]. split.
  - destruct (operator_minus_normal a b Ha Hb) as (Hr & Hs & Ht).
    destruct (operator_plus_normal (operator_minus a b) b Hr Hnb ltac:(lia)) as [Hr' Ht'].
    apply normal_form_unique; [assumption|assumption|lia].
  - destruct (operator_plus_normal a b Hna Hnb ltac:(lia)) as [Hr Ht].
    assert (Hs : tv_sec a + tv_sec b <= tv_sec (operator_plus a b) <= tv_sec a + tv_sec b + 1).
    { unfold total_ns in Ht. lia. }
    pose proof Hr as Hr2. revert Hr2 Hs Ht.
    generalize (operator_plus a b) as c. intros c Hc Hs Ht.
    unfold operator_minus. rewrite !to_long_id by lia.
    assert (Hq : -1 <= (tv_nsec c - tv_nsec b) / 1000000000 <= 0).
    { split; [apply Z.div_le_lower_bound; lia|].
      apply Z.lt_succ_r, Z.div_lt_upper_bound; lia. }
    assert (Hd : fits_double (tv_nsec c - tv_nsec b)) by (unfold fits_double; lia).
    assert (Ho : no_overflow (mk_timespec (tv_sec c - tv_sec b) (tv_nsec c - tv_nsec b)))
      by (unfold no_overflow, in_long; cbn [tv_sec tv_nsec]; lia).
    destruct (normalize_sound (mk_timespec (tv_sec c - tv_sec b) (tv_nsec c - tv_nsec b))
                Hd Ho) as [Hr' Ht'].
    apply normal_form_unique; [assumption|assumption|].
    rewrite Ht'. unfold total_ns in *. cbn [tv_sec tv_nsec]. lia.
Qed.

Lemma minus_and_plus_cancel_witness :
  operator_plus (operator_minus (mk_timespec 7 100000000) (mk_timespec 2 900000000))
                (mk_timespec 2 900000000) = mk_timespec 7 100000000 /\
  operator_minus (operator_plus (mk_timespec 7 100000000) (mk_timespec 2 900000000))
                 (mk_timespec 2 900000000) = mk_timespec 7 100000000.
Proof.
  apply (minus_and_plus_cancel (mk_timespec 7 100000000) (mk_timespec 2 900000000));
    unfold normal; cbn [tv_sec tv_nsec]; lia.
Defined.

(** X5.  The time left until a deadline, as [read] and [write] hand it to
    [pselect]: its seconds are negative exactly when the deadline has
    passed, it is zero exactly at the deadline, and otherwise it is the
    exact number of nanoseconds that remain. *)
Theorem time_left_sign endtime now :
  normal endtime -> normal now ->
  (tv_sec (operator_minus endtime now) < 0 <-> total_ns endtime < total_ns now) /\
  (operator_minus endtime now = mk_timespec 0 0 <-> endtime = now) /\
  total_ns (operator_minus endtime now) = total_ns endtime - total_ns now.
Proof.
  intros Ha Hb. destruct (operator_minus_normal endtime now Ha Hb) as (Hr & Hs & Ht).
  destruct Ha as [Hna _], Hb as [Hnb _].
  split; [|split; [|exact Ht]].
  - unfold total_ns in *. lia.
  - split.
    + intros H0. rewrite H0 in Ht. apply normal_form_unique; try assumption.
      unfold total_ns in *. cbn [tv_sec tv_nsec] in Ht. lia.
    + intros ->. apply normal_form_unique; [assumption|cbn; lia|].
      rewrite Ht. unfold total_ns. cbn [tv_sec tv_nsec]. lia.
Qed.

Lemma time_left_sign_witness :
  tv_sec (operator_minus (mk_timespec 5 0) (mk_timespec 5 1)) < 0 <->
  total_ns (mk_timespec 5 0) < total_ns (mk_timespec 5 1).
Proof.
  apply (time_left_sign (mk_timespec 5 0) (mk_timespec 5 1));
    unfold normal; cbn [tv_sec tv_nsec]; lia.
Defined.

Lemma normalize_fixes_normal_form ts :
  0 <= tv_nsec ts < 1000000000 -> normalize ts = ts.
Proof.
  intros H. unfold normalize. rewrite normalize_borrow_nonneg by lia.
  apply normalize_carry_lt. unfold double_of_long, d1e9.
  rewrite round53_exact by lia. lia.
Qed.

(** X6.  [normalize] is idempotent on every time a [timespec] can hold,
    exact arithmetic or not; a time whose nanoseconds are in [0, 1e9)
    already is returned as it is, whatever its seconds. *)
Theorem normalize_idempotent :
  (forall ts, in_long (tv_nsec ts) -> normalize (normalize ts) = normalize ts) /\
  (forall ts, 0 <= tv_nsec ts < 1000000000 -> normalize ts = ts).
Proof.
  split; [|exact normalize_fixes_normal_form].
  intros ts H. apply normalize_fixes_normal_form. unfold normalize.
  apply normalize_carry_in_range, normalize_borrow_nonnegative, H.
Qed.

Lemma normalize_idempotent_witness :
  normalize (normalize (mk_timespec 0 9007199254740993))
  = normalize (mk_timespec 0 9007199254740993).
Proof.
  apply (proj1 normalize_idempotent (mk_timespec 0 9007199254740993)). in_range.
Defined.

(** ** open and reconfigurePort at their edges *)

(** The handle with the two flow-control booleans set. *)
Definition with_flow (xonxoff rtscts : bool) (h : SerialImpl) : SerialImpl :=
  set_rtscts_ rtscts (set_xonxoff_ xonxoff h).

(** What "setup flow control" makes of the handle: an out-of-enum mode
    meets none of its three tests. *)
Definition flow_of (flowcontrol : flowcontrol_t) (h : SerialImpl) : SerialImpl :=
  match flowcontrol with
  | flowcontrol_none => with_flow false false h
  | flowcontrol_software => with_flow true false h
  | flowcontrol_hardware => with_flow false true h
  | flowcontrol_out_of_enum => h
  end.

(** [h] is [h0] but for the two flow-control booleans. *)
Definition same_but_flow (h0 h : SerialImpl) : Prop :=
  h = with_flow (xonxoff_ h) (rtscts_ h) h0.

(** [h] is [h0] but for those and the descriptor and the open flag. *)
Definition same_settings (h0 h : SerialImpl) : Prop :=
  h = set_is_open_ (is_open_ h) (set_fd_ (fd_ h) (with_flow (xonxoff_ h) (rtscts_ h) h0)).

Ltac same_handle :=
  cbv [same_but_flow same_settings with_flow flow_of
       set_port_ set_fd_ set_is_open_ set_xonxoff_ set_rtscts_
       set_timeout_ set_inter_byte_timeout_ set_read_timeout_constant_
       set_read_timeout_multiplier_ set_write_timeout_constant_
       set_write_timeout_multiplier_ set_baudrate_ set_parity_ set_bytesize_
       set_stopbits_ set_flowcontrol_
       port_ fd_ is_open_ xonxoff_ rtscts_ timeout_ inter_byte_timeout_
       read_timeout_constant_ read_timeout_multiplier_ write_timeout_constant_
       write_timeout_multiplier_ baudrate_ parity_ bytesize_ stopbits_ flowcontrol_]
    in *.

Ltac pure_step :=
  first
    [ apply keeps_ret | apply keeps_throw | apply keeps_out_of_fuel | apply keeps_undefined
    | apply keeps_member | apply keeps_call | apply keeps_get_errno
    | apply keeps_bind; [|intros ?]
    | match goal with
      | |- keeps _ (if ?b then _ else _) => destruct b
      | |- keeps _ (match ?x with _ => _ end) => destruct x
      end ].

Section Edges.

Context {P : Platform} {W : Type} {os : Posix W}.

Lemma same_but_flow_refl h : same_but_flow h h.
Proof. destruct h. reflexivity. Qed.

Lemma same_settings_refl h : same_settings h h.
Proof. destruct h. reflexivity. Qed.

Lemma resolve_flowcontrol_result h (w : W) :
  resolve_flowcontrol h w = (Returns tt, flow_of (flowcontrol_ h) h, w).
Proof.
  unfold resolve_flowcontrol, bind, member, assign, ret.
  destruct h as [? ? ? ? ? ? ? ? ? ? ? ? ? ? ? []]; reflexivity.
Qed.

(** A computation without an assignment keeps every property of the
    handle. *)
Lemma set_custom_baud_pure I fd baudrate : keeps I (set_custom_baud fd baudrate).
Proof. unfold set_custom_baud. repeat pure_step. Qed.

Lemma available_pure I : keeps I available.
Proof. unfold available. repeat pure_step. Qed.

Lemma read_loop_pure I fuel : forall endtime size n,
  keeps I (read_loop fuel endtime size n).
Proof.
  induction fuel as [|fuel IH]; intros; simpl.
  - destruct (negb (n <? size)); repeat pure_step.
  - unfold timespec_now. repeat first [apply IH | pure_step].
Qed.

Lemma write_loop_pure I fuel : forall endtime length n,
  keeps I (write_loop fuel endtime length n).
Proof.
  induction fuel as [|fuel IH]; intros; simpl.
  - destruct (negb (n <? length)); repeat pure_step.
  - unfold timespec_now. repeat first [apply IH | pure_step].
Qed.

Lemma read_pure I fuel size : keeps I (read fuel size).
Proof.
  pose proof (available_pure I).
  unfold read, timespec_now.
  repeat first [assumption | apply read_loop_pure | pure_step].
Qed.

Lemma write_pure I fuel length : keeps I (write fuel length).
Proof.
  unfold write, timespec_now. repeat first [apply write_loop_pure | pure_step].
Qed.

Lemma resolve_flowcontrol_frame h0 :
  keeps (W := W) (same_but_flow h0) resolve_flowcontrol.
Proof.
  intros h w H. rewrite resolve_flowcontrol_result. cbn [fst snd].
  destruct h0, h as [? ? ? ? ? ? ? ? ? ? ? ? ? ? ? []]; same_handle;
    injection H as -> -> -> -> -> -> -> -> -> -> -> -> -> ->; reflexivity.
Qed.

Lemma reconfigurePort_frame h0 : keeps (same_but_flow h0) reconfigurePort.
Proof.
  unfold reconfigurePort, or_throw.
  repeat first [apply set_custom_baud_pure | apply resolve_flowcontrol_frame | pure_step].
Qed.

Lemma reconfigurePort_changes_flow_only h (w : W) :
  same_but_flow h (snd (fst (reconfigurePort h w))).
Proof. apply reconfigurePort_frame, same_but_flow_refl. Qed.

(** When [reconfigurePort] returns, it has resolved the flow-control mode
    and has ended with [tcsetattr], on options that went through
    "xonxoff", "rtscts" and the polling-read assignments last. *)
Lemma reconfigurePort_applies_flow h (w : W) h' w' :
  reconfigurePort h w = (Returns tt, h', w') ->
  h' = flow_of (flowcontrol_ h) h /\
  exists options w1,
    w' = snd (tcsetattr (fd_ h)
                (polling_read (flow_bits (xonxoff_ h') (rtscts_ h') options)) w1).
Proof.
  unfold reconfigurePort, bind, member, call, or_throw, ret, throw.
  destruct (fd_ h =? -1); [discriminate|].
  destruct (tcgetattr (fd_ h) w) as [[r options] w1].
  destruct (r =? -1); [discriminate|].
  destruct (standard_baud (baudrate_ h)).
  2: pose proof (set_custom_baud_pure (fun h' => h' = h) (fd_ h) (baudrate_ h) h w1
                   eq_refl) as Hc;
     destruct (set_custom_baud (fd_ h) (baudrate_ h) h w1) as [[[[]|e| |] h1] w2];
     try discriminate; cbn [fst snd] in Hc; subst h1.
  all: repeat match goal with
         | |- context [match ?o with Some _ => _ | None => _ end] =>
             destruct o; try discriminate
         end.
  all: rewrite resolve_flowcontrol_result.
  all: match goal with
       | |- context [tcsetattr ?fd ?o ?x] =>
           destruct (tcsetattr fd o x) as [r2 w4] eqn:Hset
       end.
  all: intros Heq; inversion Heq; subst; split; [reflexivity|].
  all: eexists; eexists; rewrite Hset; reflexivity.
Qed.

(** The byte size, the stop bits and the parity are among those that the
    tests of [reconfigurePort] know. *)
Definition accepted (h : SerialImpl) : bool :=
  match bytesize_ h with bytesize_out_of_enum => false | _ => true end &&
  match stopbits_ h with stopbits_out_of_enum => false | _ => true end &&
  match parity_ h with parity_none | parity_even | parity_odd => true | _ => false end.

Lemma same_settings_after_fd v h h' :
  same_settings (set_fd_ v h) h' -> same_settings h h'.
Proof.
  destruct h, h'. same_handle. intros H.
  injection H as -> -> -> -> -> -> -> -> -> -> -> ->. reflexivity.
Qed.

Lemma same_but_flow_settings v h h' :
  same_but_flow (set_fd_ v h) h' ->
  same_settings h h' /\ fd_ h' = v /\ is_open_ h' = is_open_ h.
Proof.
  destruct h, h'. same_handle. intros H.
  injection H as -> -> -> -> -> -> -> -> -> -> -> -> -> ->. repeat split.
Qed.

Lemma same_settings_open v h h' :
  same_settings h h' -> same_settings h (set_is_open_ v h').
Proof.
  destruct h, h'. same_handle. intros H.
  injection H as -> -> -> -> -> -> -> -> -> -> -> ->. reflexivity.
Qed.

Lemma empty_false s : empty s = false -> s <> ""%string.
Proof. destruct s; [discriminate|]. intros _ H. discriminate H. Qed.

Lemma empty_of_nonempty s : s <> ""%string -> empty s = false.
Proof. destruct s; [contradiction|reflexivity]. Qed.

(** X7.  [open] on a closed handle returns only with the open flag set, a
    descriptor in [fd_] and a port name that is not empty; when it throws,
    the open flag is still clear.  Whichever way it ends, it has changed
    nothing on the handle but the descriptor, the open flag and the two
    flow-control booleans; and a second [open] after one that returned is
    refused without a system call. *)
Theorem open_outcome fuel (h : SerialImpl) (w : W) o h' w' :
  is_open_ h = false ->
  open fuel h w = (o, h', w') ->
  same_settings h h' /\
  match o with
  | Returns _ =>
      is_open_ h' = true /\ fd_ h' <> -1 /\ port_ h <> ""%string /\
      forall fuel' w2,
        open (S fuel') h' w2
        = (Throws (SerialException "Serial port already open."), h', w2)
  | Throws _ | OutOfFuel | Undefined => is_open_ h' = false
  end.
Proof.
  revert h w. induction fuel as [|fuel IH]; intros h w Ho Hrun.
  - inversion Hrun; subst. split; [apply same_settings_refl|exact Ho].
  - simpl in Hrun. unfold bind, member, assign, call, throw, get_errno in Hrun.
    destruct (empty (port_ h)) eqn:Hp.
    { inversion Hrun; subst. split; [apply same_settings_refl|exact Ho]. }
    rewrite Ho in Hrun.
    destruct (sys_open (port_ h) w) as [fd w1].
    destruct (Z.eqb_spec fd (-1)) as [Hfd|Hfd].
    + assert (Hs : same_settings h (set_fd_ fd h) /\ is_open_ (set_fd_ fd h) = false).
      { split; [|exact Ho].
        apply (same_settings_after_fd fd), same_settings_refl. }
      destruct Hs as [Hs Ho1].
      destruct (errno w1 =? EINTR).
      * destruct (IH _ _ Ho1 Hrun) as [Hs' Hout].
        split; [exact (same_settings_after_fd _ _ _ Hs')|].
        destruct o; exact Hout.
      * destruct ((errno w1 =? ENFILE) || (errno w1 =? EMFILE));
          inversion Hrun; subst; split; assumption.
    + pose proof (reconfigurePort_changes_flow_only (set_fd_ fd h) w1) as Hr.
      destruct (reconfigurePort (set_fd_ fd h) w1) as [[[[]|e| |] h2] w2];
        cbn [fst snd] in Hr; apply same_but_flow_settings in Hr;
        destruct Hr as (Hs & Hfd2 & Ho2); inversion Hrun; subst.
      * split; [apply same_settings_open, Hs|].
        split; [reflexivity|]. split; [exact Hfd|].
        split; [apply empty_false, Hp|].
        intros fuel' w3. simpl. unfold bind, member, throw.
        assert (Hport : port_ (set_is_open_ true h2) = port_ h).
        { rewrite Hs. destruct h. reflexivity. }
        rewrite Hport, Hp. reflexivity.
      * split; [exact Hs|]. rewrite Ho2. exact Ho.
      * split; [exact Hs|]. rewrite Ho2. exact Ho.
      * split; [exact Hs|]. rewrite Ho2. exact Ho.
Qed.

Lemma open_interrupted fuel (h : SerialImpl) (w : W) w1 :
  port_ h <> ""%string -> is_open_ h = false ->
  sys_open (port_ h) w = (-1, w1) -> errno w1 = EINTR ->
  open (S fuel) h w = open fuel (set_fd_ (-1) h) w1.
Proof.
  intros Hp Ho Hopen He. simpl. unfold bind, member, assign, call, throw, get_errno.
  rewrite (empty_of_nonempty _ Hp), Ho, Hopen. cbv beta iota.
  change (-1 =? -1) with true. cbv beta iota. rewrite He, Z.eqb_refl. reflexivity.
Qed.

(** X8.  When [::open] fails, [open] leaves -1 in [fd_] and the open flag
    clear.  It throws the message about file handles for ENFILE and
    EMFILE and the error number for any other error but EINTR; on EINTR it
    starts over, and no count bounds that: where every [::open] of the
    port is interrupted, no depth of recursion suffices for [open] to
    end. *)
Theorem open_failure :
  (forall fuel (h : SerialImpl) (w : W) w1,
     port_ h <> ""%string -> is_open_ h = false ->
     sys_open (port_ h) w = (-1, w1) ->
     errno w1 <> EINTR ->
     open (S fuel) h w
     = (Throws (if (errno w1 =? ENFILE) || (errno w1 =? EMFILE)
                then IOException_what "Too many file handles open."
                else IOException_errno (errno w1)),
        set_fd_ (-1) h, w1)) /\
  (forall fuel (h : SerialImpl) (w : W) w1,
     port_ h <> ""%string -> is_open_ h = false ->
     sys_open (port_ h) w = (-1, w1) ->
     errno w1 = EINTR ->
     open (S fuel) h w = open fuel (set_fd_ (-1) h) w1) /\
  (forall (h : SerialImpl),
     port_ h <> ""%string -> is_open_ h = false ->
     (forall w : W, fst (sys_open (port_ h) w) = -1 /\
                    errno (snd (sys_open (port_ h) w)) = EINTR) ->
     forall fuel w, fst (fst (open fuel h w)) = OutOfFuel).
Proof.
  split; [|split; [exact open_interrupted|]].
  - intros fuel h w w1 Hp Ho Hopen He. simpl.
    unfold bind, member, assign, call, throw, get_errno.
    rewrite (empty_of_nonempty _ Hp), Ho, Hopen. cbv beta iota.
    change (-1 =? -1) with true. cbv beta iota.
    destruct (Z.eqb_spec (errno w1) EINTR); [contradiction|].
    destruct ((errno w1 =? ENFILE) || (errno w1 =? EMFILE)); reflexivity.
  - intros h Hp Ho Hint fuel. revert h Hp Ho Hint.
    induction fuel as [|fuel IH]; intros h Hp Ho Hint w; [reflexivity|].
    destruct (Hint w) as [Hfd He].
    destruct (sys_open (port_ h) w) as [fd w1] eqn:Hopen. cbn [fst snd] in *. subst fd.
    rewrite (open_interrupted fuel h w w1 Hp Ho Hopen He).
    apply IH; assumption.
Qed.

(** X9.  When [::open] has succeeded and [reconfigurePort] throws, [open]
    throws with the descriptor still in [fd_] and the open flag clear.  The
    descriptor is not closed then or later: [close] on that handle makes
    no system call, and the next [open] puts another descriptor in its
    place. *)
Theorem open_leaks_descriptor fuel (h : SerialImpl) (w : W) fd w1 e h2 w2 :
  port_ h <> ""%string -> is_open_ h = false ->
  sys_open (port_ h) w = (fd, w1) -> fd <> -1 ->
  reconfigurePort (set_fd_ fd h) w1 = (Throws e, h2, w2) ->
  open (S fuel) h w = (Throws e, h2, w2) /\
  fd_ h2 = fd /\ is_open_ h2 = false /\
  close h2 w2 = (Returns tt, h2, w2) /\
  forall fuel' w3 fd' w4,
    sys_open (port_ h2) w3 = (fd', w4) -> fd' <> -1 ->
    fd_ (snd (fst (open (S fuel') h2 w3))) = fd'.
Proof.
  intros Hp Ho Hopen Hfd Hrec.
  pose proof (reconfigurePort_changes_flow_only (set_fd_ fd h) w1) as Hs.
  rewrite Hrec in Hs. cbn [fst snd] in Hs.
  apply same_but_flow_settings in Hs. destruct Hs as (Hs & Hfd2 & Ho2).
  rewrite Ho in Ho2.
  assert (Hport : port_ h2 = port_ h) by (rewrite Hs; destruct h; reflexivity).
  split; [|split; [exact Hfd2|split; [exact Ho2|split]]].
  - simpl. unfold bind, member, assign, call, throw, get_errno.
    rewrite (empty_of_nonempty _ Hp), Ho, Hopen. cbv beta iota.
    destruct (Z.eqb_spec fd (-1)); [contradiction|]. rewrite Hrec. reflexivity.
  - unfold close, bind, member, ret. rewrite Ho2. reflexivity.
  - intros fuel' w3 fd' w4 Hopen' Hfd'. simpl.
    unfold bind, member, assign, call, throw, get_errno.
    rewrite Hport, (empty_of_nonempty _ Hp), Ho2. rewrite Hport in Hopen'.
    rewrite Hopen'. cbv beta iota.
    destruct (Z.eqb_spec fd' (-1)); [contradiction|].
    pose proof (reconfigurePort_changes_flow_only (set_fd_ fd' h2) w4) as Hs'.
    destruct (reconfigurePort (set_fd_ fd' h2) w4) as [[[[]|e'| |] h3] w5];
      cbn [fst snd] in *; apply same_but_flow_settings in Hs';
      destruct Hs' as (_ & Hfd3 & _); exact Hfd3.
Qed.

(** The three "setup" steps on accepted settings. *)
Lemma accepted_options h options :
  accepted h = true ->
  exists o1 o2 o3,
    char_len (bytesize_ h) options = Some o1 /\
    stop_bits (stopbits_ h) o1 = Some o2 /\
    parity_bits (parity_ h) o2 = Some o3.
Proof.
  unfold accepted, char_len, stop_bits, parity_bits.
  destruct (bytesize_ h); try discriminate;
    (destruct (stopbits_ h); try discriminate);
    (destruct (parity_ h); try discriminate);
    intros _; do 3 eexists; repeat split.
Qed.

Lemma refused_options h options :
  accepted h = false ->
  match char_len (bytesize_ h) options with
  | None => True
  | Some o1 =>
      match stop_bits (stopbits_ h) o1 with
      | None => True
      | Some o2 => parity_bits (parity_ h) o2 = None
      end
  end.
Proof.
  unfold accepted, char_len, stop_bits, parity_bits.
  destruct (bytesize_ h); try exact (fun _ => I);
    (destruct (stopbits_ h); try exact (fun _ => I));
    (destruct (parity_ h); try discriminate); reflexivity.
Qed.

Lemma reconfigurePort_returns_accepted (h : SerialImpl) (w : W) h' w' :
  reconfigurePort h w = (Returns tt, h', w') ->
  fd_ h <> -1 /\ accepted h = true.
Proof.
  unfold reconfigurePort, bind, member, call, or_throw, ret, throw.
  destruct (Z.eqb_spec (fd_ h) (-1)) as [|Hfd]; [discriminate|].
  destruct (tcgetattr (fd_ h) w) as [[r options] w1].
  destruct (r =? -1); [discriminate|].
  destruct (accepted h) eqn:Hacc; [intros _; split; [exact Hfd|reflexivity]|].
  destruct (standard_baud (baudrate_ h)) as [baud|].
  - pose proof (refused_options h (set_speed (raw_mode options) baud) Hacc) as Href.
    destruct (char_len (bytesize_ h) (set_speed (raw_mode options) baud)) as [o1|];
      [|discriminate].
    destruct (stop_bits (stopbits_ h) o1) as [o2|]; [|discriminate].
    rewrite Href. discriminate.
  - pose proof (set_custom_baud_pure (fun h' => h' = h) (fd_ h) (baudrate_ h) h w1
                  eq_refl) as Hc.
    destruct (set_custom_baud (fd_ h) (baudrate_ h) h w1) as [[[[]|e| |] h1] w2];
      try discriminate.
    cbn [fst snd] in Hc. subst h1.
    pose proof (refused_options h (raw_mode options) Hacc) as Href.
    destruct (char_len (bytesize_ h) (raw_mode options)) as [o1|]; [|discriminate].
    destruct (stop_bits (stopbits_ h) o1) as [o2|]; [|discriminate].
    rewrite Href. discriminate.
Qed.

(** X10.  [reconfigurePort] checks the settings before it writes any.  A
    byte size, a number of stop bits or a parity that its tests do not
    know is refused with [invalid_argument], with the handle as it was and
    [tcsetattr] not called: for a baud rate that has a constant, in the
    world that [tcgetattr] left; for a rate without one, which goes to the
    driver before the tests, in the world that the driver's calls left.  A
    rate without a constant on a platform without custom rates is refused
    in the same way, once [tcgetattr] has been called.  And
    [reconfigurePort] returns only on settings that its tests know. *)
Theorem reconfigurePort_rejects_before_writing :
  (forall (h : SerialImpl) (w : W) r options w1 baud,
     fd_ h <> -1 ->
     tcgetattr (fd_ h) w = ((r, options), w1) -> r <> -1 ->
     standard_baud (baudrate_ h) = Some baud ->
     accepted h = false ->
     exists what, reconfigurePort h w = (Throws (invalid_argument what), h, w1)) /\
  (forall (h : SerialImpl) (w : W) r options w1 h1 w2,
     fd_ h <> -1 ->
     tcgetattr (fd_ h) w = ((r, options), w1) -> r <> -1 ->
     standard_baud (baudrate_ h) = None ->
     set_custom_baud (fd_ h) (baudrate_ h) h w1 = (Returns tt, h1, w2) ->
     accepted h = false ->
     exists what, reconfigurePort h w = (Throws (invalid_argument what), h, w2)) /\
  (forall (h : SerialImpl) (w : W) r options w1,
     fd_ h <> -1 ->
     tcgetattr (fd_ h) w = ((r, options), w1) -> r <> -1 ->
     standard_baud (baudrate_ h) = None ->
     custom_baud = custom_baud_unsupported ->
     reconfigurePort h w
     = (Throws (invalid_argument "OS does not currently support custom bauds"), h, w1)) /\
  (forall (h : SerialImpl) (w : W) h' w',
     reconfigurePort h w = (Returns tt, h', w') ->
     fd_ h <> -1 /\ accepted h = true).
Proof.
  split; [|split; [|split]].
  - intros h w r options w1 baud Hfd Htc Hr Hbaud Hacc.
    unfold reconfigurePort, bind, member, call, or_throw, ret, throw.
    destruct (Z.eqb_spec (fd_ h) (-1)); [contradiction|]. rewrite Htc.
    destruct (Z.eqb_spec r (-1)); [contradiction|]. rewrite Hbaud.
    pose proof (refused_options h (set_speed (raw_mode options) baud) Hacc) as Href.
    destruct (char_len (bytesize_ h) (set_speed (raw_mode options) baud)) as [o1|];
      [|eexists; reflexivity].
    destruct (stop_bits (stopbits_ h) o1) as [o2|]; [|eexists; reflexivity].
    rewrite Href. eexists; reflexivity.
  - intros h w r options w1 h1 w2 Hfd Htc Hr Hbaud Hcustom Hacc.
    pose proof (set_custom_baud_pure (fun h' => h' = h) (fd_ h) (baudrate_ h) h w1
                  eq_refl) as Hc.
    rewrite Hcustom in Hc. cbn [fst snd] in Hc. subst h1.
    unfold reconfigurePort, bind, member, call, or_throw, ret, throw.
    destruct (Z.eqb_spec (fd_ h) (-1)); [contradiction|]. rewrite Htc.
    destruct (Z.eqb_spec r (-1)); [contradiction|]. rewrite Hbaud, Hcustom.
    pose proof (refused_options h (raw_mode options) Hacc) as Href.
    destruct (char_len (bytesize_ h) (raw_mode options)) as [o1|];
      [|eexists; reflexivity].
    destruct (stop_bits (stopbits_ h) o1) as [o2|]; [|eexists; reflexivity].
    rewrite Href. eexists; reflexivity.
  - intros h w r options w1 Hfd Htc Hr Hbaud Hcustom.
    unfold reconfigurePort, bind, member, call, or_throw, ret, throw.
    destruct (Z.eqb_spec (fd_ h) (-1)); [contradiction|]. rewrite Htc.
    destruct (Z.eqb_spec r (-1)); [contradiction|]. rewrite Hbaud.
    unfold set_custom_baud. rewrite Hcustom. reflexivity.
  - exact reconfigurePort_returns_accepted.
Qed.

(** X11.  On a descriptor whose attributes [tcgetattr] delivers, with a
    baud rate that has a constant and settings that the tests know,
    [reconfigurePort] returns, with the flow-control mode resolved, in the
    world that [tcsetattr] left: whatever [tcsetattr] answered, for its
    result is not looked at. *)
Theorem reconfigurePort_returns_on_accepted_settings
    (h : SerialImpl) (w : W) r options w1 baud :
  fd_ h <> -1 ->
  tcgetattr (fd_ h) w = ((r, options), w1) -> r <> -1 ->
  standard_baud (baudrate_ h) = Some baud ->
  accepted h = true ->
  exists o,
    reconfigurePort h w
    = (Returns tt, flow_of (flowcontrol_ h) h, snd (tcsetattr (fd_ h) o w1)).
Proof.
  intros Hfd Htc Hr Hbaud Hacc.
  unfold reconfigurePort, bind, member, call, or_throw, ret, throw.
  destruct (Z.eqb_spec (fd_ h) (-1)); [contradiction|]. rewrite Htc.
  destruct (Z.eqb_spec r (-1)); [contradiction|]. rewrite Hbaud.
  destruct (accepted_options h (set_speed (raw_mode options) baud) Hacc)
    as (o1 & o2 & o3 & H1 & H2 & H3).
  rewrite H1, H2, H3, resolve_flowcontrol_result.
  match goal with
  | |- context [tcsetattr ?fd ?o ?x] =>
      exists o; destruct (tcsetattr fd o x) as [r2 w4]
  end.
  reflexivity.
Qed.

Lemma land_flag_or flags m : Z.land (flag_or flags m) m = to_tcflag m.
Proof.
  apply Z.bits_inj'. intros n Hn. unfold flag_or, to_tcflag. rewrite Z.land_spec.
  destruct (Z.lt_ge_cases n 32).
  - rewrite !Z.mod_pow2_bits_low, Z.lor_spec by lia.
    destruct (Z.testbit flags n), (Z.testbit m n); reflexivity.
  - rewrite !Z.mod_pow2_bits_high by lia. reflexivity.
Qed.

Lemma land_flag_andnot flags m : Z.land (flag_andnot flags m) m = 0.
Proof.
  apply Z.bits_inj'. intros n Hn. unfold flag_andnot, to_tcflag.
  rewrite Z.land_spec, Z.bits_0.
  destruct (Z.lt_ge_cases n 32).
  - rewrite Z.mod_pow2_bits_low, Z.land_spec, Z.lnot_spec by lia.
    destruct (Z.testbit flags n), (Z.testbit m n); reflexivity.
  - rewrite Z.mod_pow2_bits_high by lia. reflexivity.
Qed.

Lemma polling_read_zero (i : nat) (cc : list Z) x :
  i = VMIN \/ i = VTIME ->
  <[VTIME := 0]> (<[VMIN := 0]> cc) !! i = Some x -> x = 0.
Proof.
  intros Hi Hx. apply list_lookup_insert_Some in Hx.
  destruct Hx as [(_ & Hx & _)|[Hne Hx]]; [symmetry; exact Hx|].
  apply list_lookup_insert_Some in Hx.
  destruct Hx as [(_ & Hx & _)|[Hne' Hx]]; [symmetry; exact Hx|].
  destruct Hi; congruence.
Qed.

(** X12.  The options that [reconfigurePort] hands to [tcsetattr] when it
    returns ask for a polling read, with [VMIN] and [VTIME] at 0, and
    carry the flow control of the mode stored in the handle: IXON and
    IXOFF for software flow control and none of IXON, IXOFF and IXANY
    otherwise, CRTSCTS for hardware flow control and not otherwise.  A
    mode outside the enumeration is not refused: it leaves the two
    booleans, and with them the bits, as the last mode set them. *)
Theorem tcsetattr_gets_flow_and_polling (h : SerialImpl) (w : W) h' w' :
  reconfigurePort h w = (Returns tt, h', w') ->
  exists options w1,
    w' = snd (tcsetattr (fd_ h) options w1) /\
    (forall x, c_cc options !! VMIN = Some x -> x = 0) /\
    (forall x, c_cc options !! VTIME = Some x -> x = 0) /\
    (if xonxoff_ h'
     then Z.land (c_iflag options) (Z.lor IXON IXOFF) = to_tcflag (Z.lor IXON IXOFF)
     else Z.land (c_iflag options) (Z.lor IXON (Z.lor IXOFF (opt_bits IXANY))) = 0) /\
    (if rtscts_ h'
     then Z.land (c_cflag options) CRTSCTS = to_tcflag CRTSCTS
     else Z.land (c_cflag options) CRTSCTS = 0) /\
    match flowcontrol_ h with
    | flowcontrol_none => xonxoff_ h' = false /\ rtscts_ h' = false
    | flowcontrol_software => xonxoff_ h' = true /\ rtscts_ h' = false
    | flowcontrol_hardware => xonxoff_ h' = false /\ rtscts_ h' = true
    | flowcontrol_out_of_enum => xonxoff_ h' = xonxoff_ h /\ rtscts_ h' = rtscts_ h
    end.
Proof.
  intros Hrun. destruct (reconfigurePort_applies_flow h w h' w' Hrun)
    as (Hh & options & w1 & Hw).
  exists (polling_read (flow_bits (xonxoff_ h') (rtscts_ h') options)), w1.
  split; [exact Hw|].
  split; [intros x; apply polling_read_zero; left; reflexivity|].
  split; [intros x; apply polling_read_zero; right; reflexivity|].
  split; [|split].
  - unfold polling_read, flow_bits.
    destruct (xonxoff_ h'), (rtscts_ h'); cbn [c_iflag set_c_cc set_c_cflag set_c_iflag];
      first [apply land_flag_or | apply land_flag_andnot].
  - unfold polling_read, flow_bits.
    destruct (xonxoff_ h'), (rtscts_ h');
      cbn [c_cflag c_iflag set_c_cc set_c_cflag set_c_iflag];
      first [apply land_flag_or | apply land_flag_andnot].
  - rewrite Hh. destruct h as [? ? ? ? ? ? ? ? ? ? ? ? ? ? ? []]; split; reflexivity.
Qed.

Lemma reconfigure_if_open_frame h0 : keeps (same_but_flow h0) reconfigure_if_open.
Proof.
  unfold reconfigure_if_open. repeat first [apply reconfigurePort_frame | pure_step].
Qed.

Lemma setter_stores A (f : A -> SerialImpl -> SerialImpl) (g : SerialImpl -> A) :
  (forall v h, g (f v h) = v) ->
  (forall x r h, g (with_flow x r h) = g h) ->
  forall v (h : SerialImpl) (w : W) o h' w',
    bind (assign (f v)) (fun _ => reconfigure_if_open) h w = (o, h', w') ->
    member g h' w' = (Returns v, h', w') /\ same_but_flow (f v h) h'.
Proof.
  intros Hg Hflow v h w o h' w' Hrun.
  assert (Hs : same_but_flow (f v h) h').
  { pose proof (reconfigure_if_open_frame (f v h) (f v h) w (same_but_flow_refl _))
      as Hs.
    unfold bind, assign in Hrun. rewrite Hrun in Hs. exact Hs. }
  split; [|exact Hs].
  assert (Hv : g h' = v).
  { unfold same_but_flow in Hs. rewrite Hs, Hflow. apply Hg. }
  unfold member. rewrite Hv. reflexivity.
Qed.

(** X13.  The five setters that reconfigure store their argument before
    they do, and [reconfigurePort] leaves it alone: whether the setter
    returns or throws, the getter returns the value passed, and nothing
    else on the handle has changed but the two flow-control booleans. *)
Theorem setters_store_before_reconfiguring (h : SerialImpl) (w : W) :
  (forall v o h' w', setBaudrate v h w = (o, h', w') ->
     getBaudrate h' w' = (Returns v, h', w') /\ same_but_flow (set_baudrate_ v h) h') /\
  (forall v o h' w', setBytesize v h w = (o, h', w') ->
     getBytesize h' w' = (Returns v, h', w') /\ same_but_flow (set_bytesize_ v h) h') /\
  (forall v o h' w', setParity v h w = (o, h', w') ->
     getParity h' w' = (Returns v, h', w') /\ same_but_flow (set_parity_ v h) h') /\
  (forall v o h' w', setStopbits v h w = (o, h', w') ->
     getStopbits h' w' = (Returns v, h', w') /\ same_but_flow (set_stopbits_ v h) h') /\
  (forall v o h' w', setFlowcontrol v h w = (o, h', w') ->
     getFlowcontrol h' w' = (Returns v, h', w') /\
     same_but_flow (set_flowcontrol_ v h) h').
Proof.
  split; [|split; [|split; [|split]]]; intros v o h' w'.
  - apply (setter_stores Z set_baudrate_ baudrate_); intros; reflexivity.
  - apply (setter_stores bytesize_t set_bytesize_ bytesize_); intros; reflexivity.
  - apply (setter_stores parity_t set_parity_ parity_); intros; reflexivity.
  - apply (setter_stores stopbits_t set_stopbits_ stopbits_); intros; reflexivity.
  - apply (setter_stores flowcontrol_t set_flowcontrol_ flowcontrol_);
      intros; reflexivity.
Qed.



(** X15.  On a closed handle [available], [read], [write] and the five
    setters that reconfigure make no system call.  [available] returns 0
    and does not throw; [read] and [write] throw [PortNotOpenedException];
    and the setters only store their argument, without a test of it: a
    value that [reconfigurePort] refuses is accepted here, and [open] does
    not return on a handle that holds one. *)
Theorem closed_handle_makes_no_system_call (h : SerialImpl) (w : W) :
  is_open_ h = false ->
  available h w = (Returns 0, h, w) /\
  (forall fuel size,
     read fuel size h w = (Throws (PortNotOpenedException "Serial::read"), h, w)) /\
  (forall fuel length,
     write fuel length h w = (Throws (PortNotOpenedException "Serial::write"), h, w)) /\
  (forall v, setBaudrate v h w = (Returns tt, set_baudrate_ v h, w)) /\
  (forall v, setBytesize v h w = (Returns tt, set_bytesize_ v h, w)) /\
  (forall v, setParity v h w = (Returns tt, set_parity_ v h, w)) /\
  (forall v, setStopbits v h w = (Returns tt, set_stopbits_ v h, w)) /\
  (forall v, setFlowcontrol v h w = (Returns tt, set_flowcontrol_ v h, w)) /\
  (forall fuel (h0 : SerialImpl) (w0 : W) h1 w1,
     accepted h0 = false -> open fuel h0 w0 <> (Returns tt, h1, w1)).
Proof.
  intros Ho.
  assert (Hset : forall f, is_open_ (f h) = false ->
            bind (assign f) (fun _ => reconfigure_if_open) h w = (Returns tt, f h, w)).
  { intros f Hf. cbv [bind assign reconfigure_if_open member ret]. rewrite Hf.
    reflexivity. }
  split. { unfold available, bind, member, ret. rewrite Ho. reflexivity. }
  split. { intros. unfold read, bind, member, throw. rewrite Ho. reflexivity. }
  split. { intros. unfold write, bind, member, throw. rewrite Ho. reflexivity. }
  do 5 (split; [intros v; apply Hset; exact Ho|]).
  clear. induction fuel as [|fuel IH]; intros h0 w0 h1 w1 Hacc; [discriminate|].
  simpl. unfold bind, member, assign, call, throw, get_errno.
  destruct (empty (port_ h0)); [discriminate|].
  destruct (is_open_ h0); [discriminate|].
  destruct (sys_open (port_ h0) w0) as [fd w2].
  destruct (fd =? -1).
  - destruct (errno w2 =? EINTR); [apply IH; exact Hacc|].
    destruct ((errno w2 =? ENFILE) || (errno w2 =? EMFILE)); discriminate.
  - destruct (reconfigurePort (set_fd_ fd h0) w2) as [[[[]|e| |] h2] w3] eqn:Hrec;
      try discriminate.
    apply reconfigurePort_returns_accepted in Hrec. destruct Hrec as [_ Hrec].
    change (accepted (set_fd_ fd h0)) with (accepted h0) in Hrec. congruence.
Qed.

(** ** read and write at their edges *)

Lemma to_size_t_range z : 0 <= to_size_t z < 2 ^ 64.
Proof. unfold to_size_t. apply Z.mod_pos_bound. lia. Qed.

(** The count that a loop returns is the one it started from or lies
    between 0 and the size. *)
Lemma read_loop_bounded fuel : forall endtime size n (h : SerialImpl) (w : W) m h' w',
  read_loop fuel endtime size n h w = (Returns m, h', w') ->
  m = n \/ 0 <= m <= size.
Proof.
  induction fuel as [|fuel IH]; intros endtime size n h w m h' w'; simpl.
  - destruct (negb (n <? size)); [|discriminate].
    intros Hrun; inversion Hrun; left; reflexivity.
  - destruct (Z.ltb_spec n size) as [Hn|Hn]; cbn [negb];
      [|intros Hrun; inversion Hrun; left; reflexivity].
    unfold bind, timespec_now, call, member, get_errno, throw, ret.
    destruct (clock_gettime w) as [now w1].
    destruct (pselect_read _ _ w1) as [[r fd_isset] w2].
    destruct (r <? 0).
    { destruct (errno w2 =? EINTR); [apply IH|discriminate]. }
    destruct (r =? 0); [intros Hrun; inversion Hrun; left; reflexivity|].
    destruct fd_isset; [|discriminate].
    destruct (sys_read _ _ w2) as [k w3].
    destruct (k <? 1); [discriminate|]. cbv zeta.
    pose proof (to_size_t_range (n + to_size_t k)) as Hk.
    destruct (Z.eqb_spec (to_size_t (n + to_size_t k)) size) as [He|He].
    { intros Hrun; inversion Hrun; subst. right. lia. }
    destruct (Z.ltb_spec (to_size_t (n + to_size_t k)) size); [|discriminate].
    intros Hrun. apply IH in Hrun. right. lia.
Qed.

Lemma write_loop_bounded fuel : forall endtime length n (h : SerialImpl) (w : W) m h' w',
  write_loop fuel endtime length n h w = (Returns m, h', w') ->
  m = n \/ 0 <= m <= length.
Proof.
  induction fuel as [|fuel IH]; intros endtime length n h w m h' w'; simpl.
  - destruct (negb (n <? length)); [|discriminate].
    intros Hrun; inversion Hrun; left; reflexivity.
  - destruct (Z.ltb_spec n length) as [Hn|Hn]; cbn [negb];
      [|intros Hrun; inversion Hrun; left; reflexivity].
    unfold bind, timespec_now, call, member, get_errno, throw, ret.
    destruct (clock_gettime w) as [now w1].
    destruct (pselect_write _ _ w1) as [[r fd_isset] w2].
    destruct (r <? 0).
    { destruct (errno w2 =? EINTR); [apply IH|discriminate]. }
    destruct (r =? 0); [intros Hrun; inversion Hrun; left; reflexivity|].
    destruct fd_isset; [|discriminate].
    destruct (sys_write _ _ w2) as [k w3].
    destruct (k <? 1); [discriminate|]. cbv zeta.
    pose proof (to_size_t_range (n + to_size_t k)) as Hk.
    destruct (Z.eqb_spec (to_size_t (n + to_size_t k)) length) as [He|He].
    { intros Hrun; inversion Hrun; subst. right. lia. }
    destruct (Z.ltb_spec (to_size_t (n + to_size_t k)) length); [|discriminate].
    intros Hrun. apply IH in Hrun. right. lia.
Qed.

(** X16.  [read], [write] and [available] assign no field of the handle,
    however they end.  A [write] that returns has written at most [length]
    bytes, whatever [::write] reported; a [read] that returns has read at
    most [size] bytes, provided [::read] never reports more bytes than it
    was asked for, which the first [::read] of [read] relies on. *)
Theorem transfers_are_bounded_and_keep_the_handle :
  (forall fuel n (h : SerialImpl) (w : W),
     snd (fst (read fuel n h w)) = h /\ snd (fst (write fuel n h w)) = h /\
     snd (fst (available h w)) = h) /\
  (forall fuel length (h : SerialImpl) (w : W) m h' w',
     0 <= length ->
     write fuel length h w = (Returns m, h', w') -> 0 <= m <= length) /\
  (forall fuel size (h : SerialImpl) (w : W) m h' w',
     0 <= size ->
     (forall fd count (w0 : W), fst (sys_read fd count w0) <= count) ->
     read fuel size h w = (Returns m, h', w') -> 0 <= m <= size).
Proof.
  split; [|split].
  - intros fuel n h w. split; [|split].
    + apply (read_pure (fun h' => h' = h)). reflexivity.
    + apply (write_pure (fun h' => h' = h)). reflexivity.
    + apply (available_pure (fun h' => h' = h)). reflexivity.
  - intros fuel length h w m h' w' Hl. unfold write, bind, member, throw, timespec_now, call.
    destruct (negb (is_open_ h)); [discriminate|].
    destruct (clock_gettime w) as [now w1].
    intros Hrun. apply write_loop_bounded in Hrun. lia.
  - intros fuel size h w m h' w' Hs Hread.
    unfold read, bind, member, throw, timespec_now, call, ret.
    destruct (negb (is_open_ h)); [discriminate|].
    destruct (clock_gettime w) as [now w1].
    destruct (available h w1) as [[[avail|e| |] h1] w2]; try discriminate.
    destruct (0 <? avail).
    + pose proof (Hread (fd_ h1) size w2) as Hk.
      destruct (sys_read (fd_ h1) size w2) as [k w3]. cbn [fst] in Hk.
      destruct (Z.ltb_spec k 1); [discriminate|].
      intros Hrun. apply read_loop_bounded in Hrun.
      assert (Hid : to_size_t (0 + to_size_t k) = k \/ size >= 2 ^ 64).
      { destruct (Z_lt_le_dec size (2 ^ 64)); [left|right; lia].
        rewrite Z.add_0_l. rewrite (to_size_t_id k) by lia. apply to_size_t_id. lia. }
      destruct Hid as [Hid|Hbig]; [rewrite Hid in Hrun; lia|].
      pose proof (to_size_t_range (0 + to_size_t k)). lia.
    + intros Hrun. apply read_loop_bounded in Hrun. lia.
Qed.

(** X17.  Transfers of no bytes.  [write] of 0 bytes reads the clock and
    returns 0.  [read] of 0 bytes returns 0 when the input queue is
    empty; when bytes are waiting it calls [::read] for 0 bytes, takes the
    0 that comes back for a disconnected device, and throws. *)
Theorem transfers_of_nothing fuel (h : SerialImpl) (w : W) now w1 :
  is_open_ h = true ->
  clock_gettime w = (now, w1) ->
  write fuel 0 h w = (Returns 0, h, w1) /\
  (forall count w2,
     ioctl_TIOCINQ (fd_ h) w1 = ((0, count), w2) -> to_size_t count = 0 ->
     read fuel 0 h w = (Returns 0, h, w2)) /\
  (forall count w2 k w3,
     ioctl_TIOCINQ (fd_ h) w1 = ((0, count), w2) -> 0 < to_size_t count ->
     sys_read (fd_ h) 0 w2 = (k, w3) -> k <= 0 ->
     read fuel 0 h w = (Throws no_data_read, h, w3)).
Proof.
  intros Ho Hnow. split; [|split].
  - unfold write.
    cbv beta iota zeta delta [bind timespec_now call member throw ret id].
    rewrite Ho. cbv beta iota delta [negb]. rewrite Hnow. cbv beta iota.
    apply write_loop_done. lia.
  - intros count w2 Hinq Hz. unfold read.
    cbv beta iota zeta delta [bind timespec_now call member available get_errno throw ret id].
    rewrite Ho. cbv beta iota delta [negb]. rewrite Hnow. cbv beta iota.
    rewrite Ho. cbv beta iota delta [negb]. rewrite Hinq. cbv beta iota.
    change (0 =? 0) with true. cbv beta iota. rewrite Hz.
    change (0 <? 0) with false. cbv beta iota.
    apply read_loop_done. lia.
  - intros count w2 k w3 Hinq Hz Hrd Hk. unfold read.
    cbv beta iota zeta delta [bind timespec_now call member available get_errno throw ret id].
    rewrite Ho. cbv beta iota delta [negb]. rewrite Hnow. cbv beta iota.
    rewrite Ho. cbv beta iota delta [negb]. rewrite Hinq. cbv beta iota.
    change (0 =? 0) with true. cbv beta iota.
    destruct (Z.ltb_spec 0 (to_size_t count)); [|lia].
    rewrite Hrd. destruct (Z.ltb_spec k 1); [reflexivity|lia].
Qed.

(** ** What holds of every handle a program can hold *)

(** The five cached timespecs are those that [setTimeout] computes from
    the profile in [timeout_], the read multiplier from the read
    constant. *)
Definition caches_follow_profile (h : SerialImpl) : Prop :=
  inter_byte_timeout_ h = timespec_from_millis (inter_byte_timeout (timeout_ h)) /\
  read_timeout_constant_ h = timespec_from_millis (read_timeout_constant (timeout_ h)) /\
  read_timeout_multiplier_ h
  = timespec_from_millis (read_timeout_constant (timeout_ h)) /\
  write_timeout_constant_ h
  = timespec_from_millis (write_timeout_constant (timeout_ h)) /\
  write_timeout_multiplier_ h
  = timespec_from_millis (write_timeout_multiplier (timeout_ h)).

Section Frame.

(** A property of the handle that the descriptor, the open flag and the
    two flow-control booleans have no part in. *)
Variable I : SerialImpl -> Prop.
Hypothesis I_fd : forall v h, I h -> I (set_fd_ v h).
Hypothesis I_open : forall v h, I h -> I (set_is_open_ v h).
Hypothesis I_xonxoff : forall v h, I h -> I (set_xonxoff_ v h).
Hypothesis I_rtscts : forall v h, I h -> I (set_rtscts_ v h).

Ltac frame_step :=
  first
    [ apply keeps_assign; intros ? ?;
      first [apply I_fd | apply I_open | apply I_xonxoff | apply I_rtscts]; assumption
    | pure_step ].

Lemma resolve_flowcontrol_framed : keeps (W := W) I resolve_flowcontrol.
Proof. unfold resolve_flowcontrol. repeat frame_step. Qed.

Lemma reconfigurePort_framed : keeps I reconfigurePort.
Proof.
  unfold reconfigurePort, or_throw.
  repeat first [apply set_custom_baud_pure | apply resolve_flowcontrol_framed
               | frame_step].
Qed.

Lemma reconfigure_if_open_framed : keeps I reconfigure_if_open.
Proof.
  unfold reconfigure_if_open. repeat first [apply reconfigurePort_framed | frame_step].
Qed.

Lemma open_framed fuel : keeps I (open fuel).
Proof.
  induction fuel as [|fuel IH]; simpl; [apply keeps_out_of_fuel|].
  repeat first [apply IH | apply reconfigurePort_framed | frame_step].
Qed.

Lemma close_framed : keeps I close.
Proof. unfold close. repeat frame_step. Qed.

End Frame.

Lemma setTimeout_caches timeout (h : SerialImpl) (w : W) :
  caches_follow_profile (snd (fst (setTimeout timeout h w))).
Proof. repeat split. Qed.

Lemma caches_fd v h : caches_follow_profile h -> caches_follow_profile (set_fd_ v h).
Proof. intros H; exact H. Qed.

Lemma caches_open v h :
  caches_follow_profile h -> caches_follow_profile (set_is_open_ v h).
Proof. intros H; exact H. Qed.

Lemma caches_xonxoff v h :
  caches_follow_profile h -> caches_follow_profile (set_xonxoff_ v h).
Proof. intros H; exact H. Qed.

Lemma caches_rtscts v h :
  caches_follow_profile h -> caches_follow_profile (set_rtscts_ v h).
Proof. intros H; exact H. Qed.

Lemma perform_caches op : keeps caches_follow_profile (perform op).
Proof.
  pose proof (reconfigure_if_open_framed _ caches_xonxoff caches_rtscts) as Hrec.
  destruct op; simpl.
  - apply (open_framed _ caches_fd caches_open caches_xonxoff caches_rtscts).
  - apply (close_framed _ caches_fd caches_open).
  - apply (reconfigurePort_framed _ caches_xonxoff caches_rtscts).
  - apply keeps_assign. intros h H; exact H.
  - intros h w _. apply setTimeout_caches.
  - apply keeps_bind; [apply keeps_assign; intros h H; exact H|intros _; exact Hrec].
  - apply keeps_bind; [apply keeps_assign; intros h H; exact H|intros _; exact Hrec].
  - apply keeps_bind; [apply keeps_assign; intros h H; exact H|intros _; exact Hrec].
  - apply keeps_bind; [apply keeps_assign; intros h H; exact H|intros _; exact Hrec].
  - apply keeps_bind; [apply keeps_assign; intros h H; exact H|intros _; exact Hrec].
  - apply keeps_bind; [apply read_pure|intros _; apply keeps_ret].
  - apply keeps_bind; [apply write_pure|intros _; apply keeps_ret].
Qed.

Lemma with_timeout_caches timeout h : caches_follow_profile (with_timeout timeout h).
Proof. repeat split. Qed.

Lemma ctor_after_setTimeout fuel (h : SerialImpl) (w : W) :
  SerialImpl_ctor fuel h w
  = (if negb (empty (port_ h)) then open fuel else ret tt)
      (with_timeout zero_timeout h) w.
Proof.
  unfold SerialImpl_ctor, setTimeout, with_timeout. cbv [bind assign member].
  reflexivity.
Qed.

Lemma ctor_caches fuel (h : SerialImpl) (w : W) :
  caches_follow_profile (snd (fst (SerialImpl_ctor fuel h w))).
Proof.
  rewrite ctor_after_setTimeout.
  pose proof (with_timeout_caches zero_timeout h) as Hs.
  revert Hs. generalize (with_timeout zero_timeout h). intros h1 Hs.
  destruct (negb (empty (port_ h))).
  - apply (open_framed _ caches_fd caches_open caches_xonxoff caches_rtscts). exact Hs.
  - exact Hs.
Qed.

Lemma constructed_caches fuel port baudrate bytesize parity stopbits flowcontrol
    (w : W) :
  caches_follow_profile
    (snd (fst (construct fuel port baudrate bytesize parity stopbits flowcontrol w))).
Proof. unfold construct. apply ctor_caches. Qed.

Lemma reachable_caches h : reachable h -> caches_follow_profile h.
Proof.
  induction 1 as [fuel port baudrate bytesize parity stopbits flowcontrol w h w' Hc
                 |op h w o h' w' Hr IH Hp].
  - pose proof (constructed_caches fuel port baudrate bytesize parity stopbits
                  flowcontrol w) as H.
    rewrite Hc in H. exact H.
  - pose proof (perform_caches op h w IH) as H. rewrite Hp in H. exact H.
Qed.

Lemma from_millis_in_range millis :
  0 <= tv_nsec (timespec_from_millis millis) < 1000000000.
Proof.
  unfold timespec_from_millis, normalize.
  apply normalize_carry_in_range, normalize_borrow_nonnegative.
  cbn [tv_nsec]. apply to_long_range.
Qed.

(** X18.  On every handle that a constructor call has returned and member
    functions have been called on, whether they returned or threw, the
    five cached timespecs are those of the profile that [getTimeout]
    returns, with the read multiplier computed from the read constant;
    and each of them has its nanoseconds in [0, 1e9). *)
Theorem caches_follow_the_profile h :
  reachable h ->
  caches_follow_profile h /\
  Forall (fun ts => 0 <= tv_nsec ts < 1000000000)
    [inter_byte_timeout_ h; read_timeout_constant_ h; read_timeout_multiplier_ h;
     write_timeout_constant_ h; write_timeout_multiplier_ h].
Proof.
  intros Hr. pose proof (reachable_caches h Hr) as Hc. split; [exact Hc|].
  destruct Hc as (-> & -> & -> & -> & ->).
  repeat constructor; apply from_millis_in_range.
Qed.

End Edges.

(** ** The deadlines of read and write *)

Lemma operator_times_exact ts mul :
  0 <= tv_nsec ts < 1000000000 -> 0 <= tv_sec ts < 2 ^ 32 -> 0 <= mul <= 9000000 ->
  0 <= tv_nsec (operator_times ts mul) < 1000000000 /\
  0 <= tv_sec (operator_times ts mul) < 2 ^ 56 /\
  total_ns (operator_times ts mul) = total_ns ts * mul.
Proof.
  intros Hn Hs Hm. unfold operator_times. rewrite !to_long_times.
  assert (Hsm : 0 <= tv_sec ts * mul <= 2 ^ 32 * 9000000) by nia.
  assert (Hnm : 0 <= tv_nsec ts * mul <= 999999999 * 9000000) by nia.
  rewrite !to_long_id by lia.
  assert (Hq : 0 <= tv_nsec ts * mul / 1000000000 <= 9000000).
  { split; [apply Z.div_pos; lia|]. apply Z.div_le_upper_bound; lia. }
  assert (Hd : fits_double (tv_nsec ts * mul)) by (unfold fits_double; lia).
  assert (Ho : no_overflow (mk_timespec (tv_sec ts * mul) (tv_nsec ts * mul)))
    by (unfold no_overflow, in_long; cbn [tv_sec tv_nsec]; lia).
  destruct (normalize_sound (mk_timespec (tv_sec ts * mul) (tv_nsec ts * mul)) Hd Ho)
    as [Hr Ht].
  split; [exact Hr|]. split.
  - rewrite normalize_closed by assumption. cbn [tv_sec tv_nsec]. lia.
  - rewrite Ht. unfold total_ns. cbn [tv_sec tv_nsec]. lia.
Qed.

Lemma from_millis_normal millis :
  0 <= millis < 2 ^ 32 ->
  0 <= tv_nsec (timespec_from_millis millis) < 1000000000 /\
  0 <= tv_sec (timespec_from_millis millis) < 2 ^ 32 /\
  total_ns (timespec_from_millis millis) = millis * 1000000.
Proof.
  intros Hm. rewrite (from_millis_closed millis Hm). unfold total_ns.
  cbn [tv_sec tv_nsec].
  pose proof (Z.mod_pos_bound millis 1000 ltac:(lia)).
  pose proof (Z.div_mod millis 1000 ltac:(lia)).
  assert (0 <= millis / 1000 < 2 ^ 32).
  { split; [apply Z.div_pos; lia|]. apply Z.div_lt_upper_bound; lia. }
  lia.
Qed.

Lemma deadline_sum now c t :
  normal now ->
  0 <= tv_nsec c < 1000000000 -> 0 <= tv_sec c < 2 ^ 32 ->
  0 <= tv_nsec t < 1000000000 -> 0 <= tv_sec t < 2 ^ 56 ->
  0 <= tv_nsec (operator_plus (operator_plus now c) t) < 1000000000 /\
  total_ns (operator_plus (operator_plus now c) t) = total_ns now + total_ns c + total_ns t.
Proof.
  intros [Hnow Hsec] Hc1 Hc2 Ht1 Ht2.
  destruct (operator_plus_normal now c Hnow Hc1 ltac:(lia)) as [Hp1 Hp2].
  revert Hp1 Hp2. generalize (operator_plus now c). intros p Hp1 Hp2.
  assert (Hp3 : tv_sec now + tv_sec c <= tv_sec p <= tv_sec now + tv_sec c + 1).
  { unfold total_ns in Hp2. lia. }
  destruct (operator_plus_normal p t Hp1 Ht1 ltac:(lia)) as [Hq1 Hq2].
  split; [exact Hq1|]. rewrite Hq2, Hp2. reflexivity.
Qed.

Lemma deadline_exact now constant multiplier n :
  normal now ->
  0 <= constant < 2 ^ 32 -> 0 <= multiplier < 2 ^ 32 -> 0 <= n <= 9000000 ->
  let endtime :=
    operator_plus (operator_plus now (timespec_from_millis constant))
                  (operator_times (timespec_from_millis multiplier) n) in
  0 <= tv_nsec endtime < 1000000000 /\
  total_ns endtime = total_ns now + (constant + multiplier * n) * 1000000.
Proof.
  intros Hnow Hc Hm Hn.
  destruct (from_millis_normal constant Hc) as (Hc1 & Hc2 & Hc3).
  destruct (from_millis_normal multiplier Hm) as (Hm1 & Hm2 & Hm3).
  destruct (operator_times_exact (timespec_from_millis multiplier) n Hm1 Hm2 Hn)
    as (Ht1 & Ht2 & Ht3).
  destruct (deadline_sum now _ _ Hnow Hc1 Hc2 Ht1 Ht2) as [Hq1 Hq2].
  cbv zeta. split; [exact Hq1|]. rewrite Hq2, Ht3, Hc3, Hm3. ring.
Qed.

Section Deadlines.

Context {P : Platform} {W : Type} {os : Posix W}.

(** X19.  On a reachable handle, for a start time in normal form and a
    transfer of up to nine million bytes, the deadlines are computed
    without loss: that of [write] lies the write constant and the write
    multiplier times the length after the start, that of [read] the read
    constant and, in place of the read multiplier, the read constant
    times the size. *)
Theorem deadlines_are_exact (h : SerialImpl) now n :
  reachable (W := W) h -> normal now -> 0 <= n <= 9000000 ->
  (0 <= read_timeout_constant (timeout_ h) < 2 ^ 32 ->
   0 <= tv_nsec (read_endtime h now n) < 1000000000 /\
   total_ns (read_endtime h now n)
   = total_ns now
     + (read_timeout_constant (timeout_ h) + read_timeout_constant (timeout_ h) * n)
       * 1000000) /\
  (0 <= write_timeout_constant (timeout_ h) < 2 ^ 32 ->
   0 <= write_timeout_multiplier (timeout_ h) < 2 ^ 32 ->
   0 <= tv_nsec (write_endtime h now n) < 1000000000 /\
   total_ns (write_endtime h now n)
   = total_ns now
     + (write_timeout_constant (timeout_ h) + write_timeout_multiplier (timeout_ h) * n)
       * 1000000).
Proof.
  intros Hr Hnow Hn. destruct (reachable_caches h Hr) as (_ & Hrc & Hrm & Hwc & Hwm).
  split.
  - intros Hc. unfold read_endtime. rewrite Hrc, Hrm.
    apply deadline_exact; assumption.
  - intros Hc Hm. unfold write_endtime. rewrite Hwc, Hwm.
    apply deadline_exact; assumption.
Qed.

(** X20.  A reachable handle whose open flag is set holds a descriptor:
    [fd_] is not -1.  The flag is set by [open] alone, once [::open] has
    delivered a descriptor, and [close] clears it with the descriptor. *)
Theorem open_handle_holds_descriptor (h : SerialImpl) :
  reachable (W := W) h -> is_open_ h = true -> fd_ h <> -1.
Proof. intros Hr. exact (reachable_open_has_fd h Hr). Qed.

End Deadlines.

(** ** The character format that reaches the line *)

(** A mask of a [tcflag_t]. *)
Definition mask32 (m : Z) : Prop := 0 <= m < 2 ^ 32.

Lemma mask32_high k n : mask32 k -> 32 <= n -> Z.testbit k n = false.
Proof.
  intros Hk Hn. rewrite <- (Z.mod_small k (2 ^ 32)) by exact Hk.
  apply Z.mod_pow2_bits_high. lia.
Qed.

Lemma land_bit m k n : Z.land m k = 0 -> Z.testbit m n && Z.testbit k n = false.
Proof. intros H. rewrite <- Z.land_spec, H. apply Z.bits_0. Qed.

Lemma land_bit_within m k n : Z.land m k = k -> Z.testbit k n = true -> Z.testbit m n = true.
Proof.
  intros H Hk. rewrite <- H, Z.land_spec in Hk. apply andb_prop in Hk. apply Hk.
Qed.

Lemma land_flag_or_apart flags m k :
  mask32 k -> Z.land m k = 0 -> Z.land (flag_or flags m) k = Z.land (to_tcflag flags) k.
Proof.
  intros Hk Hm. apply Z.bits_inj'. intros n Hn. unfold flag_or, to_tcflag.
  rewrite !Z.land_spec. pose proof (land_bit m k n Hm) as Hb.
  destruct (Z.lt_ge_cases n 32).
  - rewrite !Z.mod_pow2_bits_low, Z.lor_spec by lia.
    destruct (Z.testbit flags n), (Z.testbit m n), (Z.testbit k n);
      try reflexivity; discriminate Hb.
  - rewrite !Z.mod_pow2_bits_high by lia. reflexivity.
Qed.

Lemma land_flag_andnot_apart flags m k :
  mask32 k -> Z.land m k = 0 ->
  Z.land (flag_andnot flags m) k = Z.land (to_tcflag flags) k.
Proof.
  intros Hk Hm. apply Z.bits_inj'. intros n Hn. unfold flag_andnot, to_tcflag.
  rewrite !Z.land_spec. pose proof (land_bit m k n Hm) as Hb.
  destruct (Z.lt_ge_cases n 32).
  - rewrite !Z.mod_pow2_bits_low, Z.land_spec, Z.lnot_spec by lia.
    destruct (Z.testbit flags n), (Z.testbit m n), (Z.testbit k n);
      try reflexivity; discriminate Hb.
  - rewrite !Z.mod_pow2_bits_high by lia. reflexivity.
Qed.

Lemma land_flag_or_within flags m k :
  mask32 k -> Z.land m k = k -> Z.land (flag_or flags m) k = k.
Proof.
  intros Hk Hm. apply Z.bits_inj'. intros n Hn. unfold flag_or, to_tcflag.
  rewrite Z.land_spec.
  destruct (Z.lt_ge_cases n 32).
  - rewrite Z.mod_pow2_bits_low, Z.lor_spec by lia.
    destruct (Z.testbit k n) eqn:Hb; [|apply andb_false_r].
    rewrite (land_bit_within m k n Hm Hb), orb_true_r. reflexivity.
  - rewrite Z.mod_pow2_bits_high, (mask32_high k n Hk) by lia. reflexivity.
Qed.

Lemma land_flag_andnot_within flags m k :
  Z.land m k = k -> Z.land (flag_andnot flags m) k = 0.
Proof.
  intros Hm. apply Z.bits_inj'. intros n Hn. unfold flag_andnot, to_tcflag.
  rewrite Z.land_spec, Z.bits_0.
  destruct (Z.testbit k n) eqn:Hb; [|apply andb_false_r].
  destruct (Z.lt_ge_cases n 32).
  - rewrite Z.mod_pow2_bits_low, Z.land_spec, Z.lnot_spec by lia.
    rewrite (land_bit_within m k n Hm Hb). cbn. rewrite andb_false_r. reflexivity.
  - rewrite Z.mod_pow2_bits_high by lia. reflexivity.
Qed.

(** The bits of a field in flags that were cut to 32 bits and then had a
    mask of the field's own cleared and a value inside it set. *)
Lemma land_field flags m k :
  mask32 k -> Z.land m k = m -> Z.land (flag_or (flag_andnot flags k) m) k = m.
Proof.
  intros Hk Hm. apply Z.bits_inj'. intros n Hn. unfold flag_or, flag_andnot, to_tcflag.
  rewrite Z.land_spec.
  assert (Hmk : Z.testbit m n = true -> Z.testbit k n = true).
  { intros Hb. rewrite <- Hm, Z.land_spec in Hb. apply andb_prop in Hb. apply Hb. }
  destruct (Z.lt_ge_cases n 32).
  - rewrite Z.mod_pow2_bits_low, Z.lor_spec by lia.
    rewrite Z.mod_pow2_bits_low, Z.land_spec, Z.lnot_spec by lia.
    destruct (Z.testbit m n) eqn:Hb.
    + rewrite (Hmk eq_refl). destruct (Z.testbit flags n); reflexivity.
    + destruct (Z.testbit flags n), (Z.testbit k n); reflexivity.
  - rewrite Z.mod_pow2_bits_high by lia. cbn.
    destruct (Z.testbit m n) eqn:Hb; [|reflexivity].
    rewrite (mask32_high k n Hk) in Hmk by lia. discriminate (Hmk eq_refl).
Qed.

Lemma land_to_tcflag flags k : mask32 k -> Z.land (to_tcflag flags) k = Z.land flags k.
Proof.
  intros Hk. apply Z.bits_inj'. intros n Hn. unfold to_tcflag. rewrite !Z.land_spec.
  destruct (Z.lt_ge_cases n 32).
  - rewrite Z.mod_pow2_bits_low by lia. reflexivity.
  - rewrite (mask32_high k n Hk), !andb_false_r by lia. reflexivity.
Qed.

Lemma land_lor_apart a b k : Z.land a k = 0 -> Z.land b k = 0 -> Z.land (Z.lor a b) k = 0.
Proof. intros Ha Hb. rewrite Z.land_lor_distr_l, Ha, Hb. reflexivity. Qed.

Lemma land_lor_within_l a b : Z.land (Z.lor a b) a = a.
Proof.
  apply Z.bits_inj'. intros n Hn. rewrite Z.land_spec, Z.lor_spec.
  destruct (Z.testbit a n), (Z.testbit b n); reflexivity.
Qed.

Lemma land_lor_within_r a b : Z.land (Z.lor a b) b = b.
Proof. rewrite Z.lor_comm. apply land_lor_within_l. Qed.

Section Format.

Context {P : Platform} {W : Type} {os : Posix W}.

(** What the code takes for granted of the macros of the character
    format: each is a mask of 32 bits, the four sizes lie inside [CSIZE],
    and [CSIZE], [CSTOPB], [PARENB], [PARODD] and [CRTSCTS] share no
    bit. *)
Definition format_masks_apart : Prop :=
  Forall mask32 [CSIZE; CSTOPB; PARENB; PARODD] /\
  Forall (fun size => Z.land size CSIZE = size) [CS5; CS6; CS7; CS8] /\
  Forall (fun m => Z.land m CSIZE = 0) [CSTOPB; PARENB; PARODD; CRTSCTS] /\
  Forall (fun m => Z.land m CSTOPB = 0) [PARENB; PARODD; CRTSCTS] /\
  Forall (fun m => Z.land m PARENB = 0) [PARODD; CRTSCTS] /\
  Z.land CRTSCTS PARODD = 0.

(** The bits that each setting asks for. *)
Definition size_bits (bytesize : bytesize_t) : Z :=
  match bytesize with
  | fivebits => CS5 | sixbits => CS6 | sevenbits => CS7 | eightbits => CS8
  | bytesize_out_of_enum => 0
  end.

Definition two_stop_bits (stopbits : stopbits_t) : bool :=
  match stopbits with
  | stopbits_one_point_five | stopbits_two => true
  | stopbits_one | stopbits_out_of_enum => false
  end.

Definition parity_enabled (parity : parity_t) : bool :=
  match parity with parity_even | parity_odd => true | _ => false end.

Definition parity_is_odd (parity : parity_t) : bool :=
  match parity with parity_odd => true | _ => false end.

Lemma reconfigurePort_pipeline (h : SerialImpl) (w : W) h' w' :
  reconfigurePort h w = (Returns tt, h', w') ->
  exists o0 o1 o2 o3 w1,
    char_len (bytesize_ h) o0 = Some o1 /\
    stop_bits (stopbits_ h) o1 = Some o2 /\
    parity_bits (parity_ h) o2 = Some o3 /\
    w' = snd (tcsetattr (fd_ h)
                (polling_read (flow_bits (xonxoff_ h') (rtscts_ h') o3)) w1).
Proof.
  unfold reconfigurePort, bind, member, call, or_throw, ret, throw.
  destruct (fd_ h =? -1); [discriminate|].
  destruct (tcgetattr (fd_ h) w) as [[r options] w1].
  destruct (r =? -1); [discriminate|].
  destruct (standard_baud (baudrate_ h)).
  2: pose proof (set_custom_baud_pure (fun h' => h' = h) (fd_ h) (baudrate_ h) h w1
                   eq_refl) as Hc;
     destruct (set_custom_baud (fd_ h) (baudrate_ h) h w1) as [[[[]|e| |] h1] w2];
     try discriminate; cbn [fst snd] in Hc; subst h1.
  all: match goal with
       | |- context [char_len ?b ?o] =>
           destruct (char_len b o) as [o1|] eqn:H1; [|discriminate]
       end.
  all: destruct (stop_bits (stopbits_ h) o1) as [o2|] eqn:H2; [|discriminate].
  all: destruct (parity_bits (parity_ h) o2) as [o3|] eqn:H3; [|discriminate].
  all: rewrite resolve_flowcontrol_result.
  all: match goal with
       | |- context [tcsetattr ?fd ?o ?x] =>
           destruct (tcsetattr fd o x) as [r2 w4] eqn:Hset
       end.
  all: intros Heq; inversion Heq; subst.
  all: do 5 eexists; split; [exact H1|]; split; [exact H2|]; split; [exact H3|].
  all: rewrite Hset; reflexivity.
Qed.

Lemma flow_keeps_field xonxoff rtscts o k :
  mask32 k -> Z.land CRTSCTS k = 0 ->
  Z.land (c_cflag (polling_read (flow_bits xonxoff rtscts o))) k = Z.land (c_cflag o) k.
Proof.
  intros Hk Ha. unfold polling_read, flow_bits.
  destruct xonxoff, rtscts; cbn [c_cflag c_iflag set_c_cc set_c_cflag set_c_iflag];
    first [rewrite land_flag_or_apart by assumption
          | rewrite land_flag_andnot_apart by assumption];
    apply land_to_tcflag, Hk.
Qed.

Lemma parity_keeps_field parity o2 o3 k :
  parity_bits parity o2 = Some o3 ->
  mask32 k -> Z.land PARENB k = 0 -> Z.land PARODD k = 0 ->
  Z.land (c_cflag o3) k = Z.land (c_cflag o2) k.
Proof.
  intros Hp Hk Ha Hb. pose proof (land_lor_apart _ _ _ Ha Hb) as Hab.
  unfold parity_bits in Hp.
  destruct parity; inversion Hp; subst;
    cbn [c_cflag c_iflag set_c_cflag set_c_iflag];
    repeat first [rewrite land_flag_or_apart by assumption
                 | rewrite land_flag_andnot_apart by assumption
                 | rewrite land_to_tcflag by assumption];
    reflexivity.
Qed.

Lemma stop_keeps_field stopbits o1 o2 k :
  stop_bits stopbits o1 = Some o2 ->
  mask32 k -> Z.land CSTOPB k = 0 ->
  Z.land (c_cflag o2) k = Z.land (c_cflag o1) k.
Proof.
  intros Hs Hk Ha. unfold stop_bits in Hs.
  destruct stopbits; inversion Hs; subst; cbn [c_cflag set_c_cflag];
    repeat first [rewrite land_flag_or_apart by assumption
                 | rewrite land_flag_andnot_apart by assumption
                 | rewrite land_to_tcflag by assumption];
    reflexivity.
Qed.

Lemma pipeline_format bytesize stopbits parity xonxoff rtscts o0 o1 o2 o3 :
  format_masks_apart ->
  char_len bytesize o0 = Some o1 ->
  stop_bits stopbits o1 = Some o2 ->
  parity_bits parity o2 = Some o3 ->
  Z.land (c_cflag (polling_read (flow_bits xonxoff rtscts o3))) CSIZE
  = size_bits bytesize /\
  Z.land (c_cflag (polling_read (flow_bits xonxoff rtscts o3))) CSTOPB
  = (if two_stop_bits stopbits then CSTOPB else 0) /\
  Z.land (c_cflag (polling_read (flow_bits xonxoff rtscts o3))) PARENB
  = (if parity_enabled parity then PARENB else 0) /\
  Z.land (c_cflag (polling_read (flow_bits xonxoff rtscts o3))) PARODD
  = (if parity_is_odd parity then PARODD else 0).
Proof.
  intros (Hmask & Hsize & Hcs & Hst & Hpe & Hpo) H1 H2 H3.
  apply Forall_cons_1 in Hmask as [Mcs Hmask]. apply Forall_cons_1 in Hmask as [Mst Hmask].
  apply Forall_cons_1 in Hmask as [Mpe Hmask]. apply Forall_cons_1 in Hmask as [Mpo _].
  apply Forall_cons_1 in Hsize as [S5 Hsize]. apply Forall_cons_1 in Hsize as [S6 Hsize].
  apply Forall_cons_1 in Hsize as [S7 Hsize]. apply Forall_cons_1 in Hsize as [S8 _].
  apply Forall_cons_1 in Hcs as [Cst Hcs]. apply Forall_cons_1 in Hcs as [Cpe Hcs].
  apply Forall_cons_1 in Hcs as [Cpo Hcs]. apply Forall_cons_1 in Hcs as [Crt _].
  apply Forall_cons_1 in Hst as [Tpe Hst]. apply Forall_cons_1 in Hst as [Tpo Hst].
  apply Forall_cons_1 in Hst as [Trt _].
  apply Forall_cons_1 in Hpe as [Epo Hpe]. apply Forall_cons_1 in Hpe as [Ert _].
  assert (Ope : Z.land PARENB PARODD = 0) by (rewrite Z.land_comm; exact Epo).
  split; [|split; [|split]].
  - rewrite flow_keeps_field by assumption.
    rewrite (parity_keeps_field _ _ _ _ H3) by assumption.
    rewrite (stop_keeps_field _ _ _ _ H2) by assumption.
    unfold char_len in H1.
    destruct bytesize; inversion H1; subst; cbn [c_cflag set_c_cflag size_bits];
      apply land_field; assumption.
  - rewrite flow_keeps_field by assumption.
    rewrite (parity_keeps_field _ _ _ _ H3) by assumption.
    unfold stop_bits in H2.
    destruct stopbits; inversion H2; subst; cbn [c_cflag set_c_cflag two_stop_bits];
      first [apply land_flag_andnot
            | apply land_flag_or_within; [assumption|apply Z.land_diag]].
  - rewrite flow_keeps_field by assumption.
    unfold parity_bits in H3.
    destruct parity; inversion H3; subst;
      cbn [c_cflag c_iflag set_c_cflag set_c_iflag parity_enabled].
    + apply land_flag_andnot_within, land_lor_within_l.
    + apply land_flag_or_within; [assumption|apply land_lor_within_l].
    + apply land_flag_or_within; [assumption|apply Z.land_diag].
  - rewrite flow_keeps_field by assumption.
    unfold parity_bits in H3.
    destruct parity; inversion H3; subst;
      cbn [c_cflag c_iflag set_c_cflag set_c_iflag parity_is_odd].
    + apply land_flag_andnot_within, land_lor_within_r.
    + apply land_flag_or_within; [assumption|apply land_lor_within_r].
    + rewrite land_flag_or_apart, land_to_tcflag by assumption.
      apply land_flag_andnot.
Qed.


(** X25.  On a platform whose macros for the character format are
    distinct bits of a [tcflag_t], the options that [reconfigurePort]
    hands to [tcsetattr] when it returns carry the format stored in the
    handle: in [c_cflag] the character size is that of the byte size,
    [CSTOPB] is set for two stop bits and, there being no other way, for
    one and a half, and clear for one, [PARENB] is set for even and odd
    parity and clear for none, and [PARODD] is set for odd parity alone. *)
Theorem tcsetattr_gets_the_character_format (h : SerialImpl) (w : W) h' w' :
  format_masks_apart ->
  reconfigurePort h w = (Returns tt, h', w') ->
  exists options w1,
    w' = snd (tcsetattr (fd_ h) options w1) /\
    Z.land (c_cflag options) CSIZE = size_bits (bytesize_ h) /\
    Z.land (c_cflag options) CSTOPB = (if two_stop_bits (stopbits_ h) then CSTOPB else 0) /\
    Z.land (c_cflag options) PARENB = (if parity_enabled (parity_ h) then PARENB else 0) /\
    Z.land (c_cflag options) PARODD = (if parity_is_odd (parity_ h) then PARODD else 0).
Proof.
  intros Hmasks Hrun.
  destruct (reconfigurePort_pipeline h w h' w' Hrun)
    as (o0 & o1 & o2 & o3 & w1 & H1 & H2 & H3 & Hw).
  exists (polling_read (flow_bits (xonxoff_ h') (rtscts_ h') o3)), w1.
  split; [exact Hw|].
  exact (pipeline_format _ _ _ _ _ _ _ _ _ Hmasks H1 H2 H3).
Qed.

End Format.

(** ** The bytes that wait when read is called *)

Section Queued.

Context {P : Platform} {W : Type} {os : Posix W}.

(** X26.  [read] first asks for the bytes in the input queue.  When the
    queue is not empty it calls [::read] for the whole size before it
    waits for anything: with the size or more delivered it returns that
    count without a call of [pselect], a count beyond the size included,
    which only the loop would refuse; with less it enters the loop from
    that count.  When the queue cannot be asked, [read] throws the error
    number of the [ioctl]. *)
Theorem read_takes_what_is_queued fuel size (h : SerialImpl) (w : W) now w1 w2 :
  is_open_ h = true ->
  clock_gettime w = (now, w1) ->
  (forall count k w3,
     ioctl_TIOCINQ (fd_ h) w1 = ((0, count), w2) -> 0 < to_size_t count ->
     sys_read (fd_ h) size w2 = (k, w3) -> 1 <= k < 2 ^ 64 ->
     (size <= k -> read fuel size h w = (Returns k, h, w3)) /\
     (k < size ->
      read fuel size h w = read_loop fuel (read_endtime h now size) size k h w3)) /\
  (forall r count,
     ioctl_TIOCINQ (fd_ h) w1 = ((r, count), w2) -> r <> 0 ->
     read fuel size h w = (Throws (IOException_errno (errno w2)), h, w2)).
Proof.
  intros Ho Hnow. split.
  - intros count k w3 Hinq Hc Hrd Hk.
    assert (Hrun : read fuel size h w
                   = read_loop fuel (read_endtime h now size) size k h w3).
    { unfold read.
      cbv beta iota zeta delta [bind timespec_now call member available get_errno throw
                                ret id].
      rewrite Ho. cbv beta iota delta [negb]. rewrite Hnow. cbv beta iota.
      rewrite Ho. cbv beta iota delta [negb]. rewrite Hinq. cbv beta iota.
      change (0 =? 0) with true. cbv beta iota.
      destruct (Z.ltb_spec 0 (to_size_t count)); [|lia].
      rewrite Hrd. destruct (Z.ltb_spec k 1); [lia|].
      rewrite Z.add_0_l, !to_size_t_id by (try rewrite to_size_t_id; lia).
      reflexivity. }
    split; intros Hs; [|exact Hrun].
    rewrite Hrun. apply read_loop_done. exact Hs.
  - intros r count Hinq Hr. unfold read.
    cbv beta iota zeta delta [bind timespec_now call member available get_errno throw
                              ret id].
    rewrite Ho. cbv beta iota delta [negb]. rewrite Hnow. cbv beta iota.
    rewrite Ho. cbv beta iota delta [negb]. rewrite Hinq. cbv beta iota.
    destruct (Z.eqb_spec r 0); [contradiction|reflexivity].
Qed.

End Queued.

(** ** Baud rates without a constant *)

Section Custom.

Context {P : Platform} {W : Type} {os : Posix W}.

Lemma raw_mode_speed options :
  c_ispeed (raw_mode options) = c_ispeed options /\
  c_ospeed (raw_mode options) = c_ospeed options.
Proof. unfold raw_mode. destruct IUCLC, PARMRK; split; reflexivity. Qed.

Lemma char_len_speed bytesize o o' :
  char_len bytesize o = Some o' ->
  c_ispeed o' = c_ispeed o /\ c_ospeed o' = c_ospeed o.
Proof.
  unfold char_len. destruct bytesize; intros H; inversion H; split; reflexivity.
Qed.

Lemma stop_bits_speed stopbits o o' :
  stop_bits stopbits o = Some o' ->
  c_ispeed o' = c_ispeed o /\ c_ospeed o' = c_ospeed o.
Proof.
  unfold stop_bits. destruct stopbits; intros H; inversion H; split; reflexivity.
Qed.

Lemma parity_bits_speed parity o o' :
  parity_bits parity o = Some o' ->
  c_ispeed o' = c_ispeed o /\ c_ospeed o' = c_ospeed o.
Proof.
  unfold parity_bits. destruct parity; intros H; inversion H; split; reflexivity.
Qed.

Lemma flow_speed xonxoff rtscts o :
  c_ispeed (polling_read (flow_bits xonxoff rtscts o)) = c_ispeed o /\
  c_ospeed (polling_read (flow_bits xonxoff rtscts o)) = c_ospeed o.
Proof. unfold polling_read, flow_bits. destruct xonxoff, rtscts; split; reflexivity. Qed.

(** X27.  A baud rate that has no [B...] constant is handed to the
    driver before any option is written.  When the driver refuses it, by
    [IOSSIOSPEED] or [TIOCSSERIAL] as the platform has it,
    [reconfigurePort] throws the error number, with the handle as it was
    and [tcsetattr] not called; the answer of [TIOCGSERIAL] is not looked
    at.  In the arm of Linux the divisor is computed first, by a division
    of [int]s: where that division has no value, as for a rate that is a
    multiple of 2^32, the behaviour is undefined from there, before
    [TIOCSSERIAL] is called.  When [reconfigurePort] returns with a rate
    without a constant, the speeds in the options that [tcsetattr]
    received are those that [tcgetattr] delivered: [cfsetspeed] and its
    like are not called. *)
Theorem custom_baud_goes_to_the_driver (h : SerialImpl) (w : W) r options w1 :
  fd_ h <> -1 ->
  tcgetattr (fd_ h) w = ((r, options), w1) -> r <> -1 ->
  standard_baud (baudrate_ h) = None ->
  (custom_baud = custom_baud_IOSSIOSPEED ->
   forall r1 w2,
     ioctl_IOSSIOSPEED (fd_ h) (to_size_t (baudrate_ h)) w1 = (r1, w2) -> r1 < 0 ->
     reconfigurePort h w = (Throws (IOException_errno (errno w2)), h, w2)) /\
  (custom_baud = custom_baud_TIOCSSERIAL ->
   forall r0 ser w2,
     ioctl_TIOCGSERIAL (fd_ h) w1 = ((r0, ser), w2) ->
     (int_quot_defined (ser_baud_base ser) (to_int (baudrate_ h)) = false ->
      reconfigurePort h w = (Undefined, h, w2)) /\
     (to_int (baudrate_ h) = 0 ->
      int_quot_defined (ser_baud_base ser) (to_int (baudrate_ h)) = false) /\
     (int_quot_defined (ser_baud_base ser) (to_int (baudrate_ h)) = true ->
      forall r1 w3,
        ioctl_TIOCSSERIAL (fd_ h)
          (mk_serial_struct
             (to_int (Z.lor (to_int (Z.land (ser_flags ser) (Z.lnot ASYNC_SPD_MASK)))
                        ASYNC_SPD_CUST))
             (to_int (Z.quot (ser_baud_base ser) (to_int (baudrate_ h))))
             (ser_baud_base ser)) w2
        = (r1, w3) ->
        r1 < 0 ->
        reconfigurePort h w = (Throws (IOException_errno (errno w3)), h, w3))) /\
  (forall h' w',
     reconfigurePort h w = (Returns tt, h', w') ->
     exists o w2,
       w' = snd (tcsetattr (fd_ h) o w2) /\
       c_ispeed o = c_ispeed options /\ c_ospeed o = c_ospeed options).
Proof.
  intros Hfd Htc Hr Hbaud.
  split; [|split].
  - intros Hc r1 w2 Hio Hneg.
    unfold reconfigurePort, bind, member, call, or_throw, ret, throw.
    destruct (Z.eqb_spec (fd_ h) (-1)); [contradiction|]. rewrite Htc.
    destruct (Z.eqb_spec r (-1)); [contradiction|]. rewrite Hbaud.
    unfold set_custom_baud. rewrite Hc. unfold bind, call, get_errno, throw.
    rewrite Hio. destruct (Z.ltb_spec r1 0); [reflexivity|lia].
  - intros Hc r0 ser w2 Hget.
    split; [|split].
    + intros Hdef.
      unfold reconfigurePort, bind, member, call, or_throw, ret, throw.
      destruct (Z.eqb_spec (fd_ h) (-1)); [contradiction|]. rewrite Htc.
      destruct (Z.eqb_spec r (-1)); [contradiction|]. rewrite Hbaud.
      unfold set_custom_baud. rewrite Hc. unfold bind, call, undefined.
      rewrite Hget. cbv beta iota zeta. rewrite Hdef. reflexivity.
    + intros Hz. unfold int_quot_defined. rewrite Hz. reflexivity.
    + intros Hdef r1 w3 Hset Hneg.
      unfold reconfigurePort, bind, member, call, or_throw, ret, throw.
      destruct (Z.eqb_spec (fd_ h) (-1)); [contradiction|]. rewrite Htc.
      destruct (Z.eqb_spec r (-1)); [contradiction|]. rewrite Hbaud.
      unfold set_custom_baud. rewrite Hc. unfold bind, call, get_errno, throw.
      rewrite Hget. cbv beta iota zeta. rewrite Hdef. cbv beta iota delta [negb].
      rewrite Hset. destruct (Z.ltb_spec r1 0); [reflexivity|lia].
  - intros h' w'.
    unfold reconfigurePort, bind, member, call, or_throw, ret, throw.
    destruct (Z.eqb_spec (fd_ h) (-1)); [contradiction|]. rewrite Htc.
    destruct (Z.eqb_spec r (-1)); [contradiction|]. rewrite Hbaud.
    pose proof (set_custom_baud_pure (fun h' => h' = h) (fd_ h) (baudrate_ h) h w1
                  eq_refl) as Hc.
    destruct (set_custom_baud (fd_ h) (baudrate_ h) h w1) as [[[[]|e| |] h1] w2];
      try discriminate.
    cbn [fst snd] in Hc. subst h1.
    destruct (char_len (bytesize_ h) (raw_mode options)) as [o1|] eqn:H1;
      [|discriminate].
    destruct (stop_bits (stopbits_ h) o1) as [o2|] eqn:H2; [|discriminate].
    destruct (parity_bits (parity_ h) o2) as [o3|] eqn:H3; [|discriminate].
    rewrite resolve_flowcontrol_result.
    match goal with
    | |- context [tcsetattr ?fd ?o ?x] => destruct (tcsetattr fd o x) as [r2 w4] eqn:Hset
    end.
    intros Heq. inversion Heq; subst.
    eexists. exists w2. split; [rewrite Hset; reflexivity|].
    destruct (flow_speed (xonxoff_ (flow_of (flowcontrol_ h) h))
                (rtscts_ (flow_of (flowcontrol_ h) h)) o3) as [F1 F2].
    destruct (parity_bits_speed _ _ _ H3) as [P1 P2].
    destruct (stop_bits_speed _ _ _ H2) as [S1 S2].
    destruct (char_len_speed _ _ _ H1) as [C1 C2].
    destruct (raw_mode_speed options) as [R1 R2].
    split; congruence.
Qed.

End Custom.

(** ** The wait once the deadline has passed *)

Section Expired.

Context {P : Platform} {W : Type} {os : Posix W}.

Lemma min_sec_le a b : tv_sec (min a b) <= tv_sec a.
Proof. destruct (min_le_l a b) as [H|[H _]]; lia. Qed.

(** C4.  The loops do not test the time that is left.  Once the deadline
    has passed that time is negative, and so is the lesser of it and the
    inter-byte limit; and whatever the wait is, every pass that still has
    bytes to move calls [pselect] with it.  The pass returns the count only
    when [pselect] answers 0; when [pselect] refuses the wait the call
    throws the error number, and when it reports the descriptor ready the
    bytes are moved. *)
Theorem expired_wait_reaches_pselect :
  (forall endtime now inter_byte,
     normal endtime -> normal now -> total_ns endtime < total_ns now ->
     tv_sec (operator_minus endtime now) < 0 /\
     tv_sec (min (operator_minus endtime now) inter_byte) < 0) /\
  (forall fuel endtime size n (h : SerialImpl) (w : W) now w1 r fd_isset w2,
     n < size ->
     clock_gettime w = (now, w1) ->
     pselect_read (fd_ h)
       (min (operator_minus endtime now) (inter_byte_timeout_ h)) w1
     = ((r, fd_isset), w2) ->
     (r = 0 -> read_loop (S fuel) endtime size n h w = (Returns n, h, w2)) /\
     (r < 0 -> errno w2 = EINTR ->
      read_loop (S fuel) endtime size n h w = read_loop fuel endtime size n h w2) /\
     (r < 0 -> errno w2 <> EINTR ->
      read_loop (S fuel) endtime size n h w
      = (Throws (IOException_errno (errno w2)), h, w2)) /\
     (0 < r -> fd_isset = true ->
      forall k w3,
        sys_read (fd_ h) (size - n) w2 = (k, w3) ->
        0 < k -> 0 <= n -> n + k = size -> size < 2 ^ 64 ->
        read_loop (S fuel) endtime size n h w = (Returns size, h, w3))) /\
  (forall fuel endtime length n (h : SerialImpl) (w : W) now w1 r fd_isset w2,
     n < length ->
     clock_gettime w = (now, w1) ->
     pselect_write (fd_ h) (operator_minus endtime now) w1 = ((r, fd_isset), w2) ->
     (r = 0 -> write_loop (S fuel) endtime length n h w = (Returns n, h, w2)) /\
     (r < 0 -> errno w2 = EINTR ->
      write_loop (S fuel) endtime length n h w
      = write_loop fuel endtime length n h w2) /\
     (r < 0 -> errno w2 <> EINTR ->
      write_loop (S fuel) endtime length n h w
      = (Throws (IOException_errno (errno w2)), h, w2)) /\
     (0 < r -> fd_isset = true ->
      forall k w3,
        sys_write (fd_ h) (length - n) w2 = (k, w3) ->
        0 < k -> 0 <= n -> n + k = length -> length < 2 ^ 64 ->
        write_loop (S fuel) endtime length n h w = (Returns length, h, w3))).
Proof.
  split.
  { intros endtime now inter_byte He Hn Hlt.
    destruct (operator_minus_normal endtime now He Hn) as (Hr & _ & Ht).
    assert (Hs : tv_sec (operator_minus endtime now) < 0)
      by (unfold total_ns in *; lia).
    split; [exact Hs|].
    pose proof (min_sec_le (operator_minus endtime now) inter_byte). lia. }
  assert (Hsum : forall n k size, 0 < k -> 0 <= n -> n + k = size -> size < 2 ^ 64 ->
            to_size_t (n + to_size_t k) = size).
  { intros n k size Hk Hn Hs Hlt. unfold to_size_t.
    rewrite (Z.mod_small k) by lia. rewrite Z.mod_small; lia. }
  split.
  - intros fuel endtime size n h w now w1 r fd_isset w2 Hn Hnow Hsel.
    rewrite (read_loop_pass fuel endtime size n h w now w1 r fd_isset w2 Hn Hnow Hsel).
    repeat split.
    + intros ->. reflexivity.
    + intros Hr He. destruct (Z.ltb_spec r 0); [|lia].
      rewrite He, Z.eqb_refl. reflexivity.
    + intros Hr He. destruct (Z.ltb_spec r 0); [|lia].
      destruct (Z.eqb_spec (errno w2) EINTR); [contradiction|reflexivity].
    + intros Hr -> k w3 Hrd Hk H0 Hs Hlt.
      destruct (Z.ltb_spec r 0); [lia|]. destruct (Z.eqb_spec r 0); [lia|].
      rewrite Hrd. destruct (Z.ltb_spec k 1); [lia|]. cbv zeta.
      rewrite (Hsum n k size) by assumption. rewrite Z.eqb_refl. reflexivity.
  - intros fuel endtime length n h w now w1 r fd_isset w2 Hn Hnow Hsel.
    rewrite (write_loop_pass fuel endtime length n h w now w1 r fd_isset w2 Hn Hnow Hsel).
    repeat split.
    + intros ->. reflexivity.
    + intros Hr He. destruct (Z.ltb_spec r 0); [|lia].
      rewrite He, Z.eqb_refl. reflexivity.
    + intros Hr He. destruct (Z.ltb_spec r 0); [|lia].
      destruct (Z.eqb_spec (errno w2) EINTR); [contradiction|reflexivity].
    + intros Hr -> k w3 Hrd Hk H0 Hs Hlt.
      destruct (Z.ltb_spec r 0); [lia|]. destruct (Z.eqb_spec r 0); [lia|].
      rewrite Hrd. destruct (Z.ltb_spec k 1); [lia|]. cbv zeta.
      rewrite (Hsum n k length) by assumption. rewrite Z.eqb_refl. reflexivity.
Qed.

End Expired.

(** ** What the setters hand to the line *)



Lemma ones_kept_or flags m k :
  mask32 k -> Z.land flags k = k -> Z.land (flag_or flags m) k = k.
Proof.
  intros Hk Hf. apply Z.bits_inj'. intros n Hn. unfold flag_or, to_tcflag.
  rewrite Z.land_spec.
  destruct (Z.lt_ge_cases n 32).
  - rewrite Z.mod_pow2_bits_low, Z.lor_spec by lia.
    destruct (Z.testbit k n) eqn:Hb; [|apply andb_false_r].
    rewrite (land_bit_within flags k n Hf Hb). reflexivity.
  - rewrite Z.mod_pow2_bits_high, (mask32_high k n Hk) by lia. reflexivity.
Qed.

Lemma ones_kept_andnot flags m k :
  mask32 k -> Z.land m k = 0 -> Z.land flags k = k ->
  Z.land (flag_andnot flags m) k = k.
Proof.
  intros Hk Hm Hf. rewrite land_flag_andnot_apart, land_to_tcflag by assumption.
  exact Hf.
Qed.

Section Reapplied.

Context {P : Platform} {W : Type} {os : Posix W}.













(** *** The stages of [reconfigurePort], flag by flag *)













End Reapplied.

(** * The control lines and the locks *)

From Stdlib Require DecimalString.

(** [operator<<] of an [int] into a stream. *)
Definition decimal (n : Z) : string :=
  DecimalString.NilZero.string_of_int (Z.to_int n).

(** The macros of the members that act on the line: the queue selectors
    of [tcflush], the bits of the modem status word, and whether the
    platform defines [TIOCMIWAIT]. *)
Class Lines : Type := {
  TCIFLUSH : Z; TCOFLUSH : Z;
  TIOCM_RTS : Z; TIOCM_DTR : Z;
  TIOCM_CTS : Z; TIOCM_DSR : Z; TIOCM_RI : Z; TIOCM_CD : Z;
  has_TIOCMIWAIT : bool
}.

(** The two mutexes of the handle. *)
Inductive mutex : Type := read_mutex | write_mutex.

(** The calls those members make.  An [ioctl] that the source calls with
    an integer as its third argument takes that integer. *)
Class PosixLines (W : Type) : Type := {
  tcdrain : Z -> W -> Z * W;
  tcflush : Z -> Z -> W -> Z * W;
  tcsendbreak : Z -> Z -> W -> Z * W;
  ioctl_TIOCSBRK : Z -> W -> Z * W;
  ioctl_TIOCCBRK : Z -> W -> Z * W;
  ioctl_TIOCMBIS : Z -> Z -> W -> Z * W;
  ioctl_TIOCMBIC : Z -> Z -> W -> Z * W;
  ioctl_TIOCMGET : Z -> Z -> W -> Z * W;
  ioctl_TIOCMIWAIT : Z -> Z -> W -> Z * W;
  usleep : Z -> W -> Z * W;
  strerror : Z -> string;
  pthread_mutex_lock : mutex -> W -> Z * W;
  pthread_mutex_unlock : mutex -> W -> Z * W
}.

Section Control.

Context {P : Platform} {L : Lines} {W : Type} {os : Posix W} {ol : PosixLines W}.

Notation "x <- m ;; k" := (bind m (fun x => k))
  (at level 20, m at level 99, k at level 200, only parsing).
Notation "m ;; k" := (bind m (fun _ => k))
  (at level 100, k at level 200, only parsing, right associativity).

(** The test at the head of a member that needs an open port. *)
Definition if_open {A} (name : string) (body : M (W := W) A) : M A :=
  is_open <- member is_open_ ;;
  if Bool.eqb is_open false then throw (PortNotOpenedException name) else body.

Definition flush : M unit :=
  if_open "Serial::flush" (fd <- member fd_ ;; call (tcdrain fd) ;; ret tt).

Definition flushInput : M unit :=
  if_open "Serial::flushInput" (fd <- member fd_ ;; call (tcflush fd TCIFLUSH) ;; ret tt).

Definition flushOutput : M unit :=
  if_open "Serial::flushOutput"
    (fd <- member fd_ ;; call (tcflush fd TCOFLUSH) ;; ret tt).

(** [duration] is an [int], and [/] truncates towards zero. *)
Definition sendBreak (duration : Z) : M unit :=
  if_open "Serial::sendBreak"
    (fd <- member fd_ ;; call (tcsendbreak fd (to_int (Z.quot duration 4))) ;; ret tt).

Definition setBreak (level : bool) : M unit :=
  if_open "Serial::setBreak"
    (fd <- member fd_ ;;
     (if level then call (ioctl_TIOCSBRK fd) else call (ioctl_TIOCCBRK fd)) ;;
     ret tt).

Definition setRTS (level : bool) : M unit :=
  if_open "Serial::setRTS"
    (fd <- member fd_ ;;
     (if level then call (ioctl_TIOCMBIS fd TIOCM_RTS)
      else call (ioctl_TIOCMBIC fd TIOCM_RTS)) ;;
     ret tt).

Definition setDTR (level : bool) : M unit :=
  if_open "Serial::setDTR"
    (fd <- member fd_ ;;
     (if level then call (ioctl_TIOCMBIS fd TIOCM_DTR)
      else call (ioctl_TIOCMBIC fd TIOCM_DTR)) ;;
     ret tt).

(** [(s & bit) != 0] *)
Definition bit_set (s bit : Z) : bool := negb (Z.land s bit =? 0).

(** [int s = ioctl (fd_, TIOCMGET, 0); return (s & bit) != 0;] *)
Definition line_status (name : string) (bit : Z) : M bool :=
  if_open name (fd <- member fd_ ;; s <- call (ioctl_TIOCMGET fd 0) ;; ret (bit_set s bit)).

Definition getCTS : M bool := line_status "Serial::getCTS" TIOCM_CTS.
Definition getDSR : M bool := line_status "Serial::getDSR" TIOCM_DSR.
Definition getRI : M bool := line_status "Serial::getRI" TIOCM_RI.
Definition getCD : M bool := line_status "Serial::getCD" TIOCM_CD.

(** [waitForChange] where [TIOCMIWAIT] is not defined: the loop, with
    [fuel] for its passes. *)
Fixpoint waitForChange_polling (fuel : nat) : M bool :=
  is_open <- member is_open_ ;;
  if negb (Bool.eqb is_open true) then ret false else
  match fuel with
  | O => out_of_fuel
  | S fuel' =>
      fd <- member fd_ ;;
      s <- call (ioctl_TIOCMGET fd 0) ;;
      if bit_set s TIOCM_CTS then ret true
      else if bit_set s TIOCM_DSR then ret true
      else if bit_set s TIOCM_RI then ret true
      else if bit_set s TIOCM_CD then ret true
      else call (usleep 1000) ;; waitForChange_polling fuel'
  end.

(** [waitForChange] where it is. *)
Definition waitForChange_waiting : M bool :=
  fd <- member fd_ ;;
  r <- call (ioctl_TIOCMIWAIT fd
               (Z.lor (Z.lor (Z.lor TIOCM_CD TIOCM_DSR) TIOCM_RI) TIOCM_CTS)) ;;
  if negb (r =? 0) then
    e <- get_errno ;;
    throw (SerialException
             ("waitForDSR failed on a call to ioctl(TIOCMIWAIT): "
              ++ decimal e ++ " " ++ strerror e))
  else ret true.

Definition waitForChange (fuel : nat) : M bool :=
  if has_TIOCMIWAIT then waitForChange_waiting else waitForChange_polling fuel.

(** The locks: [THROW (IOException, result)] carries the result of the
    call as the error number. *)
Definition lock_result (result : Z) : M (W := W) unit :=
  if negb (result =? 0) then throw (IOException_errno result) else ret tt.

Definition readLock : M unit :=
  result <- call (pthread_mutex_lock read_mutex) ;; lock_result result.
Definition readUnlock : M unit :=
  result <- call (pthread_mutex_unlock read_mutex) ;; lock_result result.
Definition writeLock : M unit :=
  result <- call (pthread_mutex_lock write_mutex) ;; lock_result result.
Definition writeUnlock : M unit :=
  result <- call (pthread_mutex_unlock write_mutex) ;; lock_result result.

(** A call of one of these members. *)
Inductive line_operation : Type :=
| Call_flush | Call_flushInput | Call_flushOutput
| Call_sendBreak (duration : Z)
| Call_setBreak (level : bool) | Call_setRTS (level : bool) | Call_setDTR (level : bool)
| Call_getCTS | Call_getDSR | Call_getRI | Call_getCD
| Call_waitForChange (fuel : nat)
| Call_readLock | Call_readUnlock | Call_writeLock | Call_writeUnlock.

Definition perform_line (op : line_operation) : M unit :=
  match op with
  | Call_flush => flush
  | Call_flushInput => flushInput
  | Call_flushOutput => flushOutput
  | Call_sendBreak duration => sendBreak duration
  | Call_setBreak level => setBreak level
  | Call_setRTS level => setRTS level
  | Call_setDTR level => setDTR level
  | Call_getCTS => getCTS ;; ret tt
  | Call_getDSR => getDSR ;; ret tt
  | Call_getRI => getRI ;; ret tt
  | Call_getCD => getCD ;; ret tt
  | Call_waitForChange fuel => waitForChange fuel ;; ret tt
  | Call_readLock => readLock
  | Call_readUnlock => readUnlock
  | Call_writeLock => writeLock
  | Call_writeUnlock => writeUnlock
  end.

(** The name a member passes to [PortNotOpenedException]. *)
Definition member_name (op : line_operation) : option string :=
  match op with
  | Call_flush => Some "Serial::flush"
  | Call_flushInput => Some "Serial::flushInput"
  | Call_flushOutput => Some "Serial::flushOutput"
  | Call_sendBreak _ => Some "Serial::sendBreak"
  | Call_setBreak _ => Some "Serial::setBreak"
  | Call_setRTS _ => Some "Serial::setRTS"
  | Call_setDTR _ => Some "Serial::setDTR"
  | Call_getCTS => Some "Serial::getCTS"
  | Call_getDSR => Some "Serial::getDSR"
  | Call_getRI => Some "Serial::getRI"
  | Call_getCD => Some "Serial::getCD"
  | _ => None
  end%string.

Lemma if_open_closed A name (body : M A) (h : SerialImpl) (w : W) :
  is_open_ h = false ->
  if_open name body h w = (Throws (PortNotOpenedException name), h, w).
Proof. intros Ho. unfold if_open, bind, member, throw. rewrite Ho. reflexivity. Qed.

Lemma if_open_open A name (body : M A) (h : SerialImpl) (w : W) :
  is_open_ h = true -> if_open name body h w = body h w.
Proof. intros Ho. unfold if_open, bind, member. rewrite Ho. reflexivity. Qed.

(** X21.  The flushes, [sendBreak], the three line setters and the four
    status getters refuse a closed handle: each throws
    [PortNotOpenedException] with its own name, and makes no system call.
    [waitForChange] has no such test: where it polls it returns false at
    once, and where it waits it calls [ioctl] on whatever [fd_] holds. *)
Theorem line_members_need_an_open_port (h : SerialImpl) (w : W) :
  is_open_ h = false ->
  flush h w = (Throws (PortNotOpenedException "Serial::flush"), h, w) /\
  flushInput h w = (Throws (PortNotOpenedException "Serial::flushInput"), h, w) /\
  flushOutput h w = (Throws (PortNotOpenedException "Serial::flushOutput"), h, w) /\
  (forall duration,
     sendBreak duration h w
     = (Throws (PortNotOpenedException "Serial::sendBreak"), h, w)) /\
  (forall level,
     setBreak level h w = (Throws (PortNotOpenedException "Serial::setBreak"), h, w)) /\
  (forall level,
     setRTS level h w = (Throws (PortNotOpenedException "Serial::setRTS"), h, w)) /\
  (forall level,
     setDTR level h w = (Throws (PortNotOpenedException "Serial::setDTR"), h, w)) /\
  getCTS h w = (Throws (PortNotOpenedException "Serial::getCTS"), h, w) /\
  getDSR h w = (Throws (PortNotOpenedException "Serial::getDSR"), h, w) /\
  getRI h w = (Throws (PortNotOpenedException "Serial::getRI"), h, w) /\
  getCD h w = (Throws (PortNotOpenedException "Serial::getCD"), h, w) /\
  (forall fuel, waitForChange_polling fuel h w = (Returns false, h, w)) /\
  (exists o,
     waitForChange_waiting h w
     = (o, h,
        snd (ioctl_TIOCMIWAIT (fd_ h)
               (Z.lor (Z.lor (Z.lor TIOCM_CD TIOCM_DSR) TIOCM_RI) TIOCM_CTS) w))).
Proof.
  intros Ho.
  do 11 (split; [intros; apply if_open_closed; exact Ho|]).
  split.
  - intros [|fuel]; simpl; unfold bind, member, ret; rewrite Ho; reflexivity.
  - unfold waitForChange_waiting, bind, member, call, get_errno, throw, ret.
    destruct (ioctl_TIOCMIWAIT _ _ w) as [r w1]. cbn [snd].
    destruct (negb (r =? 0)); eexists; reflexivity.
Qed.

Lemma land_0_l_bit bit : bit_set 0 bit = false.
Proof. unfold bit_set. rewrite Z.land_0_l. reflexivity. Qed.

Lemma land_m1_l_bit bit : bit <> 0 -> bit_set (-1) bit = true.
Proof.
  intros Hb. unfold bit_set. rewrite Z.land_m1_l.
  destruct (Z.eqb_spec bit 0); [contradiction|reflexivity].
Qed.

(** X22.  The four status getters test the value that [ioctl] returns,
    and hand it no place to store the status word.  Where that value is 0
    for success and -1 for failure, they cannot tell one line from
    another, or a raised line from a lowered one: all four return false
    when the call succeeded and true when it failed. *)
Theorem status_getters_test_the_result (h : SerialImpl) (w : W) s w' :
  is_open_ h = true ->
  ioctl_TIOCMGET (fd_ h) 0 w = (s, w') ->
  (getCTS h w = (Returns (bit_set s TIOCM_CTS), h, w') /\
   getDSR h w = (Returns (bit_set s TIOCM_DSR), h, w') /\
   getRI h w = (Returns (bit_set s TIOCM_RI), h, w') /\
   getCD h w = (Returns (bit_set s TIOCM_CD), h, w')) /\
  (s = 0 ->
   getCTS h w = (Returns false, h, w') /\ getDSR h w = (Returns false, h, w') /\
   getRI h w = (Returns false, h, w') /\ getCD h w = (Returns false, h, w')) /\
  (s = -1 ->
   TIOCM_CTS <> 0 -> TIOCM_DSR <> 0 -> TIOCM_RI <> 0 -> TIOCM_CD <> 0 ->
   getCTS h w = (Returns true, h, w') /\ getDSR h w = (Returns true, h, w') /\
   getRI h w = (Returns true, h, w') /\ getCD h w = (Returns true, h, w')).
Proof.
  intros Ho Hget.
  assert (Hs : forall name bit,
            line_status name bit h w = (Returns (bit_set s bit), h, w')).
  { intros name bit. unfold line_status. rewrite if_open_open by exact Ho.
    unfold bind, member, call, ret. rewrite Hget. reflexivity. }
  split; [|split].
  - repeat split; apply Hs.
  - intros ->. unfold getCTS, getDSR, getRI, getCD. rewrite !Hs, !land_0_l_bit.
    repeat split.
  - intros -> H1 H2 H3 H4. unfold getCTS, getDSR, getRI, getCD.
    rewrite !Hs, !land_m1_l_bit by assumption. repeat split.
Qed.

Lemma if_open_pure I A name (body : M (W := W) A) :
  keeps I body -> keeps I (if_open name body).
Proof. intros Hb. unfold if_open. repeat first [assumption | pure_step]. Qed.

Lemma waitForChange_polling_pure I fuel : keeps I (waitForChange_polling fuel).
Proof.
  induction fuel as [|fuel IH]; simpl; repeat first [apply IH | pure_step].
Qed.

Lemma perform_line_pure I op : keeps I (perform_line op).
Proof.
  destruct op; simpl;
    unfold flush, flushInput, flushOutput, sendBreak, setBreak, setRTS, setDTR,
      getCTS, getDSR, getRI, getCD, line_status, waitForChange, waitForChange_waiting,
      readLock, readUnlock, writeLock, writeUnlock, lock_result;
    repeat first [apply if_open_pure | apply waitForChange_polling_pure | pure_step].
Qed.

(** X23.  None of these members assigns a field of the handle, however
    it ends.  On an open handle the flushes, [sendBreak] and the three
    line setters make their one call on the descriptor and return,
    whatever the call answered: its result is not looked at.  [sendBreak]
    passes a quarter of its argument, rounded towards zero. *)
Theorem line_members_keep_the_handle_and_ignore_failures :
  (forall op (h : SerialImpl) (w : W), snd (fst (perform_line op h w)) = h) /\
  (forall (h : SerialImpl) (w : W),
     is_open_ h = true ->
     flush h w = (Returns tt, h, snd (tcdrain (fd_ h) w)) /\
     flushInput h w = (Returns tt, h, snd (tcflush (fd_ h) TCIFLUSH w)) /\
     flushOutput h w = (Returns tt, h, snd (tcflush (fd_ h) TCOFLUSH w)) /\
     (forall duration,
        - 2 ^ 31 <= duration < 2 ^ 31 ->
        sendBreak duration h w
        = (Returns tt, h, snd (tcsendbreak (fd_ h) (Z.quot duration 4) w))) /\
     setBreak true h w = (Returns tt, h, snd (ioctl_TIOCSBRK (fd_ h) w)) /\
     setBreak false h w = (Returns tt, h, snd (ioctl_TIOCCBRK (fd_ h) w)) /\
     setRTS true h w = (Returns tt, h, snd (ioctl_TIOCMBIS (fd_ h) TIOCM_RTS w)) /\
     setRTS false h w = (Returns tt, h, snd (ioctl_TIOCMBIC (fd_ h) TIOCM_RTS w)) /\
     setDTR true h w = (Returns tt, h, snd (ioctl_TIOCMBIS (fd_ h) TIOCM_DTR w)) /\
     setDTR false h w = (Returns tt, h, snd (ioctl_TIOCMBIC (fd_ h) TIOCM_DTR w))).
Proof.
  split.
  - intros op h w. apply (perform_line_pure (fun h' => h' = h)). reflexivity.
  - intros h w Ho.
    assert (Hcall : forall name (op : W -> Z * W),
              if_open name (bind (member fd_) (fun fd =>
                bind (call op) (fun _ => ret tt))) h w
              = (Returns tt, h, snd (op w))).
    { intros name op. rewrite if_open_open by exact Ho.
      unfold bind, member, call, ret. destruct (op w). reflexivity. }
    assert (Hfd : forall name (op : Z -> W -> Z * W),
              if_open name (bind (member fd_) (fun fd =>
                bind (call (op fd)) (fun _ => ret tt))) h w
              = (Returns tt, h, snd (op (fd_ h) w))).
    { intros name op. rewrite if_open_open by exact Ho.
      unfold bind, member, call, ret. destruct (op (fd_ h) w). reflexivity. }
    split; [apply (Hfd _ tcdrain)|].
    split; [apply (Hfd _ (fun fd => tcflush fd TCIFLUSH))|].
    split; [apply (Hfd _ (fun fd => tcflush fd TCOFLUSH))|].
    split.
    { intros duration Hd. unfold sendBreak.
      assert (Hq : to_int (Z.quot duration 4) = Z.quot duration 4).
      { unfold to_int.
        assert (- 2 ^ 31 <= Z.quot duration 4 < 2 ^ 31).
        { pose proof (Z.quot_rem' duration 4).
          pose proof (Z.rem_bound_abs duration 4 ltac:(lia)).
          destruct (Z_lt_le_dec duration 0).
          - pose proof (Z.rem_nonpos duration 4 ltac:(lia) ltac:(lia)). lia.
          - pose proof (Z.rem_nonneg duration 4 ltac:(lia) ltac:(lia)). lia. }
        rewrite Z.mod_small by lia. lia. }
      rewrite Hq. apply (Hfd _ (fun fd => tcsendbreak fd (Z.quot duration 4))). }
    split; [apply (Hfd _ ioctl_TIOCSBRK)|].
    split; [apply (Hfd _ ioctl_TIOCCBRK)|].
    split; [apply (Hfd _ (fun fd => ioctl_TIOCMBIS fd TIOCM_RTS))|].
    split; [apply (Hfd _ (fun fd => ioctl_TIOCMBIC fd TIOCM_RTS))|].
    split; [apply (Hfd _ (fun fd => ioctl_TIOCMBIS fd TIOCM_DTR))|].
    apply (Hfd _ (fun fd => ioctl_TIOCMBIC fd TIOCM_DTR)).
Qed.

(** One of the four status bits is set in [s]. *)
Definition any_line (s : Z) : bool :=
  bit_set s TIOCM_CTS || bit_set s TIOCM_DSR || bit_set s TIOCM_RI || bit_set s TIOCM_CD.

Lemma waitForChange_polling_pass fuel (h : SerialImpl) (w : W) s w1 :
  is_open_ h = true ->
  ioctl_TIOCMGET (fd_ h) 0 w = (s, w1) ->
  waitForChange_polling (S fuel) h w
  = if any_line s then (Returns true, h, w1)
    else waitForChange_polling fuel h (snd (usleep 1000 w1)).
Proof.
  intros Ho Hget. simpl. unfold bind at 1. unfold member at 1. rewrite Ho.
  cbn [Bool.eqb negb]. unfold bind at 1. unfold member at 1.
  unfold bind at 1. unfold call at 1. rewrite Hget. unfold any_line.
  destruct (bit_set s TIOCM_CTS); [reflexivity|].
  destruct (bit_set s TIOCM_DSR); [reflexivity|].
  destruct (bit_set s TIOCM_RI); [reflexivity|].
  destruct (bit_set s TIOCM_CD); [reflexivity|].
  cbn [orb]. unfold bind at 1. unfold call at 1.
  destruct (usleep 1000 w1) as [r w2]. reflexivity.
Qed.

(** X24.  [waitForChange].  Where it polls, on an open handle it never
    returns false and never throws: it returns true in the first pass in
    which the value returned by [ioctl] has one of the four bits, -1 for a
    failure included, and as long as [ioctl] returns 0, as it does when it
    succeeds, it sleeps a millisecond and asks again, without end.  Where
    it waits, it returns true when [ioctl] returns 0 and throws
    [SerialException] with the error number otherwise. *)
Theorem waitForChange_outcomes :
  (forall fuel (h : SerialImpl) (w : W),
     is_open_ h = true ->
     fst (fst (waitForChange_polling fuel h w)) = Returns true \/
     fst (fst (waitForChange_polling fuel h w)) = OutOfFuel) /\
  (forall fuel (h : SerialImpl) (w : W) s w1,
     is_open_ h = true ->
     ioctl_TIOCMGET (fd_ h) 0 w = (s, w1) ->
     any_line s = true ->
     waitForChange_polling (S fuel) h w = (Returns true, h, w1)) /\
  (forall (h : SerialImpl),
     is_open_ h = true ->
     (forall w : W, fst (ioctl_TIOCMGET (fd_ h) 0 w) = 0) ->
     forall fuel w, fst (fst (waitForChange_polling fuel h w)) = OutOfFuel) /\
  (forall (h : SerialImpl) (w : W) r w1,
     ioctl_TIOCMIWAIT (fd_ h)
       (Z.lor (Z.lor (Z.lor TIOCM_CD TIOCM_DSR) TIOCM_RI) TIOCM_CTS) w = (r, w1) ->
     waitForChange_waiting h w
     = if r =? 0 then (Returns true, h, w1)
       else (Throws (SerialException
                       ("waitForDSR failed on a call to ioctl(TIOCMIWAIT): "
                        ++ decimal (errno w1) ++ " " ++ strerror (errno w1))),
             h, w1)).
Proof.
  split; [|split; [|split]].
  - induction fuel as [|fuel IH]; intros h w Ho.
    + right. simpl. unfold bind, member. rewrite Ho. reflexivity.
    + destruct (ioctl_TIOCMGET (fd_ h) 0 w) as [s w1] eqn:Hget.
      rewrite (waitForChange_polling_pass fuel h w s w1 Ho Hget).
      destruct (any_line s); [left; reflexivity|apply IH, Ho].
  - intros fuel h w s w1 Ho Hget Hany.
    rewrite (waitForChange_polling_pass fuel h w s w1 Ho Hget), Hany. reflexivity.
  - intros h Ho Hzero. induction fuel as [|fuel IH]; intros w.
    + simpl. unfold bind, member. rewrite Ho. reflexivity.
    + specialize (Hzero w).
      destruct (ioctl_TIOCMGET (fd_ h) 0 w) as [s w1] eqn:Hget. cbn [fst] in Hzero.
      subst s. rewrite (waitForChange_polling_pass fuel h w 0 w1 Ho Hget).
      unfold any_line. rewrite !land_0_l_bit. cbn [orb]. apply IH.
  - intros h w r w1 Hwait.
    unfold waitForChange_waiting, bind, member, call, get_errno, throw, ret.
    rewrite Hwait. destruct (r =? 0); reflexivity.
Qed.

End Control.

(** ** The further properties at work on the simulated line *)

(** The status bits and queue selectors of Linux (asm-generic/termios.h,
    asm-generic/termbits.h), which defines [TIOCMIWAIT]. *)
Definition linux_lines : Lines := {|
  TCIFLUSH := 0; TCOFLUSH := 1;
  TIOCM_RTS := 4; TIOCM_DTR := 2;
  TIOCM_CTS := 32; TIOCM_DSR := 256; TIOCM_RI := 128; TIOCM_CD := 64;
  has_TIOCMIWAIT := true
|}.

Definition EFAULT : Z := 14.

(** The line calls on the simulated line.  The calls that take the
    address of a status word fail on the integer that the source passes;
    the others succeed, and a wait for a change of the lines ends at
    once. *)
Definition sim_lines : PosixLines Sim.tty := {|
  tcdrain fd w := (0, Sim.enter (Sim.Ioctl fd) w);
  tcflush fd queue_selector w := (0, Sim.enter (Sim.Ioctl fd) w);
  tcsendbreak fd duration w := (0, Sim.enter (Sim.Ioctl fd) w);
  ioctl_TIOCSBRK fd w := (0, Sim.enter (Sim.Ioctl fd) w);
  ioctl_TIOCCBRK fd w := (0, Sim.enter (Sim.Ioctl fd) w);
  ioctl_TIOCMBIS fd arg w := (-1, Sim.fail EFAULT (Sim.enter (Sim.Ioctl fd) w));
  ioctl_TIOCMBIC fd arg w := (-1, Sim.fail EFAULT (Sim.enter (Sim.Ioctl fd) w));
  ioctl_TIOCMGET fd arg w := (-1, Sim.fail EFAULT (Sim.enter (Sim.Ioctl fd) w));
  ioctl_TIOCMIWAIT fd mask w := (0, Sim.enter (Sim.Ioctl fd) w);
  usleep usec w := (0, Sim.at_time (Sim.clock w + usec * 1000) w);
  strerror errnum := "Unknown error"%string;
  pthread_mutex_lock m w := (0, w);
  pthread_mutex_unlock m w := (0, w)
|}.

#[local] Existing Instance linux_lines.
#[local] Existing Instance sim_lines.

(** A handle for the device as its constructor initializes it, the line
    at the start, and a handle for a device that does not exist. *)
Definition ttyS0 (parity : parity_t) : SerialImpl :=
  initial "/dev/ttyS0" 9600 eightbits parity stopbits_one flowcontrol_hardware.
Definition power_on : Sim.tty := Sim.boot start call_cost [].
Definition no_device : SerialImpl :=
  initial "/dev/ttyS9" 9600 eightbits parity_none stopbits_one flowcontrol_none.

(** [open] with accepted settings, and with mark parity. *)
Definition opened := open (P := linux) (os := Sim.posix) 1 (ttyS0 parity_none) power_on.
Definition refused := open (P := linux) (os := Sim.posix) 1 (ttyS0 parity_mark) power_on.

(** The idle line after [reconfigurePort], and after [setParity] with
    mark parity. *)
Definition reconfigured := and_then idle (reconfigurePort (P := linux) (os := Sim.posix)).
Definition marked :=
  and_then idle (setParity (P := linux) (os := Sim.posix) parity_mark).

(** A line on which a byte arrives while the constructor runs. *)
Definition waiting := constructed [(start + 500, 1)].

Lemma open_outcome_witness :
  same_settings (ttyS0 parity_none) (handle opened) /\
  is_open_ (handle opened) = true /\ fd_ (handle opened) <> -1 /\
  port_ (ttyS0 parity_none) <> ""%string /\
  forall fuel' w2,
    open (P := linux) (os := Sim.posix) (S fuel') (handle opened) w2
    = (Throws (SerialException "Serial port already open."), handle opened, w2).
Proof.
  exact (open_outcome (P := linux) (os := Sim.posix) 1 (ttyS0 parity_none) power_on
           (Returns tt) (handle opened) (world opened)
           ltac:(reflexivity) ltac:(vm_compute; reflexivity)).
Defined.

Lemma open_failure_witness :
  open (P := linux) (os := Sim.posix) 1 no_device power_on
  = (Throws (IOException_errno Sim.ENOENT), set_fd_ (-1) no_device,
     snd (sys_open "/dev/ttyS9" power_on)).
Proof.
  exact (proj1 (open_failure (P := linux) (os := Sim.posix)) 0%nat no_device power_on
           (snd (sys_open (Posix := Sim.posix) "/dev/ttyS9" power_on))
           ltac:(discriminate) ltac:(reflexivity) ltac:(vm_compute; reflexivity)
           ltac:(vm_compute; discriminate)).
Defined.

Lemma open_leaks_descriptor_witness :
  open (P := linux) (os := Sim.posix) 1 (ttyS0 parity_mark) power_on
  = (Throws (invalid_argument "invalid parity"), handle refused, world refused) /\
  fd_ (handle refused) = 3 /\ is_open_ (handle refused) = false /\
  close (os := Sim.posix) (handle refused) (world refused)
  = (Returns tt, handle refused, world refused).
Proof.
  pose proof (open_leaks_descriptor (P := linux) (os := Sim.posix) 0%nat
                (ttyS0 parity_mark) power_on 3 (snd (sys_open "/dev/ttyS0" power_on))
                (invalid_argument "invalid parity") (handle refused) (world refused)
                ltac:(discriminate) ltac:(reflexivity) ltac:(vm_compute; reflexivity)
                ltac:(discriminate) ltac:(vm_compute; reflexivity))
    as (H1 & H2 & H3 & H4 & _).
  repeat split; assumption.
Defined.

(** Mark parity at 9600 baud, and at 12345 baud, a rate without a
    constant: there the two calls of the driver come before the refusal. *)
Definition marked_odd_rate : SerialImpl :=
  set_fd_ 3 (set_baudrate_ 12345 (ttyS0 parity_mark)).
Definition power_on_attributes := tcgetattr (Posix := Sim.posix) 3 power_on.
Definition marked_odd_rate_driver :=
  set_custom_baud (P := linux) (os := Sim.posix) 3 12345 marked_odd_rate
    (snd power_on_attributes).

Lemma reconfigurePort_rejects_before_writing_witness :
  (exists what,
     reconfigurePort (P := linux) (os := Sim.posix) (set_fd_ 3 (ttyS0 parity_mark))
       power_on
     = (Throws (invalid_argument what), set_fd_ 3 (ttyS0 parity_mark),
        snd power_on_attributes)) /\
  (exists what,
     reconfigurePort (P := linux) (os := Sim.posix) marked_odd_rate power_on
     = (Throws (invalid_argument what), marked_odd_rate, snd marked_odd_rate_driver)) /\
  Sim.trace (snd marked_odd_rate_driver) = [Sim.Ioctl 3; Sim.Ioctl 3; Sim.Tcgetattr 3].
Proof.
  split; [|split; [|reflexivity]].
  - exact (proj1 (reconfigurePort_rejects_before_writing (P := linux) (os := Sim.posix))
             (set_fd_ 3 (ttyS0 parity_mark)) power_on 0 Sim.cooked
             (snd power_on_attributes) 13
             ltac:(discriminate) ltac:(vm_compute; reflexivity) ltac:(discriminate)
             ltac:(vm_compute; reflexivity) ltac:(reflexivity)).
  - exact (proj1 (proj2 (reconfigurePort_rejects_before_writing
                           (P := linux) (os := Sim.posix)))
             marked_odd_rate power_on 0 Sim.cooked (snd power_on_attributes)
             marked_odd_rate (snd marked_odd_rate_driver)
             ltac:(discriminate) ltac:(vm_compute; reflexivity) ltac:(discriminate)
             ltac:(vm_compute; reflexivity) ltac:(vm_compute; reflexivity)
             ltac:(reflexivity)).
Defined.

Lemma reconfigurePort_returns_on_accepted_settings_witness :
  exists o,
    reconfigurePort (P := linux) (os := Sim.posix) (handle idle) (world idle)
    = (Returns tt, flow_of (flowcontrol_ (handle idle)) (handle idle),
       snd (tcsetattr (fd_ (handle idle)) o (snd (tcgetattr 3 (world idle))))).
Proof.
  exact (reconfigurePort_returns_on_accepted_settings (P := linux) (os := Sim.posix)
           (handle idle) (world idle) 0 (snd (fst (tcgetattr 3 (world idle))))
           (snd (tcgetattr 3 (world idle))) 13
           ltac:(vm_compute; discriminate) ltac:(vm_compute; reflexivity)
           ltac:(discriminate) ltac:(vm_compute; reflexivity)
           ltac:(vm_compute; reflexivity)).
Defined.

(** The idle line has hardware flow control. *)
Lemma tcsetattr_gets_flow_and_polling_witness :
  exists options w1,
    world reconfigured = snd (tcsetattr 3 options w1) /\
    Z.land (c_cflag options) CRTSCTS = to_tcflag CRTSCTS /\
    Z.land (c_iflag options) (Z.lor IXON (Z.lor IXOFF (opt_bits IXANY))) = 0.
Proof.
  destruct (tcsetattr_gets_flow_and_polling (P := linux) (os := Sim.posix)
              (handle idle) (world idle) (handle reconfigured) (world reconfigured)
              ltac:(vm_compute; reflexivity))
    as (options & w1 & Hw & _ & _ & Hx & Hr & _).
  exists options, w1. split; [exact Hw|]. split; [exact Hr|exact Hx].
Defined.

Lemma setters_store_before_reconfiguring_witness :
  result marked = Throws (invalid_argument "invalid parity") /\
  getParity (W := Sim.tty) (handle marked) (world marked)
  = (Returns parity_mark, handle marked, world marked).
Proof.
  split; [vm_compute; reflexivity|].
  exact (proj1 (proj1 (proj2 (proj2 (setters_store_before_reconfiguring
                                       (P := linux) (os := Sim.posix)
                                       (handle idle) (world idle))))
                  parity_mark (result marked) (handle marked) (world marked)
                  ltac:(vm_compute; reflexivity))).
Defined.


Lemma closed_handle_makes_no_system_call_witness :
  available (os := Sim.posix) (ttyS0 parity_mark) power_on
  = (Returns 0, ttyS0 parity_mark, power_on) /\
  setParity (P := linux) (os := Sim.posix) parity_mark (ttyS0 parity_none) power_on
  = (Returns tt, set_parity_ parity_mark (ttyS0 parity_none), power_on).
Proof.
  split.
  - exact (proj1 (closed_handle_makes_no_system_call (P := linux) (os := Sim.posix)
                    (ttyS0 parity_mark) power_on ltac:(reflexivity))).
  - exact (proj1 (proj2 (proj2 (proj2 (proj2 (proj2
             (closed_handle_makes_no_system_call (P := linux) (os := Sim.posix)
                (ttyS0 parity_none) power_on ltac:(reflexivity)))))))
             parity_mark).
Defined.

(** A read of up to 100 bytes from the line that delivers one. *)
Lemma transfers_are_bounded_and_keep_the_handle_witness : 0 <= 1 <= 100.
Proof.
  exact (proj2 (proj2 (transfers_are_bounded_and_keep_the_handle
                         (P := linux) (os := Sim.posix)))
           5%nat 100 (handle one_byte) (world one_byte) 1
           (handle (and_then one_byte (sim_read 5 100)))
           (world (and_then one_byte (sim_read 5 100)))
           ltac:(lia)
           ltac:(intros fd count w0; apply Z.le_min_l)
           ltac:(vm_compute; reflexivity)).
Defined.

(** A read of no bytes while a byte is waiting: the calls it makes. *)
Definition waiting_clock := clock_gettime (Posix := Sim.posix) (world waiting).
Definition waiting_inq := ioctl_TIOCINQ (Posix := Sim.posix) 3 (snd waiting_clock).
Definition waiting_read := sys_read (Posix := Sim.posix) 3 0 (snd waiting_inq).

Lemma transfers_of_nothing_witness :
  read (P := linux) (os := Sim.posix) 0 0 (handle waiting) (world waiting)
  = (Throws no_data_read, handle waiting, snd waiting_read).
Proof.
  exact (proj2 (proj2 (transfers_of_nothing (P := linux) (os := Sim.posix) 0%nat
                         (handle waiting) (world waiting)
                         (fst waiting_clock) (snd waiting_clock)
                         ltac:(vm_compute; reflexivity) ltac:(vm_compute; reflexivity)))
           1 (snd waiting_inq) 0 (snd waiting_read)
           ltac:(vm_compute; reflexivity) ltac:(vm_compute; reflexivity)
           ltac:(vm_compute; reflexivity) ltac:(lia)).
Defined.

Lemma caches_follow_the_profile_witness :
  caches_follow_profile (handle idle) /\
  Forall (fun ts => 0 <= tv_nsec ts < 1000000000)
    [inter_byte_timeout_ (handle idle); read_timeout_constant_ (handle idle);
     read_timeout_multiplier_ (handle idle); write_timeout_constant_ (handle idle);
     write_timeout_multiplier_ (handle idle)].
Proof.
  exact (caches_follow_the_profile (P := linux) (os := Sim.posix) (handle idle)
           idle_reachable).
Defined.

(** The handle of the idle line with a read constant of 50 ms. *)
Lemma idle_50ms_reachable : reachable (P := linux) (os := Sim.posix) (handle idle_50ms).
Proof.
  eapply (reachable_performed (Call_setTimeout (mk_Timeout 10000 50 0 0 0))
            (handle idle) (world idle)); [exact idle_reachable|by_running].
Defined.

Lemma deadlines_are_exact_witness :
  0 <= tv_nsec (read_endtime (handle idle_50ms) (mk_timespec 1000 0) 100) < 1000000000 /\
  total_ns (read_endtime (handle idle_50ms) (mk_timespec 1000 0) 100)
  = total_ns (mk_timespec 1000 0)
    + (read_timeout_constant (timeout_ (handle idle_50ms))
       + read_timeout_constant (timeout_ (handle idle_50ms)) * 100) * 1000000.
Proof.
  exact (proj1 (deadlines_are_exact (P := linux) (os := Sim.posix) (handle idle_50ms)
                  (mk_timespec 1000 0) 100 idle_50ms_reachable
                  ltac:(unfold normal; cbn [tv_sec tv_nsec]; lia) ltac:(lia))
           ltac:(vm_compute; split; [discriminate|reflexivity])).
Defined.

Lemma open_handle_holds_descriptor_witness : fd_ (handle idle) <> -1.
Proof.
  exact (open_handle_holds_descriptor (P := linux) (os := Sim.posix) (handle idle)
           idle_reachable ltac:(vm_compute; reflexivity)).
Defined.

Lemma line_members_need_an_open_port_witness :
  flush (W := Sim.tty) (ttyS0 parity_none) power_on
  = (Throws (PortNotOpenedException "Serial::flush"), ttyS0 parity_none, power_on).
Proof.
  exact (proj1 (line_members_need_an_open_port (W := Sim.tty) (ttyS0 parity_none)
                  power_on ltac:(reflexivity))).
Defined.

(** On the simulated line, as on Linux, [TIOCMGET] with a null pointer
    fails: all four lines are reported as raised. *)
Definition idle_status := ioctl_TIOCMGET (PosixLines := sim_lines) 3 0 (world idle).

Lemma status_getters_test_the_result_witness :
  getCTS (W := Sim.tty) (handle idle) (world idle)
  = (Returns true, handle idle, snd idle_status) /\
  getDSR (W := Sim.tty) (handle idle) (world idle)
  = (Returns true, handle idle, snd idle_status) /\
  getRI (W := Sim.tty) (handle idle) (world idle)
  = (Returns true, handle idle, snd idle_status) /\
  getCD (W := Sim.tty) (handle idle) (world idle)
  = (Returns true, handle idle, snd idle_status).
Proof.
  exact (proj2 (proj2 (status_getters_test_the_result (W := Sim.tty)
                         (handle idle) (world idle) (-1)
                         (snd idle_status)
                         ltac:(vm_compute; reflexivity) ltac:(vm_compute; reflexivity)))
           ltac:(reflexivity) ltac:(discriminate) ltac:(discriminate)
           ltac:(discriminate) ltac:(discriminate)).
Defined.

Lemma line_members_keep_the_handle_and_ignore_failures_witness :
  setRTS (W := Sim.tty) true (handle idle) (world idle)
  = (Returns tt, handle idle,
     snd (ioctl_TIOCMBIS (PosixLines := sim_lines) 3 TIOCM_RTS (world idle))) /\
  fst (ioctl_TIOCMBIS (PosixLines := sim_lines) 3 TIOCM_RTS (world idle)) = -1.
Proof.
  split; [|reflexivity].
  exact (proj1 (proj2 (proj2 (proj2 (proj2 (proj2 (proj2
           (proj2 (line_members_keep_the_handle_and_ignore_failures (W := Sim.tty))
              (handle idle) (world idle) ltac:(vm_compute; reflexivity))))))))).
Defined.

Lemma waitForChange_outcomes_witness :
  waitForChange_polling (W := Sim.tty) 1 (handle idle) (world idle)
  = (Returns true, handle idle, snd idle_status).
Proof.
  exact (proj1 (proj2 (waitForChange_outcomes (W := Sim.tty))) 0%nat
           (handle idle) (world idle) (-1) (snd idle_status)
           ltac:(vm_compute; reflexivity) ltac:(vm_compute; reflexivity)
           ltac:(reflexivity)).
Defined.

(** The macros of Linux are distinct bits, and the idle line is set to
    eight bits, one stop bit and no parity. *)
Lemma tcsetattr_gets_the_character_format_witness :
  exists options w1,
    world reconfigured = snd (tcsetattr 3 options w1) /\
    Z.land (c_cflag options) CSIZE = CS8 /\
    Z.land (c_cflag options) CSTOPB = 0 /\
    Z.land (c_cflag options) PARENB = 0 /\
    Z.land (c_cflag options) PARODD = 0.
Proof.
  exact (tcsetattr_gets_the_character_format (P := linux) (os := Sim.posix)
           (handle idle) (world idle) (handle reconfigured) (world reconfigured)
           ltac:(unfold format_masks_apart, mask32; repeat split;
                 repeat (apply Forall_cons; split); try apply Forall_nil;
                 vm_compute;
                 first [reflexivity | split; [discriminate|reflexivity]])
           ltac:(vm_compute; reflexivity)).
Defined.

(** A read of one byte from the line on which a byte is waiting. *)
Definition waiting_read_1 := sys_read (Posix := Sim.posix) 3 1 (snd waiting_inq).

Lemma read_takes_what_is_queued_witness :
  read (P := linux) (os := Sim.posix) 0 1 (handle waiting) (world waiting)
  = (Returns 1, handle waiting, snd waiting_read_1).
Proof.
  exact (proj1 (proj1 (read_takes_what_is_queued (P := linux) (os := Sim.posix) 0%nat 1
                         (handle waiting) (world waiting)
                         (fst waiting_clock) (snd waiting_clock) (snd waiting_inq)
                         ltac:(vm_compute; reflexivity) ltac:(vm_compute; reflexivity))
                  1 1 (snd waiting_read_1)
                  ltac:(vm_compute; reflexivity) ltac:(vm_compute; reflexivity)
                  ltac:(vm_compute; reflexivity) ltac:(lia))
           ltac:(lia)).
Defined.

(** The idle line at 12345 baud, a rate without a constant. *)
Definition odd_rate : SerialImpl := set_baudrate_ 12345 (handle idle).
Definition odd_rate_set :=
  reconfigurePort (P := linux) (os := Sim.posix) odd_rate (world idle).
Definition idle_attributes := tcgetattr (Posix := Sim.posix) 3 (world idle).

(** The same at 2^32 baud, which as an [int] is 0. *)
Definition zero_rate : SerialImpl := set_baudrate_ 4294967296 (handle idle).
Definition idle_serial :=
  ioctl_TIOCGSERIAL (Posix := Sim.posix) 3 (snd idle_attributes).

Lemma custom_baud_goes_to_the_driver_witness :
  (exists o w2,
     world odd_rate_set = snd (tcsetattr 3 o w2) /\
     c_ispeed o = c_ispeed (snd (fst idle_attributes)) /\
     c_ospeed o = c_ospeed (snd (fst idle_attributes))) /\
  reconfigurePort (P := linux) (os := Sim.posix) zero_rate (world idle)
  = (Undefined, zero_rate, snd idle_serial).
Proof.
  split.
  - exact (proj2 (proj2 (custom_baud_goes_to_the_driver (P := linux) (os := Sim.posix)
                           odd_rate (world idle) 0 (snd (fst idle_attributes))
                           (snd idle_attributes)
                           ltac:(vm_compute; discriminate) ltac:(vm_compute; reflexivity)
                           ltac:(discriminate) ltac:(vm_compute; reflexivity)))
             (handle odd_rate_set) (world odd_rate_set)
             ltac:(vm_compute; reflexivity)).
  - exact (proj1 (proj1 (proj2 (custom_baud_goes_to_the_driver
                                  (P := linux) (os := Sim.posix)
                                  zero_rate (world idle) 0 (snd (fst idle_attributes))
                                  (snd idle_attributes)
                                  ltac:(vm_compute; discriminate)
                                  ltac:(vm_compute; reflexivity)
                                  ltac:(discriminate) ltac:(vm_compute; reflexivity)))
                    ltac:(reflexivity)
                    (fst (fst idle_serial)) (snd (fst idle_serial)) (snd idle_serial)
                    ltac:(vm_compute; reflexivity))
             ltac:(vm_compute; reflexivity)).
Defined.

(** A write of four bytes on the idle line, whose profile is all zero: the
    deadline is the time of the first reading of the clock, the loop
    reads the clock a microsecond later, and what is left is negative. *)
Definition expired_start := clock_gettime (Posix := Sim.posix) (world idle).
Definition expired_deadline : timespec :=
  write_endtime (handle idle) (fst expired_start) 4.
Definition expired_now := clock_gettime (Posix := Sim.posix) (snd expired_start).
Definition expired_wait : timespec := operator_minus expired_deadline (fst expired_now).
Definition expired_answer :=
  pselect_write (Posix := Sim.posix) 3 expired_wait (snd expired_now).

Lemma expired_wait_reaches_pselect_witness :
  expired_wait = mk_timespec (-1) 999999000 /\
  tv_sec expired_wait < 0 /\
  fst expired_answer = (-1, false) /\
  write (P := linux) (os := Sim.posix) 1 4 (handle idle) (world idle)
  = write_loop (P := linux) (os := Sim.posix) 1 expired_deadline 4 0
      (handle idle) (snd expired_start) /\
  write_loop (P := linux) (os := Sim.posix) 1 expired_deadline 4 0
    (handle idle) (snd expired_start)
  = (Throws (IOException_errno Sim.EINVAL), handle idle, snd expired_answer).
Proof.
  split; [vm_compute; reflexivity|].
  split; [exact (proj1 (proj1 (expired_wait_reaches_pselect (P := linux)
                                 (os := Sim.posix))
                          expired_deadline (fst expired_now) (mk_timespec 0 0)
                          ltac:(vm_compute; repeat split; first [reflexivity|discriminate])
                          ltac:(vm_compute; repeat split; first [reflexivity|discriminate])
                          ltac:(vm_compute; reflexivity)))|].
  split; [vm_compute; reflexivity|].
  split; [vm_compute; reflexivity|].
  exact (proj1 (proj2 (proj2 (proj2 (proj2 (expired_wait_reaches_pselect (P := linux)
                                              (os := Sim.posix)))
                                0%nat expired_deadline 4 0 (handle idle)
                                (snd expired_start)
                                (fst expired_now) (snd expired_now)
                                (-1) false (snd expired_answer)
                                ltac:(lia) ltac:(vm_compute; reflexivity)
                                ltac:(vm_compute; reflexivity))))
           ltac:(lia) ltac:(vm_compute; discriminate)).
Defined.





